(** * Product performance optimizer: ranking and consolidation core

    A shallow embedding of the analysis core of the repository
    (analyzers/cannibalization.py, analyzers/sku_rationalization.py,
    analyzers/contribution_margin.py, analyzers/new_product_scoring.py,
    analyzers/slow_mover_detection.py and orchestrator.py), followed by the
    properties of the specification that were checked against it.

    Conventions of the embedding.
    - A pandas DataFrame is a [frame]: either a table of typed rows or the
      column-less [pd.DataFrame()] the code returns on its early exits.
      Selecting a column of a column-less frame raises [KeyError].
    - A float64 is a [float]: an exact rational, one of the two infinities,
      or NaN.  Comparisons with NaN are false, as in IEEE 754; finite
      arithmetic is exact (no rounding, no overflow, no signed zero).
    - Numeric input columns are rationals: the connectors pass every numeric
      column through [to_numeric(...).fillna(0)].  NaN only enters through
      unmatched joins and empty aggregates, as in the code.
    - Python exceptions are the [Raise] case of [result]. *)

From Stdlib Require Import QArith Qabs Qround Qminmax Lqa ZArith Lia.
From Stdlib Require Import Sorting.Sorted Sorting.Permutation Ascii.
From stdpp Require Import gmap strings list fin_maps pretty.
Close Scope Q_scope.

(** ** Exceptions and results *)

Inductive exn :=
| KeyError (key : string)
| ValueError (msg : string).

Inductive result (A : Type) :=
| Ok (a : A)
| Raise (e : exn).
Arguments Ok {A} a.
Arguments Raise {A} e.

#[global] Instance result_bind : MBind result := λ A B k r,
  match r with
  | Ok a => k a
  | Raise e => Raise e
  end.

(** Decides a closed membership goal by evaluating its decision procedure. *)
Ltac by_evaluation := apply (bool_decide_unpack _); vm_compute; exact I.

(** ** float64 values *)

Inductive float :=
| Fin (q : Q)
| PInf
| NInf
| NaN.

Definition Qlt_bool (x y : Q) : bool := negb (Qle_bool y x).

(** [a <= b] *)
Definition fleb (a b : float) : bool :=
  match a, b with
  | NaN, _ | _, NaN => false
  | NInf, _ => true
  | _, PInf => true
  | Fin x, Fin y => Qle_bool x y
  | _, _ => false
  end.

(** [a < b] *)
Definition fltb (a b : float) : bool :=
  match a, b with
  | NaN, _ | _, NaN => false
  | Fin x, Fin y => Qlt_bool x y
  | NInf, NInf => false
  | NInf, _ => true
  | PInf, _ => false
  | Fin _, PInf => true
  | Fin _, NInf => false
  end.

Definition fgeb (a b : float) : bool := fleb b a.
Definition fgtb (a b : float) : bool := fltb b a.

(** [a == b] *)
Definition feqb (a b : float) : bool :=
  match a, b with
  | Fin x, Fin y => Qeq_bool x y
  | PInf, PInf | NInf, NInf => true
  | _, _ => false
  end.

(** [np.isinf] and [pd.isna] *)
Definition isinf (a : float) : bool :=
  match a with PInf | NInf => true | _ => false end.
Definition isna (a : float) : bool :=
  match a with NaN => true | _ => false end.

Definition fneg (a : float) : float :=
  match a with
  | Fin x => Fin (- x)%Q
  | PInf => NInf
  | NInf => PInf
  | NaN => NaN
  end.

Definition fadd (a b : float) : float :=
  match a, b with
  | NaN, _ | _, NaN => NaN
  | Fin x, Fin y => Fin (x + y)%Q
  | PInf, NInf | NInf, PInf => NaN
  | PInf, _ | _, PInf => PInf
  | NInf, _ | _, NInf => NInf
  end.

Definition fsub (a b : float) : float := fadd a (fneg b).

(** An infinity of the sign of [q]; [inf * 0] is NaN. *)
Definition signed_inf (positive : bool) (q : Q) : float :=
  match Qcompare q 0 with
  | Eq => NaN
  | Gt => if positive then PInf else NInf
  | Lt => if positive then NInf else PInf
  end.

Definition fmul (a b : float) : float :=
  match a, b with
  | NaN, _ | _, NaN => NaN
  | Fin x, Fin y => Fin (x * y)%Q
  | PInf, Fin y => signed_inf true y
  | NInf, Fin y => signed_inf false y
  | Fin x, PInf => signed_inf true x
  | Fin x, NInf => signed_inf false x
  | PInf, PInf | NInf, NInf => PInf
  | PInf, NInf | NInf, PInf => NInf
  end.

(** numpy division: [x / 0] is an infinity of the sign of [x], [0 / 0] and
    [inf / inf] are NaN. *)
Definition fdiv (a b : float) : float :=
  match a, b with
  | NaN, _ | _, NaN => NaN
  | Fin x, Fin y =>
      if Qeq_bool y 0 then signed_inf true x else Fin (x / y)%Q
  | Fin _, _ => Fin 0
  | PInf, Fin y => if Qlt_bool y 0 then NInf else PInf
  | NInf, Fin y => if Qlt_bool y 0 then PInf else NInf
  | _, _ => NaN
  end.

(** The builtin [min(a, b)] of Python: [b] when [b < a], else [a]. *)
Definition py_min (a b : float) : float := if fltb b a then b else a.

(** The builtin [max(a, b)] of Python: [b] when [b > a], else [a]. *)
Definition py_max (a b : float) : float := if fgtb b a then b else a.

Definition Qsum (l : list Q) : Q := foldr Qplus 0%Q l.
Definition Qnat (n : nat) : Q := inject_Z (Z.of_nat n).

(** [Series.sum()] with the default [skipna=True]. *)
Definition nansum (l : list float) : float :=
  foldr fadd (Fin 0) (filter (λ x, isna x = false) l).

(** ** Stable sorting

    [list.sort(key=...)] is stable; [DataFrame.sort_values] is modelled by the
    same sort (its default algorithm does not promise an order among equal
    keys, and nothing below depends on one). *)

Section Sort.
Context {A : Type} (leb : A → A → bool).

Fixpoint ins (x : A) (l : list A) : list A :=
  match l with
  | [] => [x]
  | y :: l' => if leb x y then x :: l else y :: ins x l'
  end.

Definition stable_sort (l : list A) : list A := foldr ins [] l.
End Sort.

(** [x] stands somewhere before [y] in [l]. *)
Definition precedes {A} (x y : A) (l : list A) : Prop :=
  ∃ l1 l2 l3, l = l1 ++ x :: l2 ++ y :: l3.

(** ** Frames *)

Inductive frame (R : Type) :=
| NoColumns
| Table (rows : list R).
Arguments NoColumns {R}.
Arguments Table {R} rows.

Definition frame_rows {R} (f : frame R) : list R :=
  match f with NoColumns => [] | Table rows => rows end.

(** [len(df)] *)
Definition frame_len {R} (f : frame R) : nat := length (frame_rows f).

(** [df.empty] *)
Definition frame_empty {R} (f : frame R) : bool :=
  match frame_rows f with [] => true | _ => false end.

(** [pd.DataFrame(list_of_dicts)]: no dict, no column. *)
Definition DataFrame {R} (records : list R) : frame R :=
  match records with [] => NoColumns | _ => Table records end.

(** [df[name]]: the column, or [KeyError] when the frame has no such column. *)
Definition getitem {R V} (f : frame R) (name : string) (proj : R → V)
  : result (list V) :=
  match f with
  | NoColumns => Raise (KeyError name)
  | Table rows => Ok (map proj rows)
  end.

(** [Series.unique()]: first occurrences, in order of appearance. *)
Fixpoint unique (l : list string) : list string :=
  match l with
  | [] => []
  | x :: l' => x :: filter (λ y, y ≠ x) (unique l')
  end.

(** [itertools.combinations(l, 2)] *)
Fixpoint combinations2 {A} (l : list A) : list (A * A) :=
  match l with
  | [] => []
  | x :: l' => map (pair x) l' ++ combinations2 l'
  end.

(** Group keys of [groupby(key)] (sorted, [sort=True] being the default). *)
Definition group_keys (keys : list string) : list string :=
  stable_sort String.leb (unique keys).

(** [left.merge(right, on=key, how='left')]: left order is kept, a left row
    with no match is kept once with the right side missing. *)
Definition merge_left {L R O} (key_l : L → string) (key_r : R → string)
    (join : L → option R → O) (left : list L) (right : list R) : list O :=
  flat_map (λ l,
    match filter (λ r, key_r r = key_l l) right with
    | [] => [join l None]
    | ms => map (λ r, join l (Some r)) ms
    end) left.

(** [left.merge(right, on=key, how='outer')]: one group per key of either
    side, keys in sorted order. *)
Definition merge_outer {L R O} (key_l : L → string) (key_r : R → string)
    (join : option L → option R → O) (left : list L) (right : list R) : list O :=
  flat_map (λ k,
    match filter (λ l, key_l l = k) left, filter (λ r, key_r r = k) right with
    | [], rs => map (λ r, join None (Some r)) rs
    | ls, [] => map (λ l, join (Some l) None) ls
    | ls, rs => flat_map (λ l, map (λ r, join (Some l) (Some r)) rs) ls
    end)
    (group_keys (map key_l left ++ map key_r right)).

(** ** Percentiles with linear interpolation

    [np.percentile(a, q)] and [Series.quantile(q)]: the value at the virtual
    index [(n - 1) * q] of the sorted data, interpolated between the two
    neighbouring order statistics. *)

(** numpy's [_lerp] *)
Definition lerp (a b : float) (t : Q) : float :=
  if Qle_bool (1 # 2) t
  then fsub b (fmul (fsub b a) (Fin (1 - t)%Q))
  else fadd a (fmul (fsub b a) (Fin t)).

Definition quantile_sorted (s : list float) (q : Q) : float :=
  let n := length s in
  let virtual := (Qnat (n - 1) * q)%Q in
  let previous := Z.to_nat (Qfloor virtual) in
  let next := Nat.min (previous + 1) (n - 1) in
  let gamma := (virtual - inject_Z (Qfloor virtual))%Q in
  lerp (nth previous s NaN) (nth next s NaN) gamma.

(** A NaN in the data makes the result NaN. *)
Definition quantile_linear (a : list float) (q : Q) : float :=
  if existsb isna a then NaN
  else quantile_sorted (stable_sort fleb a) q.

(** [np.percentile(a, q)] for a scalar [q]. *)
Definition np_percentile (a : list float) (q : Z) : result float :=
  if bool_decide (0 ≤ q ≤ 100)%Z
  then Ok (quantile_linear a (inject_Z q / 100)%Q)
  else Raise (ValueError "Percentiles must be in the range [0, 100]").

(** [Series.rank(pct=True, ascending=False)] with the default
    [method='average'] and [na_option='keep']: the rank of [x] counted from
    the largest value, ties sharing the mean of their positions, divided by
    the number of valid entries. *)
Definition rank_pct_descending (column : list float) (x : float) : float :=
  if isna x then NaN
  else
    let valid := filter (λ y, isna y = false) column in
    let greater := length (filter (λ y, fgtb y x = true) valid) in
    let equal := length (filter (λ y, feqb y x = true) valid) in
    Fin ((Qnat greater + (Qnat equal + 1) / 2) / Qnat (length valid))%Q.

(** [Series.rank(pct=True)]: as above, counted from the smallest value. *)
Definition rank_pct_ascending (column : list float) (x : float) : float :=
  if isna x then NaN
  else
    let valid := filter (λ y, isna y = false) column in
    let less := length (filter (λ y, fltb y x = true) valid) in
    let equal := length (filter (λ y, feqb y x = true) valid) in
    Fin ((Qnat less + (Qnat equal + 1) / 2) / Qnat (length valid))%Q.

(** ** Input tables (the boundary with the connectors) *)

(** Timestamps are seconds on a common clock; [None] is [NaT], the value an
    unparseable date is coerced to. *)
Definition seconds_per_day : Z := 86400.

(** [(later - earlier).days]: whole days, rounded down. *)
Definition days_between (later earlier : option Z) : option Z :=
  l ← later; e ← earlier; Some ((l - e) `div` seconds_per_day)%Z.

Record SalesRecord := {
  s_sku : string;
  s_date : option Z;
  s_revenue : Q;
  s_units : Q;
  s_fees : Q;
  s_shipping_cost : Q;
  s_returns : Q
}.

Record InventorySnapshot := {
  i_sku : string;
  i_quantity_on_hand : Q;
  i_cost_per_unit : Q
}.

Record ProductInfo := {
  p_sku : string;
  p_product_name : string;
  p_launch_date : option Z
}.

Record PurchaseEvent := {
  pe_customer_id : string;
  pe_sku : string
}.

(** A recommendation dict. [rec_priority] is [None] when the key is absent;
    [source_analysis] is set by the consolidator. *)
Record Recommendation := {
  rec_type : string;
  rec_priority : option string;
  rec_action : string;
  rec_impact : string;
  rec_details : string;
  source_analysis : option string
}.

(** Number formatting of the f-strings ([{:,.0f}], [{:.1%}], [{:.2f}]):
    presentation only, left abstract. *)
Class NumberFormat := {
  fmt_money : float → string;
  fmt_percent : float → string;
  fmt_fixed2 : float → string
}.

(** [product_info.set_index('sku')['product_name'].to_dict()] *)
Definition product_names (product_info : list ProductInfo)
  : gmap string string :=
  foldl (λ m p, <[p_sku p := p_product_name p]> m) ∅ product_info.

(** ** analyzers/cannibalization.py *)

Module CannibalizationAnalyzer.

Record overlap_row := {
  sku1 : string;
  sku2 : string;
  customers_sku1 : nat;
  customers_sku2 : nat;
  overlap_count : nat;
  overlap_pct : Q
}.

(** A row of [cannibal_pairs]. [revenue_at_risk] is the column that
    [_calculate_impact] adds in place; [None] while it is absent. *)
Record pair_row := {
  base : overlap_row;
  revenue1 : float;
  units1 : float;
  revenue2 : float;
  units2 : float;
  stronger_sku : string;
  weaker_sku : string;
  revenue_at_risk : option float
}.

Record sales_summary_row := {
  ss_sku : string;
  ss_revenue : Q;
  ss_units : Q
}.

Record impact := {
  total_revenue_at_risk : float;
  average_overlap : float;
  potential_consolidation_savings : float
}.

Record summary := {
  total_pairs_analyzed : nat;
  cannibalization_pairs_count : nat;
  high_risk_pairs : nat
}.

Record analysis := {
  overlap_matrix : frame overlap_row;
  cannibalization_pairs : frame pair_row;
  impact_analysis : impact;
  recommendations : list Recommendation;
  analysis_summary : summary
}.

(** [groupby('customer_id')['sku'].apply(set).to_dict()] *)
Definition customer_skus (data : list PurchaseEvent)
  : gmap string (gset string) :=
  foldr (λ e m,
    <[pe_customer_id e :=
        {[pe_sku e]} ∪ default ∅ (m !! pe_customer_id e)]> m) ∅ data.

(** The inner loop over [customer_skus.items()]. *)
Definition customers_of (cs : gmap string (gset string)) (sku : string)
  : gset string :=
  dom (filter (λ kv, sku ∈ kv.2) cs).

Definition overlap_of (cs : gmap string (gset string))
    (p : string * string) : option overlap_row :=
  let c1 := customers_of cs p.1 in
  let c2 := customers_of cs p.2 in
  if bool_decide (0 < size c1 ∨ 0 < size c2) then
    let overlap := size (c1 ∩ c2) in
    let total_unique := size (c1 ∪ c2) in
    if bool_decide (0 < total_unique) then
      Some {| sku1 := p.1; sku2 := p.2;
              customers_sku1 := size c1; customers_sku2 := size c2;
              overlap_count := overlap;
              overlap_pct := (Qnat overlap / Qnat total_unique)%Q |}
    else None
  else None.

Definition _calculate_overlap_matrix (customer_overlap_data : list PurchaseEvent)
  : frame overlap_row :=
  match customer_overlap_data with
  | [] => NoColumns
  | _ =>
      let skus := unique (map pe_sku customer_overlap_data) in
      let cs := customer_skus customer_overlap_data in
      DataFrame (omap (overlap_of cs) (combinations2 skus))
  end.

(** [sales_data.groupby('sku').agg({'revenue': 'sum', 'units': 'sum'})] *)
Definition sales_summary (sales_data : list SalesRecord)
  : list sales_summary_row :=
  map (λ k,
    let g := filter (λ s, s_sku s = k) sales_data in
    {| ss_sku := k;
       ss_revenue := Qsum (map s_revenue g);
       ss_units := Qsum (map s_units g) |})
    (group_keys (map s_sku sales_data)).

Definition opt_float {R} (proj : R → Q) (o : option R) : float :=
  match o with Some r => Fin (proj r) | None => NaN end.

Section Analyzer.
Variable overlap_threshold : Q.

Definition _identify_cannibalization (overlap_matrix : frame overlap_row)
    (sales_data : list SalesRecord) : frame pair_row :=
  if frame_empty overlap_matrix then NoColumns
  else
    let cannibal_pairs :=
      filter (λ r, Qle_bool overlap_threshold (overlap_pct r) = true)
             (frame_rows overlap_matrix) in
    let summary := sales_summary sales_data in
    let merged1 :=
      merge_left sku1 ss_sku
        (λ r o, (r, opt_float ss_revenue o, opt_float ss_units o))
        cannibal_pairs summary in
    let merged2 :=
      merge_left (λ x, sku2 x.1.1) ss_sku
        (λ x o,
           let '(r, rev1, un1) := x in
           let rev2 := opt_float ss_revenue o in
           {| base := r; revenue1 := rev1; units1 := un1;
              revenue2 := rev2; units2 := opt_float ss_units o;
              stronger_sku := if fgeb rev1 rev2 then sku1 r else sku2 r;
              weaker_sku := if fgeb rev1 rev2 then sku2 r else sku1 r;
              revenue_at_risk := None |})
        merged1 summary in
    Table (stable_sort
             (λ a b, Qle_bool (overlap_pct (base b)) (overlap_pct (base a)))
             merged2).

Definition zero_impact : impact :=
  {| total_revenue_at_risk := Fin 0;
     average_overlap := Fin 0;
     potential_consolidation_savings := Fin 0 |}.

Definition set_revenue_at_risk (r : pair_row) : pair_row :=
  {| base := base r; revenue1 := revenue1 r; units1 := units1 r;
     revenue2 := revenue2 r; units2 := units2 r;
     stronger_sku := stronger_sku r; weaker_sku := weaker_sku r;
     revenue_at_risk := Some (py_min (revenue1 r) (revenue2 r)) |}.

(** Returns the frame as well: the column [revenue_at_risk] is added to
    the caller's [cannibal_pairs] in place. *)
Definition _calculate_impact (cannibal_pairs : frame pair_row)
  : frame pair_row * impact :=
  match frame_len cannibal_pairs with
  | O => (cannibal_pairs, zero_impact)
  | S _ =>
      let rows := map set_revenue_at_risk (frame_rows cannibal_pairs) in
      let total :=
        nansum (map (λ r, default NaN (revenue_at_risk r)) rows) in
      let average :=
        (Qsum (map (λ r, overlap_pct (base r)) rows) / Qnat (length rows))%Q in
      (Table rows,
       {| total_revenue_at_risk := total;
          average_overlap := Fin average;
          potential_consolidation_savings := fmul total (Fin (20 # 100)) |})
  end.

Context `{NumberFormat}.

Definition pair_recommendation (names : gmap string string) (row : pair_row)
  : Recommendation :=
  let name_of s := default s (names !! s) in
  let r := base row in
  {| rec_type := "cannibalization_pair";
     rec_priority :=
       Some (if Qle_bool (90 # 100) (overlap_pct r) then "high" else "medium");
     rec_action :=
       "SKUs " +:+ sku1 r +:+ " and " +:+ sku2 r +:+ ": "
       +:+ fmt_percent (Fin (overlap_pct r)) +:+ " customer overlap";
     rec_impact :=
       "Consider discontinuing " +:+ name_of (weaker_sku row)
       +:+ " or differentiating products";
     rec_details :=
       name_of (sku1 r) +:+ " vs " +:+ name_of (sku2 r)
       +:+ " - Stronger: " +:+ name_of (stronger_sku row);
     source_analysis := None |}.

Definition _generate_recommendations (cannibal_pairs : frame pair_row)
    (impact_analysis : impact) (product_info : list ProductInfo)
  : list Recommendation :=
  match frame_len cannibal_pairs with
  | O => []
  | S _ =>
      {| rec_type := "cannibalization_warning";
         rec_priority := Some "high";
         rec_action :=
           pretty (frame_len cannibal_pairs)
           +:+ " product pairs with high customer overlap detected";
         rec_impact :=
           "$" +:+ fmt_money (total_revenue_at_risk impact_analysis)
           +:+ " revenue potentially at risk";
         rec_details :=
           "Average overlap: "
           +:+ fmt_percent (average_overlap impact_analysis);
         source_analysis := None |}
      :: map (pair_recommendation (product_names product_info))
             (take 10 (frame_rows cannibal_pairs))
  end.

Definition analyze (customer_overlap_data : list PurchaseEvent)
    (sales_data : list SalesRecord) (product_info : list ProductInfo)
  : result analysis :=
  let overlap_matrix := _calculate_overlap_matrix customer_overlap_data in
  let cannibal_pairs := _identify_cannibalization overlap_matrix sales_data in
  let '(cannibal_pairs, impact_analysis) := _calculate_impact cannibal_pairs in
  let recommendations :=
    _generate_recommendations cannibal_pairs impact_analysis product_info in
  (* cannibal_pairs[cannibal_pairs['overlap_pct'] >= self.overlap_threshold] *)
  column ← getitem cannibal_pairs "overlap_pct" (λ r, overlap_pct (base r));
  Ok {| overlap_matrix := overlap_matrix;
        cannibalization_pairs := cannibal_pairs;
        impact_analysis := impact_analysis;
        recommendations := recommendations;
        analysis_summary :=
          {| total_pairs_analyzed := frame_len overlap_matrix;
             cannibalization_pairs_count := frame_len cannibal_pairs;
             high_risk_pairs :=
               length (filter (λ x, Qle_bool overlap_threshold x = true)
                              column) |} |}.
End Analyzer.

End CannibalizationAnalyzer.

(** ** analyzers/sku_rationalization.py *)

Module SKURationalizationAnalyzer.

Record sales_summary_row := {
  ss_sku : string;
  ss_revenue : Q;
  ss_units : Q;
  ss_fees : Q;
  ss_shipping_cost : Q
}.

(** A row of [merged] after the [fillna(0)] of revenue, units,
    quantity_on_hand and cost_per_unit; fees and shipping_cost are not
    filled and stay NaN for a sku that has inventory but no sales. *)
Record merged_row := {
  sku : string;
  revenue : Q;
  units : Q;
  fees : float;
  shipping_cost : float;
  quantity_on_hand : Q;
  cost_per_unit : Q;
  product_name : option string
}.

Record metrics_row := {
  base : merged_row;
  profit : float;
  profit_margin : float;
  working_capital : Q;
  revenue_per_unit : Q;
  velocity_score : Q;
  composite_score : float
}.

Record zombie_row := {
  metrics_of : metrics_row;
  status : string;
  reason : string
}.

Record financial_impact := {
  working_capital_freed : float;
  annual_revenue_lost : float;
  annual_profit_lost : float;
  net_benefit : float
}.

Record summary := {
  total_zombies : nat;
  capital_freed : float;
  bottom_percentile : Z
}.

Record analysis := {
  zombie_skus : frame zombie_row;
  metrics : list metrics_row;
  impact : financial_impact;
  recommendations : list Recommendation;
  analysis_summary : summary
}.

Definition sales_summary (sales_data : list SalesRecord)
  : list sales_summary_row :=
  map (λ k,
    let g := filter (λ s, s_sku s = k) sales_data in
    {| ss_sku := k;
       ss_revenue := Qsum (map s_revenue g);
       ss_units := Qsum (map s_units g);
       ss_fees := Qsum (map s_fees g);
       ss_shipping_cost := Qsum (map s_shipping_cost g) |})
    (group_keys (map s_sku sales_data)).

Definition fill0 {R} (proj : R → Q) (o : option R) : Q :=
  match o with Some r => proj r | None => 0%Q end.

Definition keep_nan {R} (proj : R → Q) (o : option R) : float :=
  match o with Some r => Fin (proj r) | None => NaN end.

Definition _merge_data (sales_data : list SalesRecord)
    (inventory_data : list InventorySnapshot) (product_info : list ProductInfo)
  : list merged_row :=
  let merged :=
    merge_outer ss_sku i_sku
      (λ s i, (from_option ss_sku (from_option i_sku ""%string i) s, s, i))
      (sales_summary sales_data) inventory_data in
  merge_left (λ x, x.1.1) p_sku
    (λ x p,
       let '(k, s, i) := x in
       {| sku := k;
          revenue := fill0 ss_revenue s;
          units := fill0 ss_units s;
          fees := keep_nan ss_fees s;
          shipping_cost := keep_nan ss_shipping_cost s;
          quantity_on_hand := fill0 i_quantity_on_hand i;
          cost_per_unit := fill0 i_cost_per_unit i;
          product_name := p_product_name <$> p |})
    merged product_info.

Definition revenue_percentile (merged : list merged_row) (r : merged_row) : float :=
  rank_pct_descending (map (λ m, Fin (revenue m)) merged) (Fin (revenue r)).

Definition profit_of (r : merged_row) : float :=
  fsub (fsub (Fin (revenue r)) (fees r)) (shipping_cost r).

Definition profit_percentile (merged : list merged_row) (r : merged_row) : float :=
  rank_pct_descending (map profit_of merged) (profit_of r).

Definition velocity_percentile (merged : list merged_row) (r : merged_row) : float :=
  rank_pct_descending (map (λ m, Fin (units m)) merged) (Fin (units r)).

Definition _calculate_metrics (merged : list merged_row) : list metrics_row :=
  map (λ r,
    {| base := r;
       profit := profit_of r;
       profit_margin :=
         if Qlt_bool 0 (revenue r) then fdiv (profit_of r) (Fin (revenue r))
         else Fin 0;
       working_capital := (quantity_on_hand r * cost_per_unit r)%Q;
       revenue_per_unit :=
         if Qlt_bool 0 (units r) then (revenue r / units r)%Q else 0%Q;
       velocity_score := units r;
       composite_score :=
         fadd (fadd (fmul (revenue_percentile merged r) (Fin (4 # 10)))
                    (fmul (profit_percentile merged r) (Fin (4 # 10))))
              (fmul (velocity_percentile merged r) (Fin (2 # 10))) |})
    merged.

Definition join_reasons (reasons : list string) : string :=
  match reasons with
  | [] => "Bottom performer"
  | r :: rs => foldl (λ acc x, acc +:+ "; " +:+ x) r rs
  end.

Definition _get_zombie_reason (row : metrics_row) : string :=
  let b := base row in
  join_reasons
    ((if Qeq_bool (revenue b) 0 then ["No revenue"]
      else if Qlt_bool (revenue b) 100 then ["Very low revenue"] else [])
     ++ (if fltb (profit row) (Fin 0) then ["Negative profit"]
         else if fltb (profit_margin row) (Fin (1 # 10))
              then ["Low profit margin"] else [])
     ++ (if Qeq_bool (units b) 0 then ["No units sold"]
         else if Qlt_bool (units b) 5 then ["Very slow moving"] else [])
     ++ (if Qlt_bool 0 (quantity_on_hand b) && Qeq_bool (units b) 0
         then ["Dead inventory"] else [])).

Definition is_active (m : metrics_row) : bool :=
  Qlt_bool 0 (revenue (base m)) || Qlt_bool 0 (quantity_on_hand (base m)).

Section Analyzer.
Variable threshold_percentile : Z.

Definition _identify_zombies (metrics : list metrics_row)
  : result (frame zombie_row) :=
  let active_skus := filter (λ m, is_active m = true) metrics in
  match active_skus with
  | [] => Ok NoColumns
  | _ =>
      threshold ← np_percentile (map composite_score active_skus)
                                threshold_percentile;
      let zombies :=
        filter (λ m, fleb (composite_score m) threshold = true) active_skus in
      let zombies :=
        stable_sort (λ a b, fleb (composite_score a) (composite_score b))
                    zombies in
      Ok (Table (map (λ m, {| metrics_of := m; status := "zombie";
                              reason := _get_zombie_reason m |}) zombies))
  end.

Definition _calculate_financial_impact (zombies : frame zombie_row)
  : financial_impact :=
  match frame_len zombies with
  | O => {| working_capital_freed := Fin 0; annual_revenue_lost := Fin 0;
            annual_profit_lost := Fin 0; net_benefit := Fin 0 |}
  | S _ =>
      let rows := map metrics_of (frame_rows zombies) in
      let freed := Fin (Qsum (map working_capital rows)) in
      let revenue_lost :=
        Fin (Qsum (map (λ m, revenue (base m)) rows) * 12)%Q in
      let profit_lost := fmul (nansum (map profit rows)) (Fin 12) in
      {| working_capital_freed := freed;
         annual_revenue_lost := revenue_lost;
         annual_profit_lost := profit_lost;
         net_benefit := fsub freed profit_lost |}
  end.

Context `{NumberFormat}.

Definition sku_recommendation (z : zombie_row) : Recommendation :=
  let m := metrics_of z in
  {| rec_type := "discontinue_sku";
     rec_priority := Some "high";
     rec_action := "Discontinue SKU: " +:+ sku (base m);
     rec_impact := "Free $" +:+ fmt_money (Fin (working_capital m)) +:+ " capital";
     rec_details :=
       reason z +:+ " - Revenue: $" +:+ fmt_money (Fin (revenue (base m)))
       +:+ ", Profit: $" +:+ fmt_money (profit m);
     source_analysis := None |}.

Definition _generate_recommendations (zombies : frame zombie_row)
    (impact : financial_impact) : list Recommendation :=
  match frame_len zombies with
  | O => []
  | S _ =>
      {| rec_type := "discontinue";
         rec_priority := Some "high";
         rec_action :=
           "Discontinue " +:+ pretty (frame_len zombies) +:+ " zombie SKUs";
         rec_impact :=
           "Free $" +:+ fmt_money (working_capital_freed impact)
           +:+ " in working capital";
         rec_details :=
           "Bottom " +:+ pretty threshold_percentile
           +:+ "% of SKUs identified for discontinuation";
         source_analysis := None |}
      :: map sku_recommendation (take 10 (frame_rows zombies))
  end.

Definition analyze (sales_data : list SalesRecord)
    (inventory_data : list InventorySnapshot) (product_info : list ProductInfo)
  : result analysis :=
  let merged := _merge_data sales_data inventory_data product_info in
  let metrics := _calculate_metrics merged in
  zombies ← _identify_zombies metrics;
  let impact := _calculate_financial_impact zombies in
  let recommendations := _generate_recommendations zombies impact in
  Ok {| zombie_skus := zombies;
        metrics := metrics;
        impact := impact;
        recommendations := recommendations;
        analysis_summary :=
          {| total_zombies := frame_len zombies;
             capital_freed := working_capital_freed impact;
             bottom_percentile := threshold_percentile |} |}.
End Analyzer.

End SKURationalizationAnalyzer.

(** ** analyzers/contribution_margin.py *)

Module ContributionMarginAnalyzer.

Record sales_summary_row := {
  ss_sku : string;
  ss_revenue : Q;
  ss_units : Q;
  ss_fees : Q;
  ss_shipping_cost : Q;
  ss_returns : Q
}.

(** A row of [merged]; [cost_per_unit] after its [fillna(0)]. *)
Record merged_row := {
  sku : string;
  revenue : Q;
  units : Q;
  fees : Q;
  shipping_cost : Q;
  returns : Q;
  cost_per_unit : Q;
  product_name : option string
}.

Record margin_row := {
  base : merged_row;
  cogs : Q;
  return_cost : Q;
  total_costs : Q;
  contribution_margin : Q;
  contribution_margin_pct : Q;
  profit_per_unit : Q;
  total_profit : Q
}.

Record ranked_row := {
  margins_of : margin_row;
  rank : nat;
  profit_percentile : float;
  category : string
}.

Definition sales_summary (sales_data : list SalesRecord)
  : list sales_summary_row :=
  map (λ k,
    let g := filter (λ s, s_sku s = k) sales_data in
    {| ss_sku := k;
       ss_revenue := Qsum (map s_revenue g);
       ss_units := Qsum (map s_units g);
       ss_fees := Qsum (map s_fees g);
       ss_shipping_cost := Qsum (map s_shipping_cost g);
       ss_returns := Qsum (map s_returns g) |})
    (group_keys (map s_sku sales_data)).

Definition _merge_data (sales_data : list SalesRecord)
    (inventory_data : list InventorySnapshot) (product_info : list ProductInfo)
  : list merged_row :=
  let merged :=
    merge_left ss_sku i_sku (λ s i, (s, i))
      (sales_summary sales_data) inventory_data in
  merge_left (λ x, ss_sku x.1) p_sku
    (λ x p,
       let '(s, i) := x in
       {| sku := ss_sku s;
          revenue := ss_revenue s;
          units := ss_units s;
          fees := ss_fees s;
          shipping_cost := ss_shipping_cost s;
          returns := ss_returns s;
          cost_per_unit := from_option i_cost_per_unit 0%Q i;
          product_name := p_product_name <$> p |})
    merged product_info.

Definition margins_of_row (r : merged_row) : margin_row :=
  let cogs := (units r * cost_per_unit r)%Q in
  let return_cost := (returns r * (1 # 2))%Q in
  let total_costs := (fees r + shipping_cost r + cogs + return_cost)%Q in
  let contribution_margin := (revenue r - total_costs)%Q in
  {| base := r;
     cogs := cogs;
     return_cost := return_cost;
     total_costs := total_costs;
     contribution_margin := contribution_margin;
     contribution_margin_pct :=
       if Qlt_bool 0 (revenue r) then (contribution_margin / revenue r)%Q
       else 0%Q;
     profit_per_unit :=
       if Qlt_bool 0 (units r) then (contribution_margin / units r)%Q
       else 0%Q;
     total_profit := contribution_margin |}.

Definition _calculate_contribution_margins (merged : list merged_row)
  : list margin_row :=
  map margins_of_row merged.

Definition _categorize_product (margin : Q) (percentile : float) : string :=
  if Qlt_bool margin 0 then "money_loser"
  else if fgeb percentile (Fin (8 # 10)) then "top_performer"
  else if fgeb percentile (Fin (5 # 10)) then "solid_performer"
  else if fgeb percentile (Fin (2 # 10)) then "marginal"
  else "poor_performer".

Definition _rank_products (margins : list margin_row) : list ranked_row :=
  let ranked :=
    stable_sort
      (λ a b, Qle_bool (contribution_margin b) (contribution_margin a))
      margins in
  let column := map (λ m, Fin (contribution_margin m)) ranked in
  imap (λ i m,
    let pct := rank_pct_ascending column (Fin (contribution_margin m)) in
    {| margins_of := m;
       rank := S i;
       profit_percentile := pct;
       category := _categorize_product (contribution_margin m) pct |})
    ranked.

Definition _identify_money_losers (ranked : list ranked_row)
  : list ranked_row :=
  stable_sort
    (λ a b, Qle_bool (contribution_margin (margins_of a))
                     (contribution_margin (margins_of b)))
    (filter (λ r, Qlt_bool (contribution_margin (margins_of r)) 0 = true)
            ranked).

(** An entry of [insights]. *)
Record Insight := {
  insight_type : string;
  title : string;
  description : string;
  insight_impact : string;
  action : string
}.

(** [total_profit] and [total_losses] are the float sums of a column, taken
    in the order of its rows. *)
Record summary := {
  total_skus : nat;
  profitable_skus : nat;
  losing_skus : nat;
  summary_total_profit : float;
  total_losses : float
}.

Record analysis := {
  ranked_products : list ranked_row;
  money_losers : list ranked_row;
  insights : list Insight;
  analysis_summary : summary
}.

(** The format [{:.1f}] of the insight texts: presentation only. *)
Class PercentFormat := {
  fmt_fixed1 : float → string
}.

(** The double quote of the text of the third insight. *)
Definition quote : string := String (Ascii.ascii_of_nat 34) EmptyString.

Section Insights.
Context `{NumberFormat} `{PercentFormat}.

Definition _generate_insights (ranked losers : list ranked_row)
  : list Insight :=
  let margin (r : ranked_row) := contribution_margin (margins_of r) in
  let top_30 := take 30 ranked in
  let top_30_profit := Qsum (map margin top_30) in
  let total_profit := Qsum (map margin ranked) in
  let focus :=
    if bool_decide (30 < length ranked) then
      let top_30_pct :=
        if Qlt_bool 0 total_profit
        then (top_30_profit / total_profit * 100)%Q else 0%Q in
      [{| insight_type := "focus_opportunity";
          title := "Focus on Top 30 SKUs";
          description :=
            "Top 30 SKUs generate " +:+ fmt_fixed1 (Fin top_30_pct)
            +:+ "% of total profit";
          insight_impact :=
            "Potential to increase profit by focusing marketing on these SKUs";
          action := "Prioritize marketing and inventory for top 30 SKUs" |}]
    else [] in
  let losing :=
    if bool_decide (0 < length losers) then
      let total_loss := Qsum (map margin losers) in
      [{| insight_type := "warning";
          title := pretty (length losers) +:+ " SKUs Losing Money";
          description := "These SKUs have negative contribution margins";
          insight_impact :=
            "Total losses: $" +:+ fmt_money (Fin (Qabs total_loss));
          action := "Review pricing, costs, or discontinue these SKUs" |}]
    else [] in
  let revenue_of (r : ranked_row) := revenue (base (margins_of r)) in
  let threshold :=
    quantile_linear (map (λ r, Fin (revenue_of r)) ranked) (7 # 10) in
  let high_revenue_low_profit :=
    filter (λ r, fgtb (Fin (revenue_of r)) threshold
                 && Qlt_bool (contribution_margin_pct (margins_of r)) (1 # 10)
                 = true) ranked in
  let low_profit :=
    if bool_decide (0 < length high_revenue_low_profit) then
      [{| insight_type := "warning";
          title := "High Revenue, Low Profit SKUs";
          description :=
            pretty (length high_revenue_low_profit)
            +:+ " SKUs have high revenue but low margins";
          insight_impact :=
            "These " +:+ quote +:+ "bestsellers" +:+ quote
            +:+ " may not be as profitable as they appear";
          action := "Review pricing strategy or reduce costs for these SKUs" |}]
    else [] in
  focus ++ losing ++ low_profit.

Definition analyze (sales_data : list SalesRecord)
    (inventory_data : list InventorySnapshot) (product_info : list ProductInfo)
  : analysis :=
  let merged := _merge_data sales_data inventory_data product_info in
  let margins := _calculate_contribution_margins merged in
  let ranked := _rank_products margins in
  let losers := _identify_money_losers ranked in
  let insights := _generate_insights ranked losers in
  {| ranked_products := ranked;
     money_losers := losers;
     insights := insights;
     analysis_summary :=
       {| total_skus := length ranked;
          profitable_skus :=
            length (filter (λ r, Qlt_bool 0 (contribution_margin (margins_of r))
                                 = true) ranked);
          losing_skus := length losers;
          summary_total_profit :=
            Fin (Qsum (map (λ r, total_profit (margins_of r)) ranked));
          total_losses :=
            if bool_decide (0 < length losers)
            then Fin (Qsum (map (λ r, total_profit (margins_of r)) losers))
            else Fin 0 |} |}.
End Insights.

End ContributionMarginAnalyzer.

(** ** analyzers/slow_mover_detection.py *)

Module SlowMoverAnalyzer.

Record sales_summary_row := {
  ss_sku : string;
  ss_units : Q;
  ss_revenue : Q
}.

(** A row of [merged] after the [fillna]s; [revenue] is not filled. *)
Record merged_row := {
  sku : string;
  units : Q;
  revenue : float;
  sales_period_days : float;
  quantity_on_hand : Q;
  cost_per_unit : Q;
  product_name : option string
}.

Record velocity_row := {
  base : merged_row;
  units_per_day : float;
  revenue_per_day : float;
  inventory_turnover : Q
}.

Record supply_row := {
  velocity_of : velocity_row;
  days_of_supply : float;
  inventory_value : Q;
  inventory_age_category : string
}.

Record slow_mover_row := {
  supply_of : supply_row;
  urgency : string
}.

(** [max((date.max() - date.min()).days, 1)]; [NaT] dates are skipped by
    [max] and [min], and with no date left the difference is [NaT], whose
    [.days] is NaN. *)
Definition date_range (sales_data : list SalesRecord) : float :=
  match omap s_date sales_data with
  | [] => NaN
  | d :: ds =>
      let latest := foldr Z.max d ds in
      let earliest := foldr Z.min d ds in
      py_max (Fin (inject_Z ((latest - earliest) `div` seconds_per_day))) (Fin 1)
  end.

Definition sales_summary (sales_data : list SalesRecord)
  : list sales_summary_row :=
  map (λ k,
    let g := filter (λ s, s_sku s = k) sales_data in
    {| ss_sku := k;
       ss_units := Qsum (map s_units g);
       ss_revenue := Qsum (map s_revenue g) |})
    (group_keys (map s_sku sales_data)).

Definition _merge_data (sales_data : list SalesRecord)
    (inventory_data : list InventorySnapshot) (product_info : list ProductInfo)
  : list merged_row :=
  let merged :=
    merge_outer ss_sku i_sku
      (λ s i, (from_option ss_sku (from_option i_sku ""%string i) s, s, i))
      (sales_summary sales_data) inventory_data in
  merge_left (λ x, x.1.1) p_sku
    (λ x p,
       let '(k, s, i) := x in
       {| sku := k;
          units := from_option ss_units 0%Q s;
          revenue := from_option (λ r, Fin (ss_revenue r)) NaN s;
          sales_period_days := date_range sales_data;
          quantity_on_hand := from_option i_quantity_on_hand 0%Q i;
          cost_per_unit := from_option i_cost_per_unit 0%Q i;
          product_name := p_product_name <$> p |})
    merged product_info.

Definition _calculate_velocity (merged : list merged_row) : list velocity_row :=
  map (λ r,
    {| base := r;
       units_per_day :=
         if fgtb (sales_period_days r) (Fin 0)
         then fdiv (Fin (units r)) (sales_period_days r) else Fin 0;
       revenue_per_day :=
         if fgtb (sales_period_days r) (Fin 0)
         then fdiv (revenue r) (sales_period_days r) else Fin 0;
       inventory_turnover :=
         if Qlt_bool 0 (quantity_on_hand r)
         then (units r / quantity_on_hand r)%Q else 0%Q |})
    merged.

Section Analyzer.
Variable days_threshold : Z.

Definition threshold : float := Fin (inject_Z days_threshold).

Definition _categorize_age (days : float) : string :=
  if isinf days || feqb days (Fin 0) then "no_sales"
  else if fgeb days threshold then "critical"
  else if fgeb days (Fin 90) then "slow"
  else if fgeb days (Fin 30) then "normal"
  else "fast".

Definition _calculate_days_of_supply (velocity : list velocity_row)
  : list supply_row :=
  map (λ v,
    let days :=
      if fgtb (units_per_day v) (Fin 0)
      then fdiv (Fin (quantity_on_hand (base v))) (units_per_day v)
      else PInf in
    {| velocity_of := v;
       days_of_supply := days;
       inventory_value :=
         (quantity_on_hand (base v) * cost_per_unit (base v))%Q;
       inventory_age_category := _categorize_age days |})
    velocity.

Definition _get_urgency (days : float) : string :=
  if isinf days then "critical"
  else if fgeb days (Fin 365) then "critical"
  else if fgeb days threshold then "high"
  else "medium".

Definition _identify_slow_movers (days_supply : list supply_row)
  : list slow_mover_row :=
  let slow_movers :=
    filter (λ r, fgeb (days_of_supply r) threshold
                 || feqb (days_of_supply r) PInf = true) days_supply in
  let slow_movers :=
    stable_sort (λ a b, fgeb (days_of_supply a) (days_of_supply b))
                slow_movers in
  map (λ r, {| supply_of := r; urgency := _get_urgency (days_of_supply r) |})
      slow_movers.
End Analyzer.

Record summary := {
  total_skus_analyzed : nat;
  slow_movers_count : nat;
  total_slow_inventory_value : Q;
  threshold_days : Z
}.

Record analysis := {
  velocity_analysis : list supply_row;
  slow_movers : list slow_mover_row;
  recommendations : list Recommendation;
  analysis_summary : summary
}.

(** The body of a [for] loop that may raise, run over a list. *)
Fixpoint for_each {A B} (body : A → result B) (l : list A) : result (list B) :=
  match l with
  | [] => Ok []
  | x :: l' => y ← body x; ys ← for_each body l'; Ok (y :: ys)
  end.

(** ["No sales" if np.isinf(days) else f"{int(days)} days"]: [int]
    truncates towards zero and raises [ValueError] on NaN. *)
Definition days_str (days : float) : result string :=
  match days with
  | PInf | NInf => Ok "No sales"%string
  | Fin q =>
      Ok (pretty (if Qlt_bool q 0 then Qceiling q else Qfloor q) +:+ " days")
  | NaN => Raise (ValueError "cannot convert float NaN to integer")
  end.

Section Report.
Variable days_threshold : Z.
Context `{NumberFormat}.

Definition sku_recommendation (row : slow_mover_row) : result Recommendation :=
  let r := supply_of row in
  text ← days_str (days_of_supply r);
  Ok {| rec_type := "sku_action";
        rec_priority := Some (urgency row);
        rec_action :=
          "SKU " +:+ sku (base (velocity_of r)) +:+ ": " +:+ text
          +:+ " of inventory";
        rec_impact := "$" +:+ fmt_money (Fin (inventory_value r)) +:+ " tied up";
        rec_details :=
          "Current velocity: " +:+ fmt_fixed2 (units_per_day (velocity_of r))
          +:+ " units/day";
        source_analysis := None |}.

Definition _generate_recommendations (slow_movers : list slow_mover_row)
  : result (list Recommendation) :=
  match slow_movers with
  | [] => Ok []
  | _ =>
      let value (r : slow_mover_row) := inventory_value (supply_of r) in
      let critical :=
        filter (λ r, urgency r = "critical"%string) slow_movers in
      let urgent :=
        if bool_decide (0 < length critical) then
          [{| rec_type := "markdown_urgent";
              rec_priority := Some "critical"%string;
              rec_action :=
                "Immediate markdown needed for " +:+ pretty (length critical)
                +:+ " SKUs";
              rec_impact :=
                "$" +:+ fmt_money (Fin (Qsum (map value critical)))
                +:+ " in dead inventory";
              rec_details :=
                "These SKUs have no sales or >365 days of inventory";
              source_analysis := None |}]
        else [] in
      let high_priority :=
        filter (λ r, urgency r = "high"%string
                     ∧ fgeb (days_of_supply (supply_of r))
                            (threshold days_threshold) = true) slow_movers in
      let markdown :=
        if bool_decide (0 < length high_priority) then
          [{| rec_type := "markdown";
              rec_priority := Some "high"%string;
              rec_action :=
                "Markdown " +:+ pretty (length high_priority)
                +:+ " slow-moving SKUs";
              rec_impact :=
                "$" +:+ fmt_money (Fin (Qsum (map value high_priority)))
                +:+ " in slow inventory";
              rec_details :=
                "These SKUs have " +:+ pretty days_threshold
                +:+ "+ days of inventory";
              source_analysis := None |}]
        else [] in
      per_sku ← for_each sku_recommendation (take 10 slow_movers);
      Ok (urgent ++ markdown ++ per_sku)
  end.

Definition analyze (sales_data : list SalesRecord)
    (inventory_data : list InventorySnapshot) (product_info : list ProductInfo)
  : result analysis :=
  let merged := _merge_data sales_data inventory_data product_info in
  let velocity := _calculate_velocity merged in
  let days_supply := _calculate_days_of_supply days_threshold velocity in
  let slow_movers := _identify_slow_movers days_threshold days_supply in
  recommendations ← _generate_recommendations slow_movers;
  Ok {| velocity_analysis := days_supply;
        slow_movers := slow_movers;
        recommendations := recommendations;
        analysis_summary :=
          {| total_skus_analyzed := length days_supply;
             slow_movers_count := length slow_movers;
             total_slow_inventory_value :=
               if bool_decide (0 < length slow_movers)
               then Qsum (map (λ r, inventory_value (supply_of r)) slow_movers)
               else 0%Q;
             threshold_days := days_threshold |} |}.
End Report.

End SlowMoverAnalyzer.

(** ** analyzers/new_product_scoring.py *)

Module NewProductScoringAnalyzer.

Record new_product := {
  info : ProductInfo;
  days_since_launch : option Z
}.

Record bench := {
  revenue_p50 : float;
  revenue_p75 : float;
  revenue_p90 : float;
  units_p50 : float;
  units_p75 : float;
  units_p90 : float
}.

(** A row of a per-window aggregate ([window_summary]); the [window]
    column is the one [_score_new_products] adds. *)
Record window_row := {
  w_sku : string;
  w_revenue : Q;
  w_units : Q;
  w_window : Z
}.

(** The four entries of [sku_scores] for one window
    ([{window}_revenue], [{window}_units], [{window}_revenue_score],
    [{window}_units_score]). *)
Record window_entry := {
  e_revenue : Q;
  e_units : Q;
  e_revenue_score : float;
  e_units_score : float
}.

Record sku_scores := {
  sc_sku : string;
  sc_windows : gmap Z window_entry;
  sc_overall_score : float
}.

Record score_row := {
  product : new_product;
  scores_of : option sku_scores;
  overall_score : float;
  performance_category : string
}.

Record summary := {
  new_products_count : nat;
  underperformers_count : nat;
  winners_count : nat
}.

(** [underperformers] is [None] in the early return, whose dict has no
    such key. *)
Record analysis := {
  new_products : list new_product;
  benchmarks : gmap Z bench;
  scores : list score_row;
  underperformers : option (list score_row);
  recommendations : list Recommendation;
  analysis_summary : summary
}.

(** [(days_since_launch >= 0) & (days_since_launch <= window)] *)
Definition in_window (window : Z) (days : option Z) : bool :=
  match days with
  | Some d => bool_decide (0 ≤ d ∧ d ≤ window)%Z
  | None => false
  end.

(** [window_data.groupby('sku').agg({'revenue': 'sum', 'units': 'sum'})]
    over the sales of the window. *)
Definition window_summary (window : Z)
    (merged : list (SalesRecord * option Z)) : list window_row :=
  let window_data := filter (λ x, in_window window x.2 = true) merged in
  map (λ k,
    let g := filter (λ x, s_sku x.1 = k) window_data in
    {| w_sku := k;
       w_revenue := Qsum (map (λ x, s_revenue x.1) g);
       w_units := Qsum (map (λ x, s_units x.1) g);
       w_window := window |})
    (group_keys (map (λ x, s_sku x.1) window_data)).

(** [np.mean] of a list *)
Definition np_mean (l : list float) : float :=
  fdiv (foldr fadd (Fin 0) l) (Fin (Qnat (length l))).

Definition _categorize_performance (score : float) : string :=
  if isna score then "insufficient_data"
  else if fgeb score (Fin (8 # 10)) then "winner"
  else if fgeb score (Fin (6 # 10)) then "solid"
  else if fgeb score (Fin (4 # 10)) then "underperforming"
  else "poor".

(** The score of one quantity against its benchmarks:
    [min(x / p75, 1.0) if p75 > 0 else 0] under [if p50 > 0], else [0]. *)
Definition score_against (x : Q) (p50 p75 : float) : float :=
  if fgtb p50 (Fin 0) then
    if fgtb p75 (Fin 0) then py_min (fdiv (Fin x) p75) (Fin 1) else Fin 0
  else Fin 0.

(** The body of the loop over the windows, for one sku. *)
Definition score_window (all_window_scores : list window_row)
    (benchmarks : gmap Z bench) (sku : string) (window : Z) : window_entry :=
  match filter (λ r, w_sku r = sku ∧ w_window r = window) all_window_scores with
  | r :: _ =>
      let bench := benchmarks !! window in
      let p50 := from_option revenue_p50 (Fin 0) bench in
      let p75 := from_option revenue_p75 (Fin 0) bench in
      let u50 := from_option units_p50 (Fin 0) bench in
      let u75 := from_option units_p75 (Fin 0) bench in
      {| e_revenue := w_revenue r;
         e_units := w_units r;
         e_revenue_score := score_against (w_revenue r) p50 p75;
         e_units_score := score_against (w_units r) u50 u75 |}
  | [] =>
      {| e_revenue := 0; e_units := 0;
         e_revenue_score := Fin 0; e_units_score := Fin 0 |}
  end.

(** [launch_date >= cutoff_date]; false for [NaT]. *)
Definition launched_since (cutoff_date : Z) (p : ProductInfo) : bool :=
  match p_launch_date p with
  | Some l => bool_decide (cutoff_date ≤ l)%Z
  | None => false
  end.

Section Analyzer.
Variable analysis_windows : list Z.

Definition _identify_new_products (product_info : list ProductInfo)
    (current_date : Z) : result (list new_product) :=
  match analysis_windows with
  | [] => Raise (ValueError "max() arg is an empty sequence")
  | w :: ws =>
      let max_window := foldr Z.max w ws in
      let cutoff_date := (current_date - max_window * seconds_per_day)%Z in
      Ok (map (λ p, {| info := p;
                       days_since_launch :=
                         days_between (Some current_date) (p_launch_date p) |})
              (filter (λ p, launched_since cutoff_date p = true) product_info))
  end.

Definition _calculate_benchmarks (sales_data : list SalesRecord)
    (product_info : list ProductInfo) : gmap Z bench :=
  let merged :=
    merge_left s_sku p_sku
      (λ s p, (s, days_between (s_date s) (p ≫= p_launch_date)))
      sales_data product_info in
  foldl (λ benchmarks window,
    let window_summary := window_summary window merged in
    let revenue := map (λ r, Fin (w_revenue r)) window_summary in
    let units := map (λ r, Fin (w_units r)) window_summary in
    <[window :=
        {| revenue_p50 := quantile_linear revenue (50 # 100);
           revenue_p75 := quantile_linear revenue (75 # 100);
           revenue_p90 := quantile_linear revenue (90 # 100);
           units_p50 := quantile_linear units (50 # 100);
           units_p75 := quantile_linear units (75 # 100);
           units_p90 := quantile_linear units (90 # 100) |}]> benchmarks)
    ∅ analysis_windows.

Definition all_window_scores (new_products : list new_product)
    (sales_data : list SalesRecord) : list window_row :=
  let merged :=
    merge_left s_sku (λ n, p_sku (info n))
      (λ s n, (s, days_between (s_date s) (n ≫= λ n, p_launch_date (info n))))
      sales_data new_products in
  flat_map (λ window, window_summary window merged) analysis_windows.

Definition score_sku (all_window_scores : list window_row)
    (benchmarks : gmap Z bench) (sku : string) : sku_scores :=
  let entries :=
    foldl (λ d window,
             <[window := score_window all_window_scores benchmarks sku window]> d)
          ∅ analysis_windows in
  let revenue_scores :=
    map (λ w, from_option e_revenue_score (Fin 0) (entries !! w))
        analysis_windows in
  let units_scores :=
    map (λ w, from_option e_units_score (Fin 0) (entries !! w))
        analysis_windows in
  {| sc_sku := sku;
     sc_windows := entries;
     sc_overall_score :=
       fadd (fmul (np_mean revenue_scores) (Fin (6 # 10)))
            (fmul (np_mean units_scores) (Fin (4 # 10))) |}.

Definition _score_new_products (new_products : list new_product)
    (sales_data : list SalesRecord) (benchmarks : gmap Z bench)
  : list score_row :=
  let all := all_window_scores new_products sales_data in
  let scores_df :=
    map (score_sku all benchmarks)
        (unique (map (λ n, p_sku (info n)) new_products)) in
  merge_left (λ n, p_sku (info n)) sc_sku
    (λ n s,
       let overall := from_option sc_overall_score NaN s in
       {| product := n;
          scores_of := s;
          overall_score := overall;
          performance_category := _categorize_performance overall |})
    new_products scores_df.

Definition _identify_underperformers (scores : list score_row)
  : list score_row :=
  stable_sort (λ a b, fleb (overall_score a) (overall_score b))
    (filter (λ r, performance_category r = "underperforming"
                  ∨ performance_category r = "poor") scores).

Context `{NumberFormat}.

Definition product_recommendation (names : gmap string string)
    (row : score_row) : Recommendation :=
  let sku := p_sku (info (product row)) in
  {| rec_type := "new_product_action";
     rec_priority :=
       Some (if fltb (overall_score row) (Fin (3 # 10)) then "high"
             else "medium");
     rec_action :=
       "SKU " +:+ sku +:+ " (" +:+ default sku (names !! sku)
       +:+ "): Score " +:+ fmt_fixed2 (overall_score row);
     rec_impact := "Review marketing strategy or consider discontinuation";
     rec_details :=
       "Performance category: " +:+ performance_category row;
     source_analysis := None |}.

Definition _generate_recommendations (scores underperformers : list score_row)
    (product_info : list ProductInfo) : list Recommendation :=
  let winners :=
    filter (λ r, performance_category r = "winner") scores in
  (match winners with
   | [] => []
   | _ =>
       [{| rec_type := "success";
           rec_priority := Some "low";
           rec_action :=
             pretty (length winners) +:+ " new products performing well";
           rec_impact :=
             "Consider increasing inventory and marketing for these winners";
           rec_details :=
             "These products are meeting or exceeding historical benchmarks";
           source_analysis := None |}]
   end)
  ++
  (match underperformers with
   | [] => []
   | _ =>
       {| rec_type := "warning";
          rec_priority := Some "high";
          rec_action :=
            pretty (length underperformers)
            +:+ " new products underperforming";
          rec_impact :=
            "Early intervention needed - increase marketing or cut losses";
          rec_details := "These products are below historical benchmarks";
          source_analysis := None |}
       :: map (product_recommendation (product_names product_info))
              (take 10 underperformers)
   end).

Definition analyze (sales_data : list SalesRecord)
    (product_info : list ProductInfo) (current_date : Z) : result analysis :=
  new_products ← _identify_new_products product_info current_date;
  match new_products with
  | [] =>
      Ok {| new_products := []; benchmarks := ∅; scores := [];
            underperformers := None; recommendations := [];
            analysis_summary :=
              {| new_products_count := 0; underperformers_count := 0;
                 winners_count := 0 |} |}
  | _ =>
      let benchmarks := _calculate_benchmarks sales_data product_info in
      let scores := _score_new_products new_products sales_data benchmarks in
      let underperformers := _identify_underperformers scores in
      Ok {| new_products := new_products;
            benchmarks := benchmarks;
            scores := scores;
            underperformers := Some underperformers;
            recommendations :=
              _generate_recommendations scores underperformers product_info;
            analysis_summary :=
              {| new_products_count := length new_products;
                 underperformers_count := length underperformers;
                 winners_count :=
                   length (filter (λ r, fgeb (overall_score r) (Fin (7 # 10))
                                        = true) scores) |} |}
  end.
End Analyzer.

End NewProductScoringAnalyzer.

(** ** orchestrator.py *)

Module PerformanceOptimizer.

Inductive Status := green | yellow | red.

#[global] Instance Status_eq_dec : EqDecision Status.
Proof. solve_decision. Defined.

Record StatusEntry := {
  entry_sku : string;
  status : Status;
  issues : list string;
  recommendations : list Recommendation
}.

(** [results.items()] as [_consolidate_recommendations] reads it: the
    entries in insertion order, each with its ['recommendations'] list, or
    [None] for a value that is not a dict or has no such key. *)
Definition result_items : Type := list (string * option (list Recommendation)).

(** [results] as [_generate_traffic_light_status] reads it: the [sku]
    column of every DataFrame value that has one; then, for each analysis
    it looks up ([None] when the key is absent from [results]), the [sku]s
    of the rows of the table it iterates (with their [urgency] for the slow
    movers), empty when the table is the [pd.DataFrame()] default. *)
Record results := {
  sku_columns : list (list string);
  sku_rationalization : option (list string);
  contribution_margin : option (list string);
  slow_mover_detection : option (list (string * string));
  new_product_scoring : option (list string);
  consolidated_recommendations : list Recommendation
}.

Definition priority_order : gmap string nat :=
  <["critical" := 0]> (<["high" := 1]> (<["medium" := 2]> (<["low" := 3]> ∅))).

(** [priority_order.get(x.get('priority', 'low'), 3)] *)
Definition priority_key (x : Recommendation) : nat :=
  default 3 (priority_order !! default "low"%string (rec_priority x)).

Definition tag (analysis_name : string) (rec : Recommendation) : Recommendation :=
  {| rec_type := rec_type rec;
     rec_priority := rec_priority rec;
     rec_action := rec_action rec;
     rec_impact := rec_impact rec;
     rec_details := rec_details rec;
     source_analysis := Some analysis_name |}.

(** The list before the sort: every recommendation in emission order. *)
Definition all_recommendations (items : result_items) : list Recommendation :=
  flat_map (λ item,
    match item.2 with
    | Some recs => map (tag item.1) recs
    | None => []
    end) items.

Definition _consolidate_recommendations (items : result_items)
  : list Recommendation :=
  stable_sort (λ a b, priority_key a <=? priority_key b)
              (all_recommendations items).

Definition set_status (s : Status) (e : StatusEntry) : StatusEntry :=
  {| entry_sku := entry_sku e; status := s; issues := issues e;
     recommendations := recommendations e |}.

Definition add_issue (issue : string) (e : StatusEntry) : StatusEntry :=
  {| entry_sku := entry_sku e; status := status e;
     issues := issues e ++ [issue];
     recommendations := recommendations e |}.

Definition add_recommendation (rec : Recommendation) (e : StatusEntry)
  : StatusEntry :=
  {| entry_sku := entry_sku e; status := status e; issues := issues e;
     recommendations := recommendations e ++ [rec] |}.

(** The bodies of the four loops over the rows. *)
Definition mark_zombie (status_map : gmap string StatusEntry) (sku : string)
  : gmap string StatusEntry :=
  match status_map !! sku with
  | Some e => <[sku := add_issue "Zombie product" (set_status red e)]> status_map
  | None => status_map
  end.

Definition mark_money_loser (status_map : gmap string StatusEntry)
    (sku : string) : gmap string StatusEntry :=
  match status_map !! sku with
  | Some e =>
      let e := if decide (status e ≠ red) then set_status yellow e else e in
      <[sku := add_issue "Losing money" e]> status_map
  | None => status_map
  end.

Definition mark_critical_slow_mover (status_map : gmap string StatusEntry)
    (sku : string) : gmap string StatusEntry :=
  match status_map !! sku with
  | Some e =>
      <[sku := add_issue "Critical slow mover" (set_status red e)]> status_map
  | None => status_map
  end.

Definition mark_underperformer (status_map : gmap string StatusEntry)
    (sku : string) : gmap string StatusEntry :=
  match status_map !! sku with
  | Some e =>
      if decide (status e = green)
      then <[sku := add_issue "Underperforming new product"
                      (set_status yellow e)]> status_map
      else status_map
  | None => status_map
  end.

(** [str.lower] on ASCII letters, and [needle in haystack]. *)
Definition lower_ascii (c : ascii) : ascii :=
  let n := nat_of_ascii c in
  if (65 <=? n) && (n <=? 90) then ascii_of_nat (n + 32) else c.

Fixpoint lower (s : string) : string :=
  match s with
  | EmptyString => EmptyString
  | String c s' => String (lower_ascii c) (lower s')
  end.

Definition contains (haystack needle : string) : bool :=
  match String.index 0 needle haystack with
  | Some _ => true
  | None => false
  end.

Definition attach_recommendation (all_skus : gset string)
    (status_map : gmap string StatusEntry) (rec : Recommendation)
  : gmap string StatusEntry :=
  if contains (lower (rec_action rec)) "sku" then
    set_fold (λ sku m,
                if contains (rec_action rec) sku
                then alter (add_recommendation rec) sku m else m)
             status_map all_skus
  else status_map.

Definition initial_entry (sku : string) : StatusEntry :=
  {| entry_sku := sku; status := green; issues := []; recommendations := [] |}.

Definition all_skus (r : results) : gset string :=
  ⋃ (list_to_set <$> sku_columns r).

Definition initial_status_map (r : results) : gmap string StatusEntry :=
  set_to_map (λ sku, (sku, initial_entry sku)) (all_skus r).

Definition critical_slow_movers (r : results) : list string :=
  (filter (λ row, row.2 = "critical"%string)
          (default [] (slow_mover_detection r))).*1.

(** The status map after the four rule loops. *)
Definition apply_status_rules (r : results) : gmap string StatusEntry :=
  let status_map := initial_status_map r in
  let status_map :=
    foldl mark_zombie status_map (default [] (sku_rationalization r)) in
  let status_map :=
    foldl mark_money_loser status_map (default [] (contribution_margin r)) in
  let status_map :=
    foldl mark_critical_slow_mover status_map (critical_slow_movers r) in
  foldl mark_underperformer status_map (default [] (new_product_scoring r)).

Definition _generate_traffic_light_status (r : results)
  : gmap string StatusEntry :=
  foldl (attach_recommendation (all_skus r)) (apply_status_rules r)
        (consolidated_recommendations r).

(** The vocabulary of the status rules: the severity order
    [red > yellow > green], the four rules as data, what each does to the
    status of the sku it is applied to, and the applications that
    [apply_status_rules] performs, in its order. *)
Definition severity (s : Status) : nat :=
  match s with green => 0 | yellow => 1 | red => 2 end.

Inductive rule := Zombie | MoneyLoser | CriticalSlowMover | Underperformer.

Definition escalate (r : rule) (s : Status) : Status :=
  match r with
  | Zombie | CriticalSlowMover => red
  | MoneyLoser => if decide (s ≠ red) then yellow else s
  | Underperformer => if decide (s = green) then yellow else s
  end.

Definition apply_rule (status_map : gmap string StatusEntry)
    (a : rule * string) : gmap string StatusEntry :=
  match a.1 with
  | Zombie => mark_zombie status_map a.2
  | MoneyLoser => mark_money_loser status_map a.2
  | CriticalSlowMover => mark_critical_slow_mover status_map a.2
  | Underperformer => mark_underperformer status_map a.2
  end.

Definition rule_applications (r : results) : list (rule * string) :=
  (pair Zombie <$> default [] (sku_rationalization r))
  ++ (pair MoneyLoser <$> default [] (contribution_margin r))
  ++ (pair CriticalSlowMover <$> critical_slow_movers r)
  ++ (pair Underperformer <$> default [] (new_product_scoring r)).

Definition status_at (status_map : gmap string StatusEntry) (sku : string)
  : option Status :=
  status <$> status_map !! sku.

(** The effect of one application on the status of [sku]. *)
Definition escalate_at (sku : string) (s : Status) (a : rule * string) : Status :=
  if decide (a.2 = sku) then escalate a.1 s else s.

End PerformanceOptimizer.

(** ** Concrete inputs

    Small tables used to run the code of the analyzers: the scenarios of the
    specification and the inputs on which a property is exercised. *)

Module Scenarios.

Definition sale (sku : string) (day : Z) (revenue units : Q) : SalesRecord :=
  {| s_sku := sku; s_date := Some (day * seconds_per_day)%Z;
     s_revenue := revenue; s_units := units;
     s_fees := 0; s_shipping_cost := 0; s_returns := 0 |}.

Definition purchase (customer sku : string) : PurchaseEvent :=
  {| pe_customer_id := customer; pe_sku := sku |}.

(** Two skus bought by the same two customers, with revenues 1000 and 400. *)
Definition same_buyers : list PurchaseEvent :=
  [purchase "c1" "A"; purchase "c1" "B"; purchase "c2" "B"; purchase "c2" "A"].

Definition same_buyers_sales : list SalesRecord :=
  [sale "B" 1 400 4; sale "A" 1 600 6; sale "A" 2 400 4].

Definition same_buyers_pair : CannibalizationAnalyzer.pair_row :=
  {| CannibalizationAnalyzer.base :=
       {| CannibalizationAnalyzer.sku1 := "A"; CannibalizationAnalyzer.sku2 := "B";
          CannibalizationAnalyzer.customers_sku1 := 2;
          CannibalizationAnalyzer.customers_sku2 := 2;
          CannibalizationAnalyzer.overlap_count := 2;
          CannibalizationAnalyzer.overlap_pct := 2 # 2 |};
     CannibalizationAnalyzer.revenue1 := Fin 1000;
     CannibalizationAnalyzer.units1 := Fin 10;
     CannibalizationAnalyzer.revenue2 := Fin 400;
     CannibalizationAnalyzer.units2 := Fin 4;
     CannibalizationAnalyzer.stronger_sku := "A";
     CannibalizationAnalyzer.weaker_sku := "B";
     CannibalizationAnalyzer.revenue_at_risk := Some (Fin 400) |}.

(** Two skus bought by the same two customers, of which only A has sales
    records (600 + 400); the second list has the purchases of C first. *)
Definition unsold_second : list PurchaseEvent :=
  [purchase "c1" "A"; purchase "c1" "C"; purchase "c2" "C"; purchase "c2" "A"].

Definition unsold_first : list PurchaseEvent :=
  [purchase "c1" "C"; purchase "c1" "A"; purchase "c2" "A"; purchase "c2" "C"].

Definition seller_sales : list SalesRecord :=
  [sale "A" 1 600 6; sale "A" 2 400 4].

(** The same two skus with equal revenues. *)
Definition tied_sales : list SalesRecord :=
  [sale "B" 1 500 4; sale "A" 1 500 6].

Definition tied_pair : CannibalizationAnalyzer.pair_row :=
  {| CannibalizationAnalyzer.base :=
       {| CannibalizationAnalyzer.sku1 := "A"; CannibalizationAnalyzer.sku2 := "B";
          CannibalizationAnalyzer.customers_sku1 := 2;
          CannibalizationAnalyzer.customers_sku2 := 2;
          CannibalizationAnalyzer.overlap_count := 2;
          CannibalizationAnalyzer.overlap_pct := 2 # 2 |};
     CannibalizationAnalyzer.revenue1 := Fin 500;
     CannibalizationAnalyzer.units1 := Fin 6;
     CannibalizationAnalyzer.revenue2 := Fin 500;
     CannibalizationAnalyzer.units2 := Fin 4;
     CannibalizationAnalyzer.stronger_sku := "A";
     CannibalizationAnalyzer.weaker_sku := "B";
     CannibalizationAnalyzer.revenue_at_risk := None |}.

(** Two products that differ in revenue only (1000 against 400). *)
Definition two_products : list SalesRecord :=
  [sale "A" 1 1000 10; sale "B" 1 400 10].

(** Three active products with composite scores 1/5, 1/2 and 4/5. *)
Definition scored (sku : string) (score : Q) : SKURationalizationAnalyzer.metrics_row :=
  {| SKURationalizationAnalyzer.base :=
       {| SKURationalizationAnalyzer.sku := sku;
          SKURationalizationAnalyzer.revenue := 100;
          SKURationalizationAnalyzer.units := 10;
          SKURationalizationAnalyzer.fees := Fin 0;
          SKURationalizationAnalyzer.shipping_cost := Fin 0;
          SKURationalizationAnalyzer.quantity_on_hand := 1;
          SKURationalizationAnalyzer.cost_per_unit := 1;
          SKURationalizationAnalyzer.product_name := None |};
     SKURationalizationAnalyzer.profit := Fin 100;
     SKURationalizationAnalyzer.profit_margin := Fin 1;
     SKURationalizationAnalyzer.working_capital := 1;
     SKURationalizationAnalyzer.revenue_per_unit := 10;
     SKURationalizationAnalyzer.velocity_score := 10;
     SKURationalizationAnalyzer.composite_score := Fin score |}.

Definition three_scores : list SKURationalizationAnalyzer.metrics_row :=
  [scored "A" (1 # 5); scored "B" (1 # 2); scored "C" (4 # 5)].

(** One sku sold twice, with fees, shipping and returns, and its unit cost. *)
Definition margin_sales : list SalesRecord :=
  [{| s_sku := "A"; s_date := Some 0%Z; s_revenue := 600; s_units := 6;
      s_fees := 60; s_shipping_cost := 30; s_returns := 40 |};
   {| s_sku := "A"; s_date := Some seconds_per_day; s_revenue := 400;
      s_units := 4; s_fees := 40; s_shipping_cost := 20; s_returns := 0 |}].

Definition margin_inventory : list InventorySnapshot :=
  [{| i_sku := "A"; i_quantity_on_hand := 5; i_cost_per_unit := 30 |}].

Definition margin_row_A : ContributionMarginAnalyzer.margin_row :=
  {| ContributionMarginAnalyzer.base :=
       {| ContributionMarginAnalyzer.sku := "A";
          ContributionMarginAnalyzer.revenue := 1000;
          ContributionMarginAnalyzer.units := 10;
          ContributionMarginAnalyzer.fees := 100;
          ContributionMarginAnalyzer.shipping_cost := 50;
          ContributionMarginAnalyzer.returns := 40;
          ContributionMarginAnalyzer.cost_per_unit := 30;
          ContributionMarginAnalyzer.product_name := None |};
     ContributionMarginAnalyzer.cogs := 300;
     ContributionMarginAnalyzer.return_cost := 40 # 2;
     ContributionMarginAnalyzer.total_costs := 940 # 2;
     ContributionMarginAnalyzer.contribution_margin := 1060 # 2;
     ContributionMarginAnalyzer.contribution_margin_pct := 1060 # 2000;
     ContributionMarginAnalyzer.profit_per_unit := 1060 # 20;
     ContributionMarginAnalyzer.total_profit := 1060 # 2 |}.

(** Stock rows by days of supply: 20 days, 200 days, and no sales at all. *)
Definition stock (sku : string) (days : float) : SlowMoverAnalyzer.supply_row :=
  {| SlowMoverAnalyzer.velocity_of :=
       {| SlowMoverAnalyzer.base :=
            {| SlowMoverAnalyzer.sku := sku;
               SlowMoverAnalyzer.units := 0;
               SlowMoverAnalyzer.revenue := NaN;
               SlowMoverAnalyzer.sales_period_days := Fin 10;
               SlowMoverAnalyzer.quantity_on_hand := 3;
               SlowMoverAnalyzer.cost_per_unit := 2;
               SlowMoverAnalyzer.product_name := None |};
          SlowMoverAnalyzer.units_per_day := Fin 0;
          SlowMoverAnalyzer.revenue_per_day := NaN;
          SlowMoverAnalyzer.inventory_turnover := 0 |};
     SlowMoverAnalyzer.days_of_supply := days;
     SlowMoverAnalyzer.inventory_value := 6;
     SlowMoverAnalyzer.inventory_age_category := "" |}.

Definition stock_rows : list SlowMoverAnalyzer.supply_row :=
  [stock "F" (Fin 20); stock "S" (Fin 200); stock "N" PInf].

Definition slow_mover_S : SlowMoverAnalyzer.slow_mover_row :=
  {| SlowMoverAnalyzer.supply_of := stock "S" (Fin 200); SlowMoverAnalyzer.urgency := "high" |}.

(** Three established products that sold without revenue in their first
    month and one launched ten days ago with revenue 20: the benchmarks of
    the 30-day window are p50 = 0 and p75 = 5. *)
Definition launch (sku : string) (day : Z) : ProductInfo :=
  {| p_sku := sku; p_product_name := sku;
     p_launch_date := Some (day * seconds_per_day)%Z |}.

Definition launch_products : list ProductInfo :=
  [launch "A" 0; launch "B" 0; launch "C" 0; launch "N" 90].

Definition launch_sales : list SalesRecord :=
  [sale "A" 5 0 1; sale "B" 5 0 1; sale "C" 6 0 1; sale "N" 95 20 4].

Definition launch_now : Z := 100 * seconds_per_day.

(** A window aggregate and benchmarks with both p50 and p75 positive. *)
Definition window_rows : list NewProductScoringAnalyzer.window_row :=
  [{| NewProductScoringAnalyzer.w_sku := "N"; NewProductScoringAnalyzer.w_revenue := 20;
      NewProductScoringAnalyzer.w_units := 4; NewProductScoringAnalyzer.w_window := 30 |}].

Definition window_benchmarks : gmap Z NewProductScoringAnalyzer.bench :=
  {[ 30%Z := {| NewProductScoringAnalyzer.revenue_p50 := Fin 4;
                NewProductScoringAnalyzer.revenue_p75 := Fin 8;
                NewProductScoringAnalyzer.revenue_p90 := Fin 9;
                NewProductScoringAnalyzer.units_p50 := Fin 1;
                NewProductScoringAnalyzer.units_p75 := Fin 8;
                NewProductScoringAnalyzer.units_p90 := Fin 9 |} ]}.

(** Recommendations of two analyses in emission order, with every
    priority, one without a priority and one with an unknown priority; the
    entry in between is not a dict, as [platform] in [results]. *)
Definition advice (priority : option string) (action : string)
  : Recommendation :=
  {| rec_type := "note"; rec_priority := priority; rec_action := action;
     rec_impact := "impact"; rec_details := "details";
     source_analysis := None |}.

Definition emitted_items : PerformanceOptimizer.result_items :=
  [("sku_rationalization"%string,
    Some [advice (Some "low"%string) "l1"; advice (Some "critical"%string) "c1";
          advice None "n1"]);
   ("platform"%string, None);
   ("slow_mover_detection"%string,
    Some [advice (Some "high"%string) "h1";
          advice (Some "critical"%string) "c2";
          advice (Some "urgent"%string) "u1";
          advice (Some "medium"%string) "m1"])].

(** The outputs of four analyses over the skus A to E. *)
Definition overlay : PerformanceOptimizer.results :=
  {| PerformanceOptimizer.sku_columns := [["A"; "B"]; ["C"; "A"; "D"; "E"]];
     PerformanceOptimizer.sku_rationalization := Some ["A"];
     PerformanceOptimizer.contribution_margin := Some ["A"; "B"];
     PerformanceOptimizer.slow_mover_detection :=
       Some [("B", "high"); ("C", "critical")];
     PerformanceOptimizer.new_product_scoring := Some ["B"; "D"; "C"];
     PerformanceOptimizer.consolidated_recommendations := [] |}.

End Scenarios.

(** * Properties *)

(** ** Sorting *)

Section SortFacts.
Context {A : Type} (leb : A → A → bool).

Lemma ins_perm (x : A) (l : list A) : ins leb x l ≡ₚ x :: l.
Proof.
  induction l as [|y l IH]; simpl; [done|].
  destruct (leb x y); [done|].
  rewrite IH. apply perm_swap.
Qed.

Lemma stable_sort_perm (l : list A) : stable_sort leb l ≡ₚ l.
Proof.
  induction l as [|x l IH]; simpl; [done|].
  rewrite ins_perm. by rewrite IH.
Qed.

Lemma elem_of_stable_sort (x : A) (l : list A) :
  x ∈ stable_sort leb l ↔ x ∈ l.
Proof. by rewrite stable_sort_perm. Qed.

Lemma stable_sort_length (l : list A) :
  length (stable_sort leb l) = length l.
Proof. by rewrite stable_sort_perm. Qed.

(** Inserting [x] leaves the elements of a class [P] in their order, as
    long as the members of the class do not precede one another strictly. *)
Lemma filter_ins (P : A → Prop) `{!∀ x, Decision (P x)} (x : A) (l : list A) :
  (∀ a b, P a → P b → leb a b = true) →
  filter P (ins leb x l) = filter P (x :: l).
Proof.
  intros Hclass. induction l as [|y l IH]; simpl; [done|].
  destruct (leb x y) eqn:Hxy; [done|].
  rewrite filter_cons, IH, !filter_cons.
  destruct (decide (P y)) as [Hy|Hy]; [|done].
  destruct (decide (P x)) as [Hx|Hx]; [|done].
  rewrite (Hclass x y Hx Hy) in Hxy. discriminate.
Qed.

Lemma filter_stable_sort (P : A → Prop) `{!∀ x, Decision (P x)} (l : list A) :
  (∀ a b, P a → P b → leb a b = true) →
  filter P (stable_sort leb l) = filter P l.
Proof.
  intros Hclass. induction l as [|x l IH]; simpl; [done|].
  rewrite filter_ins by done. by rewrite !filter_cons, IH.
Qed.

Lemma ins_sorted (x : A) (l : list A) :
  (∀ a b, leb a b = false → leb b a = true) →
  Sorted (λ a b, leb a b = true) l →
  Sorted (λ a b, leb a b = true) (ins leb x l).
Proof.
  intros Htotal. induction 1 as [|y l Hs IH Hhd]; simpl.
  - by repeat constructor.
  - destruct (leb x y) eqn:Hxy.
    + by repeat constructor.
    + constructor; [done|].
      destruct Hhd as [|z l Hyz]; simpl.
      * constructor. by apply Htotal.
      * destruct (leb x z); constructor; [by apply Htotal | done].
Qed.

Lemma stable_sort_sorted (l : list A) :
  (∀ a b, leb a b = false → leb b a = true) →
  Sorted (λ a b, leb a b = true) (stable_sort leb l).
Proof.
  intros Htotal. induction l as [|x l IH]; simpl; [constructor|].
  by apply ins_sorted.
Qed.
End SortFacts.

Lemma filter_length_mono {A} (P Q : A → Prop)
    `{!∀ x, Decision (P x)} `{!∀ x, Decision (Q x)} (l : list A) :
  (∀ x, P x → Q x) → length (filter P l) ≤ length (filter Q l).
Proof.
  intros HPQ. induction l as [|x l IH]; [done|].
  rewrite !filter_cons.
  destruct (decide (P x)) as [HP|HP].
  - rewrite decide_True by auto. simpl. lia.
  - destruct (decide (Q x)); simpl; lia.
Qed.

(** Membership in a left join. *)
Lemma elem_of_merge_left {L R O} (key_l : L → string) (key_r : R → string)
    (join : L → option R → O) (left : list L) (right : list R) (x : O) :
  x ∈ merge_left key_l key_r join left right →
  ∃ l o, l ∈ left ∧ x = join l o
         ∧ match o with
           | Some r => r ∈ right ∧ key_r r = key_l l
           | None => ∀ r, r ∈ right → key_r r ≠ key_l l
           end.
Proof.
  unfold merge_left. rewrite list_elem_of_In, in_flat_map.
  intros (l & Hl & Hx). apply list_elem_of_In in Hl, Hx.
  exists l.
  destruct (filter _ right) as [|m ms] eqn:Hf.
  - apply list_elem_of_singleton in Hx. exists None. split_and!; [done..|].
    intros r Hr Hk.
    assert (r ∈ filter (λ r, key_r r = key_l l) right) as Hin
      by (by apply list_elem_of_filter).
    rewrite Hf in Hin. by apply not_elem_of_nil in Hin.
  - apply list_elem_of_fmap in Hx as (r & -> & Hr).
    exists (Some r). split_and!; [done..| |].
    + rewrite <- Hf in Hr. by apply list_elem_of_filter in Hr as [_ ?].
    + rewrite <- Hf in Hr. by apply list_elem_of_filter in Hr as [? _].
Qed.

(** ** CannibalizationAnalyzer *)

Section CannibalizationFacts.
Import CannibalizationAnalyzer.

(** What a row of [cannibal_pairs] is made of. *)
Lemma identify_cannibalization_row (thr : Q) (om : frame overlap_row)
    (sales : list SalesRecord) (row : pair_row) :
  row ∈ frame_rows (_identify_cannibalization thr om sales) →
  base row ∈ frame_rows om
  ∧ Qle_bool thr (overlap_pct (base row)) = true
  ∧ stronger_sku row
    = (if fgeb (revenue1 row) (revenue2 row) then sku1 (base row)
       else sku2 (base row))
  ∧ weaker_sku row
    = (if fgeb (revenue1 row) (revenue2 row) then sku2 (base row)
       else sku1 (base row))
  ∧ revenue_at_risk row = None.
Proof.
  unfold _identify_cannibalization.
  destruct (frame_empty om); simpl; [by intros ?%elem_of_nil|].
  rewrite elem_of_stable_sort.
  intros (x & o2 & Hx & -> & _)%elem_of_merge_left.
  apply elem_of_merge_left in Hx as (r & o1 & Hr & -> & _).
  apply list_elem_of_filter in Hr as [Hthr Hr].
  simpl. done.
Qed.

(** [_calculate_impact] keeps the rows and fills [revenue_at_risk]. *)
Lemma calculate_impact_row (pairs : frame pair_row) (row : pair_row) :
  row ∈ frame_rows (_calculate_impact pairs).1 →
  ∃ r, r ∈ frame_rows pairs ∧ row = set_revenue_at_risk r.
Proof.
  unfold _calculate_impact, frame_len.
  destruct pairs as [|rows]; simpl; [by intros ?%elem_of_nil|].
  destruct rows as [|r0 rows]; simpl; [by intros ?%elem_of_nil|].
  change (set_revenue_at_risk r0 :: map set_revenue_at_risk rows)
    with (set_revenue_at_risk <$> (r0 :: rows)).
  intros (r & -> & Hr)%list_elem_of_fmap. by exists r.
Qed.

(** The table [analyze] reports is the one [_calculate_impact] extended. *)
Lemma analyze_pairs `{NumberFormat} (thr : Q) (data : list PurchaseEvent)
    (sales : list SalesRecord) (info : list ProductInfo) (res : analysis) :
  analyze thr data sales info = Ok res →
  cannibalization_pairs res
  = (_calculate_impact
       (_identify_cannibalization thr (_calculate_overlap_matrix data) sales)).1.
Proof.
  unfold analyze.
  destruct (_calculate_impact _) as [pairs imp]; simpl.
  destruct pairs; simpl; [done|]. by intros [= <-].
Qed.

Lemma py_min_finite (a b : Q) : py_min (Fin a) (Fin b) = Fin (Qmin a b).
Proof.
  unfold py_min, fltb, Qlt_bool, Qmin, GenericMinMax.gmin.
  destruct (Qle_bool a b) eqn:Hle; simpl.
  - apply Qle_bool_iff in Hle.
    destruct (Qcompare_spec a b) as [?|?|?]; [done..|]. lra.
  - destruct (Qcompare_spec a b) as [Heq|?|?]; [| |done].
    + assert (Qle_bool a b = true) by (apply Qle_bool_iff; lra). congruence.
    + assert (Qle_bool a b = true) by (apply Qle_bool_iff; lra). congruence.
Qed.

(** In every retained pair whose two revenues are defined, the stronger
    sku is the one with the higher total revenue, the weaker sku is the
    other one, and the revenue at risk is the smaller of the two revenues. *)
Lemma sold_pair_stronger_weaker (thr : Q) (om : frame overlap_row)
    (sales : list SalesRecord) (row : pair_row) (a b : Q) :
  row ∈ frame_rows (_calculate_impact (_identify_cannibalization thr om sales)).1 →
  revenue1 row = Fin a →
  revenue2 row = Fin b →
  (thr <= overlap_pct (base row))%Q
  ∧ ((b < a)%Q →
     stronger_sku row = sku1 (base row) ∧ weaker_sku row = sku2 (base row))
  ∧ ((a < b)%Q →
     stronger_sku row = sku2 (base row) ∧ weaker_sku row = sku1 (base row))
  ∧ ((stronger_sku row, weaker_sku row) = (sku1 (base row), sku2 (base row))
     ∨ (stronger_sku row, weaker_sku row) = (sku2 (base row), sku1 (base row)))
  ∧ revenue_at_risk row = Some (Fin (Qmin a b)).
Proof.
  intros (r & Hr & ->)%calculate_impact_row.
  apply identify_cannibalization_row in Hr as (_ & Hthr & Hs & Hw & _).
  simpl. intros Ha Hb. rewrite Hs, Hw, Ha, Hb. clear Hs Hw.
  apply Qle_bool_iff in Hthr.
  unfold fgeb, fleb.
  destruct (Qle_bool b a) eqn:Hle.
  - apply Qle_bool_iff in Hle. split_and!; auto.
    + intros ?. lra.
    + by rewrite py_min_finite.
  - assert (a < b)%Q.
    { destruct (Qlt_le_dec a b) as [|Hba]; [done|].
      apply Qle_bool_iff in Hba. congruence. }
    split_and!; auto.
    + intros ?. lra.
    + by rewrite py_min_finite.
Qed.

Lemma sold_pair_scenario :
  let row := Scenarios.same_buyers_pair in
  stronger_sku row = "A"%string ∧ weaker_sku row = "B"%string
  ∧ revenue_at_risk row = Some (Fin (Qmin 1000 400)).
Proof.
  destruct (sold_pair_stronger_weaker (85 # 100)
              (_calculate_overlap_matrix Scenarios.same_buyers)
              Scenarios.same_buyers_sales Scenarios.same_buyers_pair 1000 400)
    as (_ & Hgt & _ & _ & Hrisk).
  - vm_compute. constructor.
  - reflexivity.
  - reflexivity.
  - destruct Hgt as [Hs Hw]; [reflexivity|]. simpl. auto.
Defined.

(** A sku of the purchase events that has no sales record has no revenue:
    NaN, and every comparison with it is false. *)
Lemma unsold_sku_comparisons (x : float) :
  fgeb x NaN = false ∧ fgeb NaN x = false
  ∧ py_min x NaN = x ∧ py_min NaN x = NaN.
Proof. by destruct x. Qed.

(** C3: the code run on two skus A and C with the same buyers, where A
    has sales records of total revenue 1000 and C has none.  With A bought
    first the pair is (A, C): the revenue of C is NaN, [revenue1 >= revenue2]
    is false, and the code names C, the sku that sold nothing, the stronger
    one and A the weaker, with the whole revenue of A at risk.  With C
    bought first the pair is (C, A), the same comparison is false again, and
    this time A is the stronger sku and the revenue at risk is NaN. *)
Theorem C3_unsold_sku_named_stronger :
  let report (data : list PurchaseEvent) :=
    frame_rows
      (_calculate_impact
         (_identify_cannibalization (85 # 100)
            (_calculate_overlap_matrix data) Scenarios.seller_sales)).1 in
  "C"%string ∉ map s_sku Scenarios.seller_sales
  ∧ match report Scenarios.unsold_second, report Scenarios.unsold_first with
    | [row], [row'] =>
        (sku1 (base row) = "A"%string ∧ sku2 (base row) = "C"%string
         ∧ (overlap_pct (base row) == 1)%Q
         ∧ revenue1 row = Fin 1000 ∧ revenue2 row = NaN
         ∧ stronger_sku row = "C"%string ∧ weaker_sku row = "A"%string
         ∧ revenue_at_risk row = Some (Fin 1000))
        ∧ (sku1 (base row') = "C"%string ∧ sku2 (base row') = "A"%string
           ∧ (overlap_pct (base row') == 1)%Q
           ∧ revenue1 row' = NaN ∧ revenue2 row' = Fin 1000
           ∧ stronger_sku row' = "A"%string ∧ weaker_sku row' = "C"%string
           ∧ revenue_at_risk row' = Some NaN)
    | _, _ => False
    end.
Proof.
  cbv zeta. split; [by_evaluation|]. vm_compute. by repeat split.
Qed.

(** C10: when the two revenues of a retained pair are defined and equal,
    the stronger sku is [sku1], the first sku of the pair, and the weaker
    sku is [sku2]. *)
Theorem C10_tie_goes_to_first_sku (thr : Q) (om : frame overlap_row)
    (sales : list SalesRecord) (row : pair_row) (a b : Q) :
  row ∈ frame_rows (_identify_cannibalization thr om sales) →
  revenue1 row = Fin a →
  revenue2 row = Fin b →
  (a == b)%Q →
  stronger_sku row = sku1 (base row) ∧ weaker_sku row = sku2 (base row).
Proof.
  intros (_ & _ & Hs & Hw & _)%identify_cannibalization_row Ha Hb Hab.
  rewrite Hs, Hw, Ha, Hb. unfold fgeb, fleb.
  assert (Qle_bool b a = true) as -> by (apply Qle_bool_iff; lra).
  done.
Qed.

Lemma C10_witness :
  let row := Scenarios.tied_pair in
  stronger_sku row = sku1 (base row) ∧ weaker_sku row = sku2 (base row).
Proof.
  apply (C10_tie_goes_to_first_sku (85 # 100)
           (_calculate_overlap_matrix Scenarios.same_buyers)
           Scenarios.tied_sales Scenarios.tied_pair 500 500).
  - vm_compute. constructor.
  - reflexivity.
  - reflexivity.
  - reflexivity.
Defined.

(** The scenario run through the analyzer: identical buyer sets give an
    overlap of 1, and the one pair reported is the row above. *)
Lemma same_buyers_report :
  (_calculate_impact
     (_identify_cannibalization (85 # 100)
        (_calculate_overlap_matrix Scenarios.same_buyers)
        Scenarios.same_buyers_sales)).1
  = Table [Scenarios.same_buyers_pair]
  ∧ (overlap_pct (base Scenarios.same_buyers_pair) == 1)%Q.
Proof. by vm_compute. Qed.

Lemma combinations2_precedes {A} (l : list A) (x y : A) :
  (x, y) ∈ combinations2 l → precedes x y l.
Proof.
  induction l as [|a l IH]; simpl; [by intros ?%elem_of_nil|].
  intros [Hxy|Hxy]%elem_of_app.
  - apply list_elem_of_fmap in Hxy as (z & [= -> ->] & Hz).
    apply list_elem_of_split in Hz as (l2 & l3 & ->).
    by exists [], l2, l3.
  - destruct (IH Hxy) as (l1 & l2 & l3 & ->).
    by exists (a :: l1), l2, l3.
Qed.

(** The pair ordering: [sku1] is the sku that appears first in the purchase
    events. *)
Lemma overlap_matrix_pair_order (data : list PurchaseEvent) (row : overlap_row) :
  row ∈ frame_rows (_calculate_overlap_matrix data) →
  precedes (sku1 row) (sku2 row) (unique (map pe_sku data)).
Proof.
  unfold _calculate_overlap_matrix.
  destruct data as [|e data]; [by intros ?%elem_of_nil|].
  set (skus := unique (map pe_sku (e :: data))).
  set (cs := customer_skus (e :: data)).
  assert (frame_rows (DataFrame (omap (overlap_of cs) (combinations2 skus)))
          = omap (overlap_of cs) (combinations2 skus)) as ->.
  { by destruct (omap _ _). }
  intros (p & Hp & Hrow)%list_elem_of_omap.
  unfold overlap_of in Hrow.
  repeat case_bool_decide; simplify_eq/=.
  apply combinations2_precedes. by destruct p.
Qed.

(** The assignment is total: whatever the revenues, also undefined ones,
    a retained pair names its two skus, one as stronger and the other as
    weaker. *)
Lemma stronger_weaker_total (thr : Q) (om : frame overlap_row)
    (sales : list SalesRecord) (row : pair_row) :
  row ∈ frame_rows (_identify_cannibalization thr om sales) →
  (stronger_sku row, weaker_sku row) = (sku1 (base row), sku2 (base row))
  ∨ (stronger_sku row, weaker_sku row) = (sku2 (base row), sku1 (base row)).
Proof.
  intros (_ & _ & -> & -> & _)%identify_cannibalization_row.
  destruct (fgeb _ _); auto.
Qed.

(** C2: with no purchase event, each step of the analyzer takes its
    early exit, and [analyze] then raises [KeyError] when its summary
    selects the column [overlap_pct] of the column-less table. *)
Theorem C2_empty_overlap_raises `{NumberFormat} (thr : Q)
    (sales : list SalesRecord) (info : list ProductInfo) :
  let om := _calculate_overlap_matrix [] in
  let pairs := _identify_cannibalization thr om sales in
  om = NoColumns
  ∧ pairs = NoColumns
  ∧ _calculate_impact pairs = (NoColumns, zero_impact)
  ∧ _generate_recommendations pairs zero_impact info = []
  ∧ analyze thr [] sales info = Raise (KeyError "overlap_pct").
Proof. done. Qed.

(** The same failure whenever no pair is formed, as with one sku only. *)
Lemma single_sku_overlap_raises `{NumberFormat} (thr : Q)
    (customer sku : string) (sales : list SalesRecord)
    (info : list ProductInfo) :
  analyze thr [Scenarios.purchase customer sku] sales info
  = Raise (KeyError "overlap_pct").
Proof. done. Qed.
End CannibalizationFacts.

(** ** Order statistics and linear interpolation *)

Lemma Qnat_le (a b : nat) : a ≤ b → (Qnat a <= Qnat b)%Q.
Proof. intros. unfold Qnat, Qle. simpl. lia. Qed.

Lemma Qnat_plus (a b : nat) : (Qnat (a + b) == Qnat a + Qnat b)%Q.
Proof. unfold Qnat. by rewrite Nat2Z.inj_add, inject_Z_plus. Qed.

Lemma Qnat_pos (a : nat) : 0 < a → (0 < Qnat a)%Q.
Proof. intros. unfold Qnat, Qlt. simpl. lia. Qed.

Lemma Qle_bool_total (a b : Q) : Qle_bool a b = false → Qle_bool b a = true.
Proof.
  intros Hab. apply Qle_bool_iff.
  destruct (Qlt_le_dec b a) as [?|Hle]; [lra|].
  apply Qle_bool_iff in Hle. congruence.
Qed.

(** Sorting finite floats is sorting their values. *)
Lemma stable_sort_finite (qs : list Q) :
  stable_sort fleb (map Fin qs) = map Fin (stable_sort Qle_bool qs).
Proof.
  induction qs as [|x qs IH]; simpl; [done|].
  rewrite IH. generalize (stable_sort Qle_bool qs). clear.
  intros l. induction l as [|y l IH]; simpl; [done|].
  destruct (Qle_bool x y); simpl; [done|]. by rewrite IH.
Qed.

Lemma stable_sort_Qle (qs : list Q) :
  StronglySorted Qle (stable_sort Qle_bool qs).
Proof.
  apply Sorted_StronglySorted; [intros ???; apply Qle_trans|].
  eapply Sorted_ind with (P := Sorted Qle);
    [constructor| |apply (stable_sort_sorted Qle_bool), Qle_bool_total].
  intros a l _ IH Hhd. constructor; [done|].
  destruct Hhd as [|b l Hab]; constructor. by apply Qle_bool_iff.
Qed.

Lemma StronglySorted_nth (s : list Q) (i j : nat) :
  StronglySorted Qle s → i ≤ j → j < length s →
  (nth i s 0 <= nth j s 0)%Q.
Proof.
  intros Hs. revert i j.
  induction Hs as [|x s Hs IH Hall]; intros i j Hij Hj; simpl in *; [lia|].
  destruct i as [|i], j as [|j]; try lia.
  - lra.
  - rewrite Forall_forall in Hall. apply Hall, list_elem_of_In, nth_In. lia.
  - apply IH; lia.
Qed.

Lemma nth_map_Fin (s : list Q) (i : nat) :
  i < length s → nth i (map Fin s) NaN = Fin (nth i s 0%Q).
Proof.
  intros Hi. rewrite (nth_indep _ NaN (Fin 0%Q)) by (by rewrite length_map).
  apply map_nth.
Qed.

(** The virtual index of a quantile in [0, 1] falls inside the data. *)
Lemma virtual_index_bounds (n : nat) (q : Q) :
  0 < n → (0 <= q)%Q → (q <= 1)%Q →
  (0 ≤ Qfloor (Qnat (n - 1) * q))%Z
  ∧ Z.to_nat (Qfloor (Qnat (n - 1) * q)) ≤ n - 1.
Proof.
  intros Hn Hq0 Hq1.
  pose proof (Qnat_le 0 (n - 1) ltac:(lia)) as HN.
  change (Qnat 0) with 0%Q in HN.
  assert (0 <= Qnat (n - 1) * q)%Q as Hv0 by nra.
  assert (Qnat (n - 1) * q <= Qnat (n - 1))%Q as Hv1 by nra.
  apply Qfloor_resp_le in Hv0, Hv1.
  change (Qfloor 0) with 0%Z in Hv0.
  unfold Qnat in Hv1 at 2. rewrite Qfloor_Z in Hv1.
  split; [done|lia].
Qed.

Lemma lerp_finite (a b t : Q) :
  ∃ v, lerp (Fin a) (Fin b) t = Fin v ∧ (v == a + (b - a) * t)%Q.
Proof.
  unfold lerp. destruct (Qle_bool (1 # 2) t); simpl; eexists; split; [done| |done|].
  - ring.
  - ring.
Qed.

(** On finite data the quantile is finite, and is the interpolation between
    the two order statistics around the virtual index. *)
Lemma quantile_sorted_finite (s : list Q) (q : Q) :
  0 < length s → (0 <= q)%Q → (q <= 1)%Q →
  ∃ v, quantile_sorted (map Fin s) q = Fin v
       ∧ let virtual := (Qnat (length s - 1) * q)%Q in
         let lo := Z.to_nat (Qfloor virtual) in
         let hi := Nat.min (lo + 1) (length s - 1) in
         (v == nth lo s 0
               + (nth hi s 0 - nth lo s 0) * (virtual - inject_Z (Qfloor virtual)))%Q.
Proof.
  intros Hn Hq0 Hq1. unfold quantile_sorted. rewrite length_map.
  destruct (virtual_index_bounds (length s) q Hn Hq0 Hq1) as [Hf Hlo].
  rewrite !nth_map_Fin by lia.
  apply lerp_finite.
Qed.

(** The quantile of sorted finite data does not decrease with [q]. *)
Lemma quantile_sorted_mono (s : list Q) (q1 q2 : Q) (v1 v2 : Q) :
  StronglySorted Qle s → 0 < length s →
  (0 <= q1)%Q → (q1 <= q2)%Q → (q2 <= 1)%Q →
  quantile_sorted (map Fin s) q1 = Fin v1 →
  quantile_sorted (map Fin s) q2 = Fin v2 →
  (v1 <= v2)%Q.
Proof.
  intros Hs Hn H0 H12 H1 E1 E2.
  destruct (quantile_sorted_finite s q1 Hn) as (w1 & E1' & Hw1); [lra..|].
  destruct (quantile_sorted_finite s q2 Hn) as (w2 & E2' & Hw2); [lra..|].
  rewrite E1 in E1'. rewrite E2 in E2'.
  injection E1' as ->. injection E2' as ->.
  destruct (virtual_index_bounds (length s) q1 Hn) as [Hf1 Hlo1]; [lra..|].
  destruct (virtual_index_bounds (length s) q2 Hn) as [Hf2 Hlo2]; [lra..|].
  pose proof (Qnat_le 0 (length s - 1) ltac:(lia)) as HN.
  change (Qnat 0) with 0%Q in HN.
  set (N := Qnat (length s - 1)) in *.
  assert (N * q1 <= N * q2)%Q as Hv by nra.
  pose proof (Qfloor_resp_le _ _ Hv) as Hfl.
  pose proof (Qfloor_le (N * q1)) as Hg1.
  pose proof (Qlt_floor (N * q1)) as Hg1'.
  pose proof (Qfloor_le (N * q2)) as Hg2.
  pose proof (Qlt_floor (N * q2)) as Hg2'.
  rewrite inject_Z_plus in Hg1', Hg2'.
  change (inject_Z 1) with 1%Q in Hg1', Hg2'.
  cbv zeta in Hw1, Hw2.
  set (f1 := Qfloor (N * q1)) in *. set (f2 := Qfloor (N * q2)) in *.
  set (lo1 := Z.to_nat f1) in *. set (lo2 := Z.to_nat f2) in *.
  pose proof (StronglySorted_nth s lo1 (Nat.min (lo1 + 1) (length s - 1)) Hs
                ltac:(lia) ltac:(lia)) as Hab1.
  pose proof (StronglySorted_nth s lo2 (Nat.min (lo2 + 1) (length s - 1)) Hs
                ltac:(lia) ltac:(lia)) as Hab2.
  destruct (decide (f1 = f2)) as [Heq|Hne].
  - assert (lo1 = lo2) as Hlo by (unfold lo1, lo2; congruence).
    rewrite <- Hlo, <- Heq in Hw2.
    rewrite Hw1, Hw2.
    set (a := nth lo1 s 0%Q) in *.
    set (b := nth (Nat.min (lo1 + 1) (length s - 1)) s 0%Q) in *.
    nra.
  - assert (lo1 + 1 ≤ lo2) as Hlt by (unfold lo1, lo2; lia).
    replace (Nat.min (lo1 + 1) (length s - 1)) with (lo1 + 1) in * by lia.
    pose proof (StronglySorted_nth s (lo1 + 1) lo2 Hs Hlt ltac:(lia)) as Hmid.
    rewrite Hw1, Hw2.
    set (a1 := nth lo1 s 0%Q) in *. set (b1 := nth (lo1 + 1) s 0%Q) in *.
    set (a2 := nth lo2 s 0%Q) in *.
    set (b2 := nth (Nat.min (lo2 + 1) (length s - 1)) s 0%Q) in *.
    nra.
Qed.

(** A list of floats with neither NaN nor an infinity is a list of values. *)
Lemma finite_values (l : list float) :
  existsb isna l = false → Forall (λ x, isinf x = false) l →
  ∃ qs, l = map Fin qs.
Proof.
  induction l as [|x l IH]; simpl; intros Hna Hinf; [by exists []|].
  apply orb_false_iff in Hna as [Hx Hna].
  inversion Hinf as [|?? Hxi Hinf']; subst.
  destruct (IH Hna Hinf') as [qs ->].
  destruct x as [q| | |]; try discriminate. by exists (q :: qs).
Qed.

(** [np.percentile] does not decrease with the percentile: on data without
    infinities, a larger percentile admits every value a smaller one admits. *)
Lemma np_percentile_mono (l : list float) (N1 N2 : Z) :
  l ≠ [] → Forall (λ x, isinf x = false) l →
  (0 ≤ N1)%Z → (N1 ≤ N2)%Z → (N2 ≤ 100)%Z →
  ∃ t1 t2, np_percentile l N1 = Ok t1 ∧ np_percentile l N2 = Ok t2
           ∧ ∀ x, fleb x t1 = true → fleb x t2 = true.
Proof.
  intros Hne Hinf H0 H12 H100. unfold np_percentile.
  rewrite !bool_decide_eq_true_2 by lia.
  do 2 eexists. split_and!; [done..|].
  unfold quantile_linear. destruct (existsb isna l) eqn:Hna.
  { intros x. by destruct x. }
  destruct (finite_values l Hna Hinf) as [qs ->].
  rewrite stable_sort_finite.
  assert (0 < length (stable_sort Qle_bool qs)) as Hn.
  { rewrite stable_sort_length. destruct qs; simpl in *; [done|lia]. }
  assert (0 <= inject_Z N1 / 100)%Q as Hq0.
  { apply Qle_shift_div_l; [reflexivity|]. unfold Qle; simpl; lia. }
  assert (inject_Z N1 / 100 <= inject_Z N2 / 100)%Q as Hq12.
  { apply Qmult_le_compat_r; [unfold Qle; simpl; lia | discriminate]. }
  assert (inject_Z N2 / 100 <= 1)%Q as Hq1.
  { apply Qle_shift_div_r; [reflexivity|]. unfold Qle; simpl; lia. }
  destruct (quantile_sorted_finite (stable_sort Qle_bool qs) (inject_Z N1 / 100) Hn)
    as (v1 & E1 & _); [lra..|].
  destruct (quantile_sorted_finite (stable_sort Qle_bool qs) (inject_Z N2 / 100) Hn)
    as (v2 & E2 & _); [lra..|].
  pose proof (quantile_sorted_mono _ _ _ _ _ (stable_sort_Qle qs) Hn
                Hq0 Hq12 Hq1 E1 E2) as Hv.
  rewrite E1, E2. intros [x| | |]; simpl; try done.
  rewrite !Qle_bool_iff. lra.
Qed.

(** ** SKU rationalization *)

Section SKURationalizationFacts.
Import SKURationalizationAnalyzer.

Lemma Qlt_bool_iff (a b : Q) : Qlt_bool a b = true ↔ (a < b)%Q.
Proof.
  unfold Qlt_bool. rewrite negb_true_iff.
  split.
  - intros Hle. destruct (Qlt_le_dec a b) as [|Hab]; [done|].
    apply Qle_bool_iff in Hab. congruence.
  - intros Hlt. destruct (Qle_bool b a) eqn:Hle; [|done].
    apply Qle_bool_iff in Hle. lra.
Qed.

Lemma fgtb_finite (a b : Q) : fgtb (Fin a) (Fin b) = true ↔ (b < a)%Q.
Proof. apply Qlt_bool_iff. Qed.

Lemma feqb_finite (a b : Q) : feqb (Fin a) (Fin b) = true ↔ (a == b)%Q.
Proof. apply Qeq_bool_iff. Qed.

(** A larger share of the column lies above the smaller of two values: the
    counts behind [rank(pct=True, ascending=False)]. *)
Lemma count_above (qs : list Q) (x y : Q) :
  (y < x)%Q →
  length (filter (λ v, fgtb v (Fin x) = true) (map Fin qs))
  + length (filter (λ v, feqb v (Fin x) = true) (map Fin qs))
  ≤ length (filter (λ v, fgtb v (Fin y) = true) (map Fin qs)).
Proof.
  intros Hyx. induction qs as [|q qs IH]; [done|].
  cbn [map]. rewrite !filter_cons.
  repeat case_decide; cbn [length]; try lia; exfalso;
    rewrite ?fgtb_finite, ?feqb_finite, ?Qlt_bool_iff in *; lra.
Qed.

Lemma count_equal_member (qs : list Q) (x : Q) :
  x ∈ qs → 0 < length (filter (λ v, feqb v (Fin x) = true) (map Fin qs)).
Proof.
  induction 1 as [x qs|x q qs _ IH]; cbn [map]; rewrite filter_cons.
  - rewrite decide_True; [simpl; lia|]. by apply feqb_finite.
  - case_decide; cbn [length]; lia.
Qed.

Lemma valid_finite (qs : list Q) :
  filter (λ y, isna y = false) (map Fin qs) = map Fin qs.
Proof.
  induction qs as [|q qs IH]; [done|].
  cbn [map]. rewrite filter_cons, decide_True by done. by rewrite IH.
Qed.

(** The ranking as the code computes it runs against the values: of two
    entries of a column, the larger one gets the strictly smaller
    percentile. *)
Lemma rank_pct_descending_reverses (qs : list Q) (x y : Q) :
  x ∈ qs → y ∈ qs → (y < x)%Q →
  ∃ px py,
    rank_pct_descending (map Fin qs) (Fin x) = Fin px
    ∧ rank_pct_descending (map Fin qs) (Fin y) = Fin py
    ∧ (px < py)%Q.
Proof.
  intros Hx Hy Hyx. unfold rank_pct_descending. cbn [isna].
  rewrite valid_finite, length_map.
  do 2 eexists. split_and!; [done..|].
  pose proof (count_above qs x y Hyx) as Hcount.
  pose proof (count_equal_member qs x Hx) as Hex.
  set (gx := length (filter (λ v, fgtb v (Fin x) = true) (map Fin qs))) in *.
  set (ex := length (filter (λ v, feqb v (Fin x) = true) (map Fin qs))) in *.
  set (gy := length (filter (λ v, fgtb v (Fin y) = true) (map Fin qs))) in *.
  set (ey := length (filter (λ v, feqb v (Fin y) = true) (map Fin qs))) in *.
  assert (0 < Qnat (length qs))%Q as Hn.
  { apply Qnat_pos. destruct Hx; simpl; lia. }
  apply Qmult_lt_compat_r; [by apply Qinv_lt_0_compat|].
  pose proof (Qnat_le _ _ Hcount) as Hc. rewrite Qnat_plus in Hc.
  pose proof (Qnat_le 1 ex ltac:(lia)) as He. change (Qnat 1) with 1%Q in He.
  pose proof (Qnat_le 0 ey ltac:(lia)) as He'. change (Qnat 0) with 0%Q in He'.
  assert ((Qnat ex + 1) / 2 == (Qnat ex + 1) * (1 # 2))%Q as -> by (by field).
  assert ((Qnat ey + 1) / 2 == (Qnat ey + 1) * (1 # 2))%Q as -> by (by field).
  lra.
Qed.

(** C1: the code run on two products that differ in revenue only, A with
    1000 and B with 400.  The revenue percentile of A is 1/2 and that of B
    is 1, so the product with the higher revenue gets the lower percentile,
    and so it is for the profit; the composite score of A is the lowest, and
    A is the one flagged as zombie at the default threshold. *)
Theorem C1_revenue_percentile_inverted :
  let merged := _merge_data Scenarios.two_products [] [] in
  match merged with
  | [a; b] =>
      sku a = "A"%string ∧ sku b = "B"%string
      ∧ (revenue b < revenue a)%Q
      ∧ units a = units b ∧ fees a = fees b
      ∧ shipping_cost a = shipping_cost b
      ∧ feqb (revenue_percentile merged a) (Fin (1 # 2)) = true
      ∧ feqb (revenue_percentile merged b) (Fin 1) = true
      ∧ fgeb (revenue_percentile merged a) (revenue_percentile merged b) = false
      ∧ fgtb (profit_of a) (profit_of b) = true
      ∧ fgeb (profit_percentile merged a) (profit_percentile merged b) = false
      ∧ match _identify_zombies 20 (_calculate_metrics merged) with
        | Ok (Table [z]) => sku (base (metrics_of z)) = "A"%string
        | _ => False
        end
  | _ => False
  end.
Proof. vm_compute. by repeat split. Qed.

(** The composite score of the code is finite or NaN, never an infinity:
    the scores [_calculate_metrics] hands to [_identify_zombies] meet the
    condition under which the zombie set is monotone below. *)
Lemma calculate_metrics_score_not_infinite (merged : list merged_row) :
  Forall (λ m, isinf (composite_score m) = false) (_calculate_metrics merged).
Proof.
  unfold _calculate_metrics. apply Forall_forall.
  intros m (r & -> & _)%list_elem_of_fmap. simpl.
  unfold revenue_percentile, profit_percentile, velocity_percentile,
    rank_pct_descending.
  by destruct (isna (profit_of r)).
Qed.

(** C8: among fixed scored products, none of an infinite score, and for
    percentiles 0 <= N1 <= N2 <= 100, both thresholds are computed, every
    zombie under N1 is a zombie under N2, and there are at most as many. *)
Theorem C8_zombie_set_monotone (metrics : list metrics_row) (N1 N2 : Z) :
  Forall (λ m, isinf (composite_score m) = false) metrics →
  (0 ≤ N1)%Z → (N1 ≤ N2)%Z → (N2 ≤ 100)%Z →
  ∃ z1 z2,
    _identify_zombies N1 metrics = Ok z1
    ∧ _identify_zombies N2 metrics = Ok z2
    ∧ (∀ row, row ∈ frame_rows z1 → row ∈ frame_rows z2)
    ∧ frame_len z1 ≤ frame_len z2.
Proof.
  intros Hinf H0 H12 H100. unfold _identify_zombies.
  assert (Forall (λ x, isinf x = false)
            (map composite_score (filter (λ m, is_active m = true) metrics)))
    as Hinf'.
  { apply Forall_forall. intros x (m & -> & Hm)%list_elem_of_fmap.
    apply list_elem_of_filter in Hm as [_ Hm].
    rewrite Forall_forall in Hinf. by apply Hinf. }
  destruct (filter (λ m, is_active m = true) metrics) as [|m0 rest] eqn:Hactive.
  { by exists NoColumns, NoColumns. }
  destruct (np_percentile_mono (map composite_score (m0 :: rest)) N1 N2)
    as (t1 & t2 & E1 & E2 & Hle); [done..|].
  rewrite E1, E2.
  simpl. do 2 eexists. split_and!; [done..| |]; simpl.
  - intros row (m & -> & Hm)%list_elem_of_fmap.
    apply list_elem_of_fmap. exists m. split; [done|].
    apply elem_of_stable_sort. apply elem_of_stable_sort in Hm.
    apply list_elem_of_filter in Hm as [Hm ?].
    apply list_elem_of_filter. auto.
  - unfold frame_len. simpl. rewrite !length_map, !stable_sort_length.
    apply filter_length_mono. intros m. apply Hle.
Qed.

Lemma C8_witness :
  frame_len (default NoColumns
               (match _identify_zombies 20 Scenarios.three_scores with
                | Ok z => Some z | Raise _ => None end))
  ≤ frame_len (default NoColumns
                 (match _identify_zombies 50 Scenarios.three_scores with
                  | Ok z => Some z | Raise _ => None end)).
Proof.
  destruct (C8_zombie_set_monotone Scenarios.three_scores 20 50)
    as (z1 & z2 & -> & -> & _ & Hlen).
  - repeat constructor.
  - lia.
  - lia.
  - lia.
  - exact Hlen.
Defined.

(** With no sales and no inventory the analyzer returns its defaults. *)
Lemma analyze_empty_tables `{NumberFormat} (N : Z) (info : list ProductInfo) :
  analyze N [] [] info
  = Ok {| zombie_skus := NoColumns;
          metrics := [];
          impact := {| working_capital_freed := Fin 0;
                       annual_revenue_lost := Fin 0;
                       annual_profit_lost := Fin 0;
                       net_benefit := Fin 0 |};
          recommendations := [];
          analysis_summary := {| total_zombies := 0;
                                 capital_freed := Fin 0;
                                 bottom_percentile := N |} |}.
Proof. done. Qed.

Lemma fadd_NaN_r (x : float) : fadd x NaN = NaN.
Proof. by destruct x. Qed.

(** Without sales every merged row comes from the inventory alone, and its
    fees are missing. *)
Lemma merge_data_no_sales (inventory : list InventorySnapshot)
    (info : list ProductInfo) (r : merged_row) :
  r ∈ _merge_data [] inventory info → fees r = NaN.
Proof.
  unfold _merge_data.
  intros (x & p & Hx & -> & _)%elem_of_merge_left.
  unfold merge_outer in Hx.
  apply list_elem_of_In, in_flat_map in Hx as (k & _ & Hx).
  apply list_elem_of_In in Hx. simpl in Hx.
  apply list_elem_of_fmap in Hx as (i & -> & _). done.
Qed.

(** With no sales, whatever the inventory, the analyzer raises nothing and
    flags nothing: every composite score is NaN, so is the threshold, and no
    score compares below it. *)
Lemma analyze_no_sales `{NumberFormat} (N : Z)
    (inventory : list InventorySnapshot) (info : list ProductInfo) :
  (0 ≤ N ≤ 100)%Z →
  ∃ res, analyze N [] inventory info = Ok res
         ∧ frame_rows (zombie_skus res) = []
         ∧ recommendations res = []
         ∧ total_zombies (analysis_summary res) = 0
         ∧ capital_freed (analysis_summary res) = Fin 0.
Proof.
  intros HN. unfold analyze.
  assert (∃ z, _identify_zombies N
                 (_calculate_metrics (_merge_data [] inventory info)) = Ok z
               ∧ frame_rows z = []) as (z & -> & Hz).
  { unfold _identify_zombies.
    destruct (filter _ _) as [|m0 rest] eqn:Hactive; [by exists NoColumns|].
    assert (∀ m, m ∈ m0 :: rest → composite_score m = NaN) as Hnan.
    { intros m Hm. rewrite <- Hactive in Hm.
      apply list_elem_of_filter in Hm as [_ Hm].
      unfold _calculate_metrics in Hm.
      apply list_elem_of_fmap in Hm as (r & -> & Hr).
      apply merge_data_no_sales in Hr.
      assert (profit_of r = NaN) as Hp.
      { unfold profit_of, fsub. by rewrite Hr. }
      cbn [composite_score].
      unfold profit_percentile, rank_pct_descending.
      rewrite Hp. cbn [isna fmul]. by rewrite fadd_NaN_r. }
    unfold np_percentile. rewrite bool_decide_eq_true_2 by done.
    unfold quantile_linear. cbn [map existsb].
    rewrite (Hnan m0) by by left. simpl.
    eexists. split; [done|]. simpl.
    assert (filter (λ m, fleb (composite_score m) NaN = true) (m0 :: rest) = [])
      as ->; [|done].
    apply elem_of_nil_inv. intros m [Hm _]%list_elem_of_filter.
    by destruct (composite_score m). }
  simpl. eexists. split; [done|].
  unfold _generate_recommendations, _calculate_financial_impact, frame_len.
  rewrite Hz. done.
Qed.
End SKURationalizationFacts.

(** ** Contribution margin *)

Section ContributionMarginFacts.
Import ContributionMarginAnalyzer.

(** A row of [merged] carries the sums over the sales of its sku, and the
    unit cost of a matching inventory row, or 0 when there is none. *)
Lemma merge_data_row (sales : list SalesRecord)
    (inventory : list InventorySnapshot) (info : list ProductInfo)
    (r : merged_row) :
  r ∈ _merge_data sales inventory info →
  let group := filter (λ s, s_sku s = sku r) sales in
  revenue r = Qsum (map s_revenue group)
  ∧ units r = Qsum (map s_units group)
  ∧ fees r = Qsum (map s_fees group)
  ∧ shipping_cost r = Qsum (map s_shipping_cost group)
  ∧ returns r = Qsum (map s_returns group)
  ∧ ((∃ i, i ∈ inventory ∧ i_sku i = sku r
           ∧ cost_per_unit r = i_cost_per_unit i)
     ∨ ((∀ i, i ∈ inventory → i_sku i ≠ sku r) ∧ cost_per_unit r = 0%Q)).
Proof.
  unfold _merge_data.
  intros (x & p & Hx & -> & _)%elem_of_merge_left.
  apply elem_of_merge_left in Hx as (s & i & Hs & -> & Hi).
  unfold sales_summary in Hs.
  apply list_elem_of_fmap in Hs as (k & -> & _).
  simpl. split_and!; [done..|].
  destruct i as [i|]; simpl in *.
  - left. exists i. by destruct Hi.
  - right. done.
Qed.

(** C4: for every sku of the margin table, with revenue, units, fees,
    shipping cost and returns the sums over its sales: cogs is units times
    cost per unit, return cost is half the returns, the contribution margin
    is revenue minus the sum of fees, shipping cost, cogs and return cost,
    the margin percentage is margin over revenue when revenue is positive
    and 0 otherwise, and the profit per unit is margin over units when units
    is positive and 0 otherwise. *)
Theorem C4_contribution_margin_formula (sales : list SalesRecord)
    (inventory : list InventorySnapshot) (info : list ProductInfo)
    (row : margin_row) :
  row ∈ _calculate_contribution_margins (_merge_data sales inventory info) →
  let b := base row in
  let group := filter (λ s, s_sku s = sku b) sales in
  revenue b = Qsum (map s_revenue group)
  ∧ units b = Qsum (map s_units group)
  ∧ fees b = Qsum (map s_fees group)
  ∧ shipping_cost b = Qsum (map s_shipping_cost group)
  ∧ returns b = Qsum (map s_returns group)
  ∧ cogs row = (units b * cost_per_unit b)%Q
  ∧ return_cost row = (returns b * (1 # 2))%Q
  ∧ contribution_margin row
    = (revenue b - (fees b + shipping_cost b + cogs row + return_cost row))%Q
  ∧ ((0 < revenue b)%Q →
     contribution_margin_pct row = (contribution_margin row / revenue b)%Q)
  ∧ (¬ (0 < revenue b)%Q → contribution_margin_pct row = 0%Q)
  ∧ ((0 < units b)%Q →
     profit_per_unit row = (contribution_margin row / units b)%Q)
  ∧ (¬ (0 < units b)%Q → profit_per_unit row = 0%Q).
Proof.
  unfold _calculate_contribution_margins.
  intros (r & -> & Hr)%list_elem_of_fmap.
  apply merge_data_row in Hr as (Hrev & Hun & Hfe & Hsh & Hre & _).
  simpl. split_and!; try done.
  - intros Hpos. apply Qlt_bool_iff in Hpos. by rewrite Hpos.
  - intros Hneg. destruct (Qlt_bool 0 (revenue r)) eqn:Hb; [|done].
    by apply Qlt_bool_iff in Hb.
  - intros Hpos. apply Qlt_bool_iff in Hpos. by rewrite Hpos.
  - intros Hneg. destruct (Qlt_bool 0 (units r)) eqn:Hb; [|done].
    by apply Qlt_bool_iff in Hb.
Qed.

Lemma C4_witness :
  let row := Scenarios.margin_row_A in
  (contribution_margin row == 530)%Q
  ∧ (contribution_margin_pct row == 53 # 100)%Q
  ∧ (profit_per_unit row == 53)%Q.
Proof.
  destruct (C4_contribution_margin_formula Scenarios.margin_sales
              Scenarios.margin_inventory [] Scenarios.margin_row_A)
    as (_ & _ & _ & _ & _ & _ & _ & Hm & Hpct & _ & Hppu & _).
  - vm_compute. constructor.
  - cbv zeta. rewrite Hpct, Hppu, Hm by reflexivity. by vm_compute.
Defined.
End ContributionMarginFacts.

(** ** Slow movers *)

Section SlowMoverFacts.
Import SlowMoverAnalyzer.

(** Days of supply as the code computes them are finite or [+inf]. *)
Lemma days_of_supply_infinite (days_threshold : Z) (velocity : list velocity_row)
    (r : supply_row) :
  r ∈ _calculate_days_of_supply days_threshold velocity →
  fgtb (units_per_day (velocity_of r)) (Fin 0) = false →
  days_of_supply r = PInf.
Proof.
  unfold _calculate_days_of_supply.
  intros (v & -> & _)%list_elem_of_fmap. simpl. by intros ->.
Qed.

(** C9: every row the slow-mover filter retains (days of supply at least
    the threshold, or infinite) has urgency critical or high, never medium,
    and critical when its days of supply are infinite. *)
Theorem C9_retained_urgency (days_threshold : Z)
    (days_supply : list supply_row) (row : slow_mover_row) :
  row ∈ _identify_slow_movers days_threshold days_supply →
  supply_of row ∈ days_supply
  ∧ (fgeb (days_of_supply (supply_of row)) (threshold days_threshold) = true
     ∨ days_of_supply (supply_of row) = PInf)
  ∧ (urgency row = "critical"%string ∨ urgency row = "high"%string)
  ∧ urgency row ≠ "medium"%string
  ∧ (isinf (days_of_supply (supply_of row)) = true →
     urgency row = "critical"%string).
Proof.
  unfold _identify_slow_movers.
  intros (r & -> & Hr)%list_elem_of_fmap.
  apply elem_of_stable_sort, list_elem_of_filter in Hr as [Hkeep Hr].
  simpl. split; [done|].
  unfold _get_urgency.
  destruct (days_of_supply r) as [d| | |] eqn:Hd; simpl in *.
  - rewrite orb_false_r in Hkeep. rewrite Hkeep.
    split; [by left|].
    destruct (Qle_bool 365 d); split_and!; auto; done.
  - split_and!; auto; done.
  - done.
  - done.
Qed.

Lemma C9_witness :
  let row := Scenarios.slow_mover_S in
  urgency row = "critical"%string ∨ urgency row = "high"%string.
Proof.
  destruct (C9_retained_urgency 180 Scenarios.stock_rows Scenarios.slow_mover_S)
    as (_ & _ & Hurgency & _).
  - vm_compute. repeat constructor.
  - exact Hurgency.
Defined.
End SlowMoverFacts.

(** ** Consolidation of the recommendations *)

Section ConsolidationFacts.
Import PerformanceOptimizer.

(** Where a filtered list splits, the list splits. *)
Lemma filter_split {A} (P : A → Prop) `{!∀ x, Decision (P x)}
    (l : list A) (f1 f2 : list A) (x : A) :
  filter P l = f1 ++ x :: f2 →
  ∃ l1 l2, l = l1 ++ x :: l2 ∧ filter P l1 = f1 ∧ filter P l2 = f2.
Proof.
  revert f1. induction l as [|y l IH]; intros f1 Hf.
  { by destruct f1. }
  rewrite filter_cons in Hf. destruct (decide (P y)) as [Hy|Hy].
  - destruct f1 as [|z f1]; simplify_eq/=.
    + exists [], l. by rewrite filter_nil.
    + destruct (IH f1) as (l1 & l2 & -> & <- & <-); [done|].
      exists (z :: l1), l2. by rewrite filter_cons, decide_True.
  - destruct (IH f1 Hf) as (l1 & l2 & -> & <- & <-).
    exists (y :: l1), l2. by rewrite filter_cons, decide_False.
Qed.

(** Two lists with the same members of a class list them in the same
    order. *)
Lemma precedes_filter {A} (P : A → Prop) `{!∀ x, Decision (P x)}
    (l l' : list A) (x y : A) :
  filter P l = filter P l' → P x → P y →
  precedes x y l → precedes x y l'.
Proof.
  intros Hf Hx Hy (l1 & l2 & l3 & ->).
  rewrite filter_app, filter_cons, decide_True in Hf by done.
  rewrite filter_app, filter_cons, decide_True in Hf by done.
  symmetry in Hf. apply filter_split in Hf as (k1 & k & -> & _ & Hk).
  apply filter_split in Hk as (k2 & k3 & -> & _ & _).
  by exists k1, k2, k3.
Qed.

Lemma all_recommendations_app (items1 items2 : result_items) :
  all_recommendations (items1 ++ items2)
  = all_recommendations items1 ++ all_recommendations items2.
Proof. apply flat_map_app. Qed.

Lemma same_priority_same_key (a b : Recommendation) :
  rec_priority a = rec_priority b → priority_key a = priority_key b.
Proof. unfold priority_key. by intros ->. Qed.

(** The sort key of a recommendation is the rank of its priority:
    critical 0, high 1, medium 2, and 3 for low, for a missing priority and
    for any other value. *)
Lemma priority_key_rank (x : Recommendation) :
  priority_key x
  = if decide (rec_priority x = Some "critical"%string) then 0
    else if decide (rec_priority x = Some "high"%string) then 1
    else if decide (rec_priority x = Some "medium"%string) then 2
    else 3.
Proof.
  unfold priority_key. destruct (rec_priority x) as [p|]; [|done].
  cbn [default].
  destruct (decide (Some p = Some "critical"%string)) as [[= ->]|Hc]; [done|].
  destruct (decide (Some p = Some "high"%string)) as [[= ->]|Hh]; [done|].
  destruct (decide (Some p = Some "medium"%string)) as [[= ->]|Hm]; [done|].
  unfold priority_order. change (id p) with p.
  do 3 (rewrite lookup_insert_ne by congruence).
  destruct (decide (p = "low"%string)) as [->|Hl]; [done|].
  by rewrite lookup_insert_ne, lookup_empty by congruence.
Qed.

(** C7: the consolidated list is the concatenation of the components'
    lists, in emission order, sorted by the rank of the priority: critical
    is 0, high 1, medium 2, low 3 (as is a missing or unknown priority), and
    that rank is the sort key.  In the output no recommendation comes after
    one of a larger rank, so every critical one precedes every high one, and
    so on.  The sort is stable: the recommendations of each rank, and so of
    each priority, keep their emission order, and of two recommendations of
    equal rank one precedes the other in the output exactly when it does in
    the emission order. *)
Theorem C7_consolidation_priority_stable (items : result_items) :
  let emitted := all_recommendations items in
  let consolidated := _consolidate_recommendations items in
  let rank (x : Recommendation) : nat :=
    if decide (rec_priority x = Some "critical"%string) then 0
    else if decide (rec_priority x = Some "high"%string) then 1
    else if decide (rec_priority x = Some "medium"%string) then 2
    else 3 in
  (priority_order !! "critical"%string = Some 0
   ∧ priority_order !! "high"%string = Some 1
   ∧ priority_order !! "medium"%string = Some 2
   ∧ priority_order !! "low"%string = Some 3)
  ∧ (∀ x, priority_key x = rank x)
  ∧ emitted
    = concat (map (λ item, from_option (map (tag item.1)) [] item.2) items)
  ∧ consolidated ≡ₚ emitted
  ∧ StronglySorted (λ a b, rank a ≤ rank b) consolidated
  ∧ (∀ a b, precedes a b consolidated → rank a ≤ rank b)
  ∧ (∀ k, filter (λ x, rank x = k) consolidated
          = filter (λ x, rank x = k) emitted)
  ∧ (∀ p, filter (λ x, rec_priority x = p) consolidated
          = filter (λ x, rec_priority x = p) emitted)
  ∧ (∀ a b, rank a = rank b →
            (precedes a b consolidated ↔ precedes a b emitted)).
Proof.
  intros emitted consolidated rank.
  assert (∀ x, priority_key x = rank x) as Hrank
    by (intros x; apply priority_key_rank).
  unfold consolidated, emitted, _consolidate_recommendations.
  set (leb := λ a b : Recommendation, priority_key a <=? priority_key b).
  assert (∀ k, filter (λ x, rank x = k)
                 (stable_sort leb (all_recommendations items))
               = filter (λ x, rank x = k) (all_recommendations items))
    as Hstable.
  { intros k. apply filter_stable_sort. intros a b Ha Hb.
    apply Nat.leb_le. rewrite !Hrank. lia. }
  assert (StronglySorted (λ a b, rank a ≤ rank b)
            (stable_sort leb (all_recommendations items))) as Hsorted.
  { apply Sorted_StronglySorted; [intros ???; lia|].
    eapply Sorted_ind with (P := Sorted (λ a b, rank a ≤ rank b));
      [constructor| |apply (stable_sort_sorted leb)].
    + intros a l _ IH Hhd. constructor; [done|].
      destruct Hhd as [|b l Hab]; constructor.
      rewrite <- !Hrank. by apply Nat.leb_le.
    + unfold leb. intros a b Hab. apply Nat.leb_le.
      apply Nat.leb_gt in Hab. lia. }
  split_and!; try done.
  - unfold all_recommendations. by rewrite flat_map_concat_map.
  - apply stable_sort_perm.
  - intros a b (l1 & l2 & l3 & Hsplit). rewrite Hsplit in Hsorted.
    clear -Hsorted. induction l1 as [|x l1 IH]; simpl in Hsorted.
    + apply StronglySorted_inv in Hsorted as [_ Hall].
      apply (proj1 (Forall_forall _ _) Hall).
      apply elem_of_app. right. apply elem_of_cons. by left.
    + apply StronglySorted_inv in Hsorted as [Hsorted _]. by apply IH.
  - intros p. apply filter_stable_sort. intros a b Ha Hb.
    apply Nat.leb_le.
    assert (priority_key a = priority_key b) as Hkey
      by (apply same_priority_same_key; congruence).
    lia.
  - intros a b Hab. split.
    + apply (precedes_filter (λ x, rank x = rank a));
        [apply Hstable|done|done].
    + apply (precedes_filter (λ x, rank x = rank a));
        [symmetry; apply Hstable|done|done].
Qed.

Lemma C7_witness :
  let consolidated := _consolidate_recommendations Scenarios.emitted_items in
  rec_action <$> consolidated
  = ["c1"; "c2"; "h1"; "m1"; "l1"; "n1"; "u1"]%string
  ∧ rec_priority <$> consolidated
    = [Some "critical"; Some "critical"; Some "high"; Some "medium";
       Some "low"; None; Some "urgent"]%string
  ∧ source_analysis <$> consolidated
    = [Some "sku_rationalization"; Some "slow_mover_detection";
       Some "slow_mover_detection"; Some "slow_mover_detection";
       Some "sku_rationalization"; Some "sku_rationalization";
       Some "slow_mover_detection"]%string
  ∧ filter (λ x, rec_priority x = Some "critical"%string) consolidated
    = filter (λ x, rec_priority x = Some "critical"%string)
             (all_recommendations Scenarios.emitted_items).
Proof.
  destruct (C7_consolidation_priority_stable Scenarios.emitted_items)
    as (_ & _ & _ & _ & _ & _ & _ & Hpriority & _).
  split_and!.
  - reflexivity.
  - reflexivity.
  - reflexivity.
  - apply Hpriority.
Defined.
End ConsolidationFacts.

(** ** New product scoring *)

Section NewProductScoringFacts.
Import NewProductScoringAnalyzer.

(** Against a positive p75 the capped ratio is a number, at most 1, and 0
    for a quantity of 0. *)
Lemma capped_ratio_finite (x : Q) (p75 : float) :
  fgtb p75 (Fin 0) = true →
  ∃ v, py_min (fdiv (Fin x) p75) (Fin 1) = Fin v
       ∧ (v <= 1)%Q ∧ ((x == 0)%Q → (v == 0)%Q).
Proof.
  intros Hp75. destruct p75 as [p| | |]; try done.
  - apply fgtb_finite in Hp75.
    unfold fdiv. destruct (Qeq_bool p 0) eqn:Hp0.
    { apply Qeq_bool_iff in Hp0. lra. }
    unfold py_min, fltb. destruct (Qlt_bool 1 (x / p)) eqn:Hlt.
    + exists 1%Q. split_and!; [done|lra|].
      intros Hx. apply Qlt_bool_iff in Hlt. rewrite Hx in Hlt.
      unfold Qdiv in Hlt. rewrite Qmult_0_l in Hlt. lra.
    + exists (x / p)%Q. split_and!; [done| |].
      * destruct (Qlt_le_dec 1 (x / p)) as [Hgt|]; [|done].
        apply Qlt_bool_iff in Hgt. congruence.
      * intros ->. unfold Qdiv. apply Qmult_0_l.
  - exists 0%Q. split_and!; [done|lra|done].
Qed.

(** A score never exceeds 1. *)
Lemma score_against_le_1 (x : Q) (p50 p75 : float) :
  fleb (score_against x p50 p75) (Fin 1) = true.
Proof.
  unfold score_against.
  destruct (fgtb p50 (Fin 0)); [|done].
  destruct (fgtb p75 (Fin 0)) eqn:Hp75; [|done].
  destruct (capped_ratio_finite x p75 Hp75) as (v & -> & Hv & _).
  by apply Qle_bool_iff.
Qed.

(** The entries of [sku_scores] are the window scores, one per window. *)
Lemma score_sku_window (windows : list Z) (all : list window_row)
    (benchmarks : gmap Z bench) (sku : string) (window : Z) :
  window ∈ windows →
  sc_windows (score_sku windows all benchmarks sku) !! window
  = Some (score_window all benchmarks sku window).
Proof.
  unfold score_sku. simpl.
  generalize (∅ : gmap Z window_entry).
  induction windows as [|w ws IH] using rev_ind; intros d Hin.
  { by apply elem_of_nil in Hin. }
  rewrite foldl_app. simpl.
  destruct (decide (w = window)) as [->|Hne].
  - apply lookup_insert_eq.
  - rewrite lookup_insert_ne by done. apply IH.
    apply elem_of_app in Hin as [?|Hin]; [done|].
    apply list_elem_of_singleton in Hin. congruence.
Qed.

(** C5, as the code has it: for every sku and window, with the actual
    revenue and units those of the sku's row in the window aggregate,
    revenue_score is min(actual_revenue / p75, 1.0) when both the p50 and
    the p75 revenue benchmarks of the window are positive, and 0 when
    either is zero, negative or undefined; likewise units_score; neither
    score exceeds 1; and both are 0 when the sku has no sales in the
    window.  The score is the very float the formula yields when the sku has
    a row in the window, and equal to it as a number in every case. *)
Theorem C5_scores_need_both_benchmarks (all : list window_row)
    (benchmarks : gmap Z bench) (sku : string) (window : Z) :
  let entry := score_window all benchmarks sku window in
  let rows := filter (λ r, w_sku r = sku ∧ w_window r = window) all in
  let p50 := from_option revenue_p50 (Fin 0) (benchmarks !! window) in
  let p75 := from_option revenue_p75 (Fin 0) (benchmarks !! window) in
  let u50 := from_option units_p50 (Fin 0) (benchmarks !! window) in
  let u75 := from_option units_p75 (Fin 0) (benchmarks !! window) in
  e_revenue entry = from_option w_revenue 0%Q (head rows)
  ∧ e_units entry = from_option w_units 0%Q (head rows)
  ∧ (rows ≠ [] → fgtb p50 (Fin 0) = true → fgtb p75 (Fin 0) = true →
     e_revenue_score entry = py_min (fdiv (Fin (e_revenue entry)) p75) (Fin 1))
  ∧ (fgtb p50 (Fin 0) = false ∨ fgtb p75 (Fin 0) = false →
     e_revenue_score entry = Fin 0)
  ∧ (rows ≠ [] → fgtb u50 (Fin 0) = true → fgtb u75 (Fin 0) = true →
     e_units_score entry = py_min (fdiv (Fin (e_units entry)) u75) (Fin 1))
  ∧ (fgtb u50 (Fin 0) = false ∨ fgtb u75 (Fin 0) = false →
     e_units_score entry = Fin 0)
  ∧ (rows = [] → e_revenue_score entry = Fin 0 ∧ e_units_score entry = Fin 0)
  ∧ (fgtb p50 (Fin 0) = true → fgtb p75 (Fin 0) = true →
     feqb (e_revenue_score entry)
          (py_min (fdiv (Fin (e_revenue entry)) p75) (Fin 1)) = true)
  ∧ (fgtb u50 (Fin 0) = true → fgtb u75 (Fin 0) = true →
     feqb (e_units_score entry)
          (py_min (fdiv (Fin (e_units entry)) u75) (Fin 1)) = true)
  ∧ fleb (e_revenue_score entry) (Fin 1) = true
  ∧ fleb (e_units_score entry) (Fin 1) = true.
Proof.
  cbv zeta. unfold score_window.
  destruct (filter _ all) as [|r rows];
    cbn [e_revenue e_units e_revenue_score e_units_score head from_option].
  - split_and!; try done.
    + intros _ H75.
      destruct (capped_ratio_finite 0 _ H75) as (v & -> & _ & Hv).
      apply Qeq_bool_iff. by rewrite Hv.
    + intros _ H75.
      destruct (capped_ratio_finite 0 _ H75) as (v & -> & _ & Hv).
      apply Qeq_bool_iff. by rewrite Hv.
  - split_and!; try done.
    + intros _ H50 H75. unfold score_against. by rewrite H50, H75.
    + intros [H|H]; unfold score_against; rewrite H; [done|].
      by destruct (fgtb (from_option revenue_p50 _ _) _).
    + intros _ H50 H75. unfold score_against. by rewrite H50, H75.
    + intros [H|H]; unfold score_against; rewrite H; [done|].
      by destruct (fgtb (from_option units_p50 _ _) _).
    + intros H50 H75. unfold score_against. rewrite H50, H75.
      destruct (capped_ratio_finite (w_revenue r) _ H75) as (v & -> & _).
      by apply Qeq_bool_iff.
    + intros H50 H75. unfold score_against. rewrite H50, H75.
      destruct (capped_ratio_finite (w_units r) _ H75) as (v & -> & _).
      by apply Qeq_bool_iff.
    + apply score_against_le_1.
    + apply score_against_le_1.
Qed.

Lemma C5_witness :
  let entry :=
    score_window Scenarios.window_rows Scenarios.window_benchmarks "N" 30 in
  e_revenue_score entry = py_min (fdiv (Fin (e_revenue entry)) (Fin 8)) (Fin 1).
Proof.
  destruct (C5_scores_need_both_benchmarks Scenarios.window_rows
              Scenarios.window_benchmarks "N" 30)
    as (_ & _ & Hscore & _).
  apply Hscore.
  - vm_compute. discriminate.
  - reflexivity.
  - reflexivity.
Defined.

(** C5 as stated fails: in the 30-day window of the launch scenario the p75
    revenue benchmark is 5, positive, and the new product's revenue is 20,
    so min(actual / p75, 1.0) is 1; but the p50 benchmark is 0, and the code
    scores the product 0. *)
Lemma C5_counterexample :
  match _identify_new_products [30; 60; 90]%Z
          Scenarios.launch_products Scenarios.launch_now with
  | Ok new_products =>
      let benchmarks :=
        _calculate_benchmarks [30; 60; 90]%Z
          Scenarios.launch_sales Scenarios.launch_products in
      let entry :=
        score_window
          (all_window_scores [30; 60; 90]%Z new_products Scenarios.launch_sales)
          benchmarks "N" 30 in
      match benchmarks !! 30%Z with
      | Some b =>
          (p_sku ∘ info) <$> new_products = ["N"%string]
          ∧ feqb (revenue_p50 b) (Fin 0) = true
          ∧ feqb (revenue_p75 b) (Fin 5) = true
          ∧ fgtb (revenue_p75 b) (Fin 0) = true
          ∧ e_revenue entry = 20%Q
          ∧ feqb (py_min (fdiv (Fin (e_revenue entry)) (revenue_p75 b)) (Fin 1))
                 (Fin 1) = true
          ∧ e_revenue_score entry = Fin 0
          ∧ feqb (e_revenue_score entry)
                 (py_min (fdiv (Fin (e_revenue entry)) (revenue_p75 b)) (Fin 1))
            = false
      | None => False
      end
  | Raise _ => False
  end.
Proof. vm_compute. by repeat split. Qed.
End NewProductScoringFacts.

(** ** The status overlay *)

Section StatusFacts.
Import PerformanceOptimizer.

Lemma escalate_comm (r1 r2 : rule) (s : Status) :
  escalate r1 (escalate r2 s) = escalate r2 (escalate r1 s).
Proof. by destruct r1, r2, s. Qed.

Lemma escalate_severity (r : rule) (s : Status) :
  severity s ≤ severity (escalate r s).
Proof. destruct r, s; simpl; lia. Qed.

Lemma escalate_red (r : rule) : escalate r red = red.
Proof. by destruct r. Qed.

(** Each loop body changes the status of its sku by [escalate], and
    nothing else. *)
Lemma status_at_apply_rule (m : gmap string StatusEntry) (a : rule * string)
    (sku : string) :
  status_at (apply_rule m a) sku = (λ s, escalate_at sku s a) <$> status_at m sku.
Proof.
  destruct a as [r k]. unfold status_at, apply_rule, escalate_at. simpl.
  destruct (decide (k = sku)) as [->|Hne].
  - destruct r; simpl;
      unfold mark_zombie, mark_money_loser, mark_critical_slow_mover,
        mark_underperformer;
      destruct (m !! sku) as [e|] eqn:He; simpl; rewrite ?He; try done;
      try (by rewrite lookup_insert_eq).
    + rewrite lookup_insert_eq. simpl. by destruct (decide (status e ≠ red)).
    + destruct (decide (status e = green)).
      * by rewrite lookup_insert_eq.
      * by rewrite He.
  - destruct r; simpl;
      unfold mark_zombie, mark_money_loser, mark_critical_slow_mover,
        mark_underperformer;
      destruct (m !! k) as [e|] eqn:He; simpl;
      try destruct (decide (status e = green));
      rewrite ?lookup_insert_ne by done; by destruct (m !! sku).
Qed.

Lemma status_at_foldl (l : list (rule * string)) (m : gmap string StatusEntry)
    (sku : string) :
  status_at (foldl apply_rule m l) sku
  = (λ s, foldl (escalate_at sku) s l) <$> status_at m sku.
Proof.
  revert m. induction l as [|a l IH]; intros m; simpl.
  { by destruct (status_at m sku). }
  rewrite IH, status_at_apply_rule. by destruct (status_at m sku).
Qed.

(** The order of the applications does not matter to a status. *)
Lemma foldl_escalate_at_perm (sku : string) (l l' : list (rule * string))
    (s : Status) :
  l ≡ₚ l' → foldl (escalate_at sku) s l = foldl (escalate_at sku) s l'.
Proof.
  intros Hp. revert s.
  induction Hp as [|a l l' _ IH|a b l|l1 l2 l3 _ IH1 _ IH2]; intros s; simpl.
  - done.
  - apply IH.
  - f_equal. unfold escalate_at.
    destruct (decide (a.2 = sku)), (decide (b.2 = sku)); try done.
    apply escalate_comm.
  - by rewrite IH1.
Qed.

Lemma foldl_escalate_at_severity (sku : string) (l : list (rule * string))
    (s : Status) :
  severity s ≤ severity (foldl (escalate_at sku) s l).
Proof.
  revert s. induction l as [|a l IH]; intros s; simpl; [done|].
  etrans; [|apply IH]. unfold escalate_at.
  destruct (decide _); [apply escalate_severity | done].
Qed.

Lemma foldl_escalate_at_red (sku : string) (l : list (rule * string)) :
  foldl (escalate_at sku) red l = red.
Proof.
  induction l as [|a l IH]; simpl; [done|].
  unfold escalate_at at 2. destruct (decide _); by rewrite ?escalate_red.
Qed.

Lemma foldl_escalate_at_to_red (sku : string) (l : list (rule * string))
    (s : Status) (r : rule) :
  (r, sku) ∈ l → escalate r green = red →
  foldl (escalate_at sku) s l = red.
Proof.
  intros Hin Hr. revert s.
  induction l as [|a l IH]; intros s; [by apply elem_of_nil in Hin|].
  apply elem_of_cons in Hin as [<-|Hin]; simpl; [|by apply IH].
  unfold escalate_at at 2. simpl. rewrite decide_True by done.
  replace (escalate r s) with red by (by destruct r, s).
  apply foldl_escalate_at_red.
Qed.

Lemma foldl_escalate_at_untouched (sku : string) (l : list (rule * string))
    (s : Status) :
  (∀ r, (r, sku) ∉ l) → foldl (escalate_at sku) s l = s.
Proof.
  revert s. induction l as [|[r k] l IH]; intros s Hnone; simpl; [done|].
  unfold escalate_at at 2. simpl. rewrite decide_False.
  - apply IH. intros r' Hin. apply (Hnone r'). by right.
  - intros ->. apply (Hnone r). by left.
Qed.

Lemma foldl_escalate_at_stays_yellow (sku : string) (l : list (rule * string)) :
  (∀ r, (r, sku) ∈ l → escalate r green = yellow) →
  foldl (escalate_at sku) yellow l = yellow.
Proof.
  induction l as [|[r k] l IH]; intros Hall; simpl; [done|].
  assert (∀ r', (r', sku) ∈ l → escalate r' green = yellow) as Hall'.
  { intros r' Hr'. apply Hall. by right. }
  unfold escalate_at at 2. simpl. destruct (decide (k = sku)) as [->|].
  - replace (escalate r yellow) with yellow; [by apply IH|].
    pose proof (Hall r ltac:(by left)). by destruct r.
  - by apply IH.
Qed.

Lemma foldl_escalate_at_to_yellow (sku : string) (l : list (rule * string))
    (s : Status) (r : rule) :
  (r, sku) ∈ l → s ≠ red →
  (∀ r', (r', sku) ∈ l → escalate r' green = yellow) →
  foldl (escalate_at sku) s l = yellow.
Proof.
  intros Hin Hs. revert s Hs.
  induction l as [|[r0 k] l IH]; intros s Hs Hall;
    [by apply elem_of_nil in Hin|].
  assert (∀ r', (r', sku) ∈ l → escalate r' green = yellow) as Hall'.
  { intros r' Hr'. apply Hall. by right. }
  simpl. unfold escalate_at at 2. simpl.
  destruct (decide (k = sku)) as [->|Hne].
  - replace (escalate r0 s) with yellow;
      [by apply foldl_escalate_at_stays_yellow|].
    pose proof (Hall r0 ltac:(by left)). by destruct r0, s.
  - apply elem_of_cons in Hin as [[= -> ->]|Hin]; [done|]. by apply IH.
Qed.

(** The four loops are the fold of the rules over their applications. *)
Lemma apply_status_rules_fold (r : results) :
  apply_status_rules r
  = foldl apply_rule (initial_status_map r) (rule_applications r).
Proof.
  unfold apply_status_rules, rule_applications.
  rewrite !foldl_app, !foldl_fmap. done.
Qed.

Lemma initial_status_map_lookup (r : results) (sku : string) :
  initial_status_map r !! sku
  = if decide (sku ∈ all_skus r) then Some (initial_entry sku) else None.
Proof.
  unfold initial_status_map. destruct (decide _) as [Hin|Hout].
  - apply lookup_set_to_map; [by intros y y' _ _ ?|]. by exists sku.
  - apply eq_None_not_Some. intros [x Hx].
    apply lookup_set_to_map in Hx as (y & Hy & [= -> _]); [done|].
    by intros y y' _ _ ?.
Qed.

(** Attaching the recommendations leaves every status as it is. *)
Lemma status_at_attach_recommendation (skus : gset string)
    (m : gmap string StatusEntry) (rec : Recommendation) (sku : string) :
  status_at (attach_recommendation skus m rec) sku = status_at m sku.
Proof.
  unfold attach_recommendation. destruct (contains _ _); [|done].
  apply (set_fold_ind_L (λ m' _, status_at m' sku = status_at m sku)); [done|].
  intros x X m' _ IH. destruct (contains _ _); [|done].
  rewrite <- IH. unfold status_at. rewrite lookup_alter.
  destruct (decide (x = sku)) as [->|]; [|done].
  by destruct (m' !! sku).
Qed.

Lemma status_at_final (r : results) (sku : string) :
  status_at (_generate_traffic_light_status r) sku
  = status_at (apply_status_rules r) sku.
Proof.
  unfold _generate_traffic_light_status.
  generalize (apply_status_rules r).
  induction (consolidated_recommendations r) as [|rec recs IH]; intros m;
    simpl; [done|].
  by rewrite IH, status_at_attach_recommendation.
Qed.

Lemma elem_of_rule_applications (r : results) (a : rule) (sku : string) :
  (a, sku) ∈ rule_applications r ↔
  match a with
  | Zombie => sku ∈ default [] (sku_rationalization r)
  | MoneyLoser => sku ∈ default [] (contribution_margin r)
  | CriticalSlowMover => sku ∈ critical_slow_movers r
  | Underperformer => sku ∈ default [] (new_product_scoring r)
  end.
Proof.
  unfold rule_applications. rewrite !elem_of_app, !list_elem_of_fmap.
  split.
  - intros [(k & [= -> ->] & Hk)|[(k & [= -> ->] & Hk)|
            [(k & [= -> ->] & Hk)|(k & [= -> ->] & Hk)]]]; done.
  - destruct a; intros Hk;
      [left|right; left|right; right; left|right; right; right];
      by exists sku.
Qed.

(** The critical slow movers are the skus of the rows of the slow-mover
    table whose urgency is "critical". *)
Lemma elem_of_critical_slow_movers (r : results) (sku : string) :
  sku ∈ critical_slow_movers r
  ↔ (sku, "critical"%string) ∈ default [] (slow_mover_detection r).
Proof.
  unfold critical_slow_movers. rewrite list_elem_of_fmap. split.
  - intros ([k u] & -> & [Hu Hin]%list_elem_of_filter).
    simpl in Hu. by subst u.
  - intros Hin. exists (sku, "critical"%string). split; [done|].
    by apply list_elem_of_filter.
Qed.

(** C6: during consolidation a status only escalates (red > yellow > green).
    Applied to a sku of the map, the zombie rule and the critical slow mover
    rule set red; the money-loser rule sets yellow unless the status is
    red, which it keeps; the underperformer rule sets yellow when the status
    is green and leaves it otherwise.  No application lowers a status, the
    code is the application of the rules in its fixed order, one zombie rule
    per zombie row, one critical slow mover rule per row of the slow-mover
    table of urgency "critical" and none for a row of another urgency, and
    applying the same applications in any other order yields the same status
    for every sku: red for a zombie or a slow mover of urgency "critical",
    else yellow for a money loser or an underperformer, else green. *)
Theorem C6_status_only_escalates (r : results) :
  let final := _generate_traffic_light_status r in
  let zombies := default [] (sku_rationalization r) in
  let losers := default [] (contribution_margin r) in
  let slow_movers := default [] (slow_mover_detection r) in
  let underperformers := default [] (new_product_scoring r) in
  (∀ m sku s, status_at m sku = Some s →
     status_at (mark_zombie m sku) sku = Some red
     ∧ status_at (mark_critical_slow_mover m sku) sku = Some red
     ∧ status_at (mark_money_loser m sku) sku
       = Some (if decide (s = red) then red else yellow)
     ∧ status_at (mark_underperformer m sku) sku
       = Some (if decide (s = green) then yellow else s))
  ∧ (∀ m a sku s, status_at m sku = Some s →
       ∃ s', status_at (apply_rule m a) sku = Some s'
             ∧ severity s ≤ severity s')
  ∧ (∀ a sku, (a, sku) ∈ rule_applications r ↔
       match a with
       | Zombie => sku ∈ zombies
       | MoneyLoser => sku ∈ losers
       | CriticalSlowMover => (sku, "critical"%string) ∈ slow_movers
       | Underperformer => sku ∈ underperformers
       end)
  ∧ (∀ sku, status_at final sku
            = status_at (foldl apply_rule (initial_status_map r)
                               (rule_applications r)) sku)
  ∧ (∀ applications sku, applications ≡ₚ rule_applications r →
       status_at (foldl apply_rule (initial_status_map r) applications) sku
       = status_at final sku)
  ∧ (∀ sku, sku ∈ all_skus r →
       (sku ∈ zombies ∨ (sku, "critical"%string) ∈ slow_movers →
        status_at final sku = Some red)
       ∧ (sku ∉ zombies → (sku, "critical"%string) ∉ slow_movers →
          sku ∈ losers ∨ sku ∈ underperformers →
          status_at final sku = Some yellow)
       ∧ (sku ∉ zombies → (sku, "critical"%string) ∉ slow_movers →
          sku ∉ losers → sku ∉ underperformers →
          status_at final sku = Some green)).
Proof.
  cbv zeta.
  assert (∀ sku, status_at (_generate_traffic_light_status r) sku
                 = status_at (foldl apply_rule (initial_status_map r)
                                    (rule_applications r)) sku) as Hfold.
  { intros sku. by rewrite status_at_final, apply_status_rules_fold. }
  split_and!.
  - intros m sku s Hs.
    pose proof (status_at_apply_rule m (Zombie, sku) sku) as Hz.
    pose proof (status_at_apply_rule m (CriticalSlowMover, sku) sku) as Hc.
    pose proof (status_at_apply_rule m (MoneyLoser, sku) sku) as Hl.
    pose proof (status_at_apply_rule m (Underperformer, sku) sku) as Hu.
    unfold apply_rule, escalate_at in Hz, Hc, Hl, Hu.
    rewrite Hs in Hz, Hc, Hl, Hu. simpl in Hz, Hc, Hl, Hu.
    rewrite decide_True in Hz, Hc, Hl, Hu by done.
    rewrite Hz, Hc, Hl, Hu. split_and!; try done.
    by destruct s.
  - intros m a sku s Hs. rewrite status_at_apply_rule, Hs. simpl.
    eexists. split; [done|]. unfold escalate_at.
    destruct (decide _); [apply escalate_severity|done].
  - intros a sku. rewrite elem_of_rule_applications.
    destruct a; try done. apply elem_of_critical_slow_movers.
  - done.
  - intros applications sku Hperm.
    rewrite Hfold, !status_at_foldl.
    destruct (status_at (initial_status_map r) sku) as [s|]; simpl; [|done].
    f_equal. by apply foldl_escalate_at_perm.
  - intros sku Hsku.
    assert (status_at (_generate_traffic_light_status r) sku
            = Some (foldl (escalate_at sku) green (rule_applications r)))
      as ->.
    { rewrite Hfold, status_at_foldl. unfold status_at.
      by rewrite initial_status_map_lookup, decide_True. }
    rewrite <- !elem_of_critical_slow_movers.
    split_and!.
    + intros [Hz|Hc]; f_equal.
      * apply (foldl_escalate_at_to_red sku _ _ Zombie); [|done].
        by apply elem_of_rule_applications.
      * apply (foldl_escalate_at_to_red sku _ _ CriticalSlowMover); [|done].
        by apply elem_of_rule_applications.
    + intros Hz Hc Hyellow. f_equal.
      assert (∀ r', (r', sku) ∈ rule_applications r →
                    escalate r' green = yellow) as Hall.
      { intros r' Hr'. apply elem_of_rule_applications in Hr'.
        by destruct r'. }
      destruct Hyellow as [Hl|Hu].
      * apply (foldl_escalate_at_to_yellow sku _ _ MoneyLoser); [|done..].
        by apply elem_of_rule_applications.
      * apply (foldl_escalate_at_to_yellow sku _ _ Underperformer); [|done..].
        by apply elem_of_rule_applications.
    + intros Hz Hc Hl Hu. f_equal.
      apply foldl_escalate_at_untouched.
      intros r' Hr'. apply elem_of_rule_applications in Hr'. by destruct r'.
Qed.

Lemma C6_witness :
  let final := _generate_traffic_light_status Scenarios.overlay in
  status_at final "A" = Some red
  ∧ status_at final "B" = Some yellow
  ∧ status_at final "C" = Some red
  ∧ status_at final "D" = Some yellow
  ∧ status_at final "E" = Some green.
Proof.
  destruct (C6_status_only_escalates Scenarios.overlay)
    as (_ & _ & _ & _ & _ & Hfinal).
  split_and!.
  - destruct (Hfinal "A"%string) as (Hred & _ & _).
    + by_evaluation.
    + apply Hred. left. by_evaluation.
  - destruct (Hfinal "B"%string) as (_ & Hyellow & _).
    + by_evaluation.
    + apply Hyellow.
      * by_evaluation.
      * by_evaluation.
      * left. by_evaluation.
  - destruct (Hfinal "C"%string) as (Hred & _ & _).
    + by_evaluation.
    + apply Hred. right. by_evaluation.
  - destruct (Hfinal "D"%string) as (_ & Hyellow & _).
    + by_evaluation.
    + apply Hyellow.
      * by_evaluation.
      * by_evaluation.
      * right. by_evaluation.
  - destruct (Hfinal "E"%string) as (_ & _ & Hgreen).
    + by_evaluation.
    + apply Hgreen; by_evaluation.
Defined.
End StatusFacts.

(** * Further properties of the analyzers *)

(** ** Keys, groups and joins *)

Lemma elem_of_unique (l : list string) (x : string) : x ∈ unique l ↔ x ∈ l.
Proof.
  induction l as [|a l IH]; simpl; [done|].
  rewrite !elem_of_cons, list_elem_of_filter, IH.
  destruct (decide (x = a)); naive_solver.
Qed.

Lemma NoDup_unique (l : list string) : NoDup (unique l).
Proof.
  induction l as [|a l IH]; simpl; [constructor|].
  apply NoDup_cons. split; [|by apply NoDup_filter].
  by intros [? _]%list_elem_of_filter.
Qed.

Lemma elem_of_group_keys (l : list string) (x : string) :
  x ∈ group_keys l ↔ x ∈ l.
Proof. unfold group_keys. by rewrite elem_of_stable_sort, elem_of_unique. Qed.

Lemma NoDup_group_keys (l : list string) : NoDup (group_keys l).
Proof.
  unfold group_keys. rewrite stable_sort_perm. apply NoDup_unique.
Qed.

(** A table keyed without duplicates matches a key at most once. *)
Lemma filter_key_unique {R} (key : R → string) (k : string) (right : list R) :
  NoDup (key <$> right) →
  length (filter (λ r, key r = k) right) ≤ 1.
Proof.
  induction right as [|r right IH]; [simpl; lia|].
  rewrite fmap_cons, NoDup_cons. intros [Hr Hnd].
  rewrite filter_cons. destruct (decide (key r = k)) as [<-|]; [|by apply IH].
  assert (filter (λ r', key r' = key r) right = []) as ->; [|simpl; lia].
  apply elem_of_nil_inv. intros r' [Hk Hr']%list_elem_of_filter.
  apply Hr. rewrite <- Hk. by apply list_elem_of_fmap_2.
Qed.

(** A left join against such a table keeps the left rows, one for one. *)
Lemma merge_left_unique {L R O} (key_l : L → string) (key_r : R → string)
    (join : L → option R → O) (proj : O → L) (left : list L) (right : list R) :
  NoDup (key_r <$> right) →
  (∀ l o, proj (join l o) = l) →
  proj <$> merge_left key_l key_r join left right = left.
Proof.
  intros Hnd Hproj. unfold merge_left.
  induction left as [|l left IH]; [done|].
  cbn [flat_map]. rewrite fmap_app, IH.
  pose proof (filter_key_unique key_r (key_l l) right Hnd) as Hlen.
  destruct (filter _ right) as [|m [|m' ms]]; simpl in *;
    rewrite ?Hproj; [done|done|lia].
Qed.

Lemma Sorted_weaken {A} (R1 R2 : A → A → Prop) (l : list A) :
  (∀ a b, R1 a b → R2 a b) → Sorted R1 l → Sorted R2 l.
Proof.
  intros Himpl. induction 1 as [|a l _ IH Hhd]; constructor; [done|].
  destruct Hhd; constructor; auto.
Qed.

(** Against such a table the join is a lookup. *)
Lemma merge_left_lookup {L R O} (key_l : L → string) (key_r : R → string)
    (join : L → option R → O) (left : list L) (right : list R) :
  NoDup (key_r <$> right) →
  merge_left key_l key_r join left right
  = map (λ l, join l (head (filter (λ r, key_r r = key_l l) right))) left.
Proof.
  intros Hnd. unfold merge_left.
  induction left as [|l left IH]; [done|].
  cbn [flat_map]. rewrite IH. cbn [map].
  pose proof (filter_key_unique key_r (key_l l) right Hnd) as Hlen.
  destruct (filter _ right) as [|m [|m' ms]]; [done|done|simpl in Hlen; lia].
Qed.

(** The rows of a [groupby] summary with a given key: the group's row, if
    the key occurs. *)
Lemma filter_group_row {R} (key : R → string) (f : string → R)
    (ks : list string) (k : string) :
  NoDup ks → (∀ k', key (f k') = k') →
  filter (λ r, key r = k) (map f ks) = if decide (k ∈ ks) then [f k] else [].
Proof.
  intros Hnd Hkey. induction Hnd as [|a ks Ha Hnd IH]; [done|].
  cbn [map]. rewrite filter_cons, Hkey, IH.
  destruct (decide (a = k)) as [->|Hne], (decide (k ∈ ks)) as [Hin|Hin],
    (decide (k ∈ _ :: ks)) as [Hin'|Hin'];
    try done; rewrite elem_of_cons in Hin'; naive_solver.
Qed.

(** ** CannibalizationAnalyzer: the overlap matrix and the retained pairs *)

Section CannibalizationCoverage.
Import CannibalizationAnalyzer.

Lemma combinations2_elem {A} (l : list A) (x y : A) :
  (x, y) ∈ combinations2 l → x ∈ l ∧ y ∈ l.
Proof.
  intros (l1 & l2 & l3 & ->)%combinations2_precedes.
  rewrite !elem_of_app, !elem_of_cons, !elem_of_app, !elem_of_cons.
  naive_solver.
Qed.

Lemma combinations2_cons_elem {A} (a : A) (l : list A) (x y : A) :
  (x, y) ∈ combinations2 (a :: l) ↔
  (x = a ∧ y ∈ l) ∨ (x, y) ∈ combinations2 l.
Proof.
  simpl. rewrite elem_of_app, list_elem_of_fmap. naive_solver.
Qed.

Lemma combinations2_irrefl {A} (l : list A) (x : A) :
  NoDup l → (x, x) ∉ combinations2 l.
Proof.
  induction 1 as [|a l Ha _ IH]; [by intros ?%elem_of_nil|].
  rewrite combinations2_cons_elem. intros [[-> ?]|?]; done.
Qed.

Lemma combinations2_asym {A} (l : list A) (x y : A) :
  NoDup l → (x, y) ∈ combinations2 l → (y, x) ∉ combinations2 l.
Proof.
  induction 1 as [|a l Ha _ IH]; [by intros ?%elem_of_nil|].
  rewrite !combinations2_cons_elem.
  intros [[-> Hy]|Hxy] [[-> Hx]|Hyx]; try done.
  - by apply combinations2_elem in Hyx as [_ ?].
  - by apply combinations2_elem in Hxy as [_ ?].
  - by apply IH in Hxy.
Qed.

Lemma NoDup_combinations2 {A} (l : list A) :
  NoDup l → NoDup (combinations2 l).
Proof.
  induction 1 as [|a l Ha Hnd IH]; simpl; [constructor|].
  apply NoDup_app. split; [|split; [|done]].
  - apply NoDup_fmap_2; [|done]. by intros ?? [= ->].
  - intros [x y] (z & [= -> ->] & Hz)%list_elem_of_fmap Hin.
    by apply combinations2_elem in Hin as [? _].
Qed.

(** A row of the overlap matrix is the overlap of its pair of skus. *)
Lemma overlap_matrix_row (data : list PurchaseEvent) (row : overlap_row) :
  row ∈ frame_rows (_calculate_overlap_matrix data) →
  (sku1 row, sku2 row) ∈ combinations2 (unique (map pe_sku data))
  ∧ overlap_of (customer_skus data) (sku1 row, sku2 row) = Some row.
Proof.
  unfold _calculate_overlap_matrix.
  destruct data as [|e data]; [by intros ?%elem_of_nil|].
  set (skus := unique (map pe_sku (e :: data))).
  set (cs := customer_skus (e :: data)).
  assert (frame_rows (DataFrame (omap (overlap_of cs) (combinations2 skus)))
          = omap (overlap_of cs) (combinations2 skus)) as ->.
  { by destruct (omap _ _). }
  intros ([x y] & Hp & Hrow)%list_elem_of_omap.
  assert (sku1 row = x ∧ sku2 row = y) as [-> ->].
  { unfold overlap_of in Hrow. repeat case_bool_decide; by simplify_eq/=. }
  done.
Qed.

Lemma overlap_matrix_pairs_sublist (data : list PurchaseEvent) :
  (λ r, (sku1 r, sku2 r)) <$> frame_rows (_calculate_overlap_matrix data)
  `sublist_of` combinations2 (unique (map pe_sku data)).
Proof.
  unfold _calculate_overlap_matrix.
  destruct data as [|e data]; [apply sublist_nil_l|].
  set (skus := unique (map pe_sku (e :: data))).
  set (cs := customer_skus (e :: data)).
  assert (frame_rows (DataFrame (omap (overlap_of cs) (combinations2 skus)))
          = omap (overlap_of cs) (combinations2 skus)) as ->.
  { by destruct (omap _ _). }
  induction (combinations2 skus) as [|[x y] ps IH]; simpl; [done|].
  destruct (overlap_of cs (x, y)) as [row|] eqn:Hrow; simpl.
  - assert (sku1 row = x ∧ sku2 row = y) as [-> ->].
    { unfold overlap_of in Hrow. repeat case_bool_decide; by simplify_eq/=. }
    by apply sublist_skip.
  - by apply sublist_cons.
Qed.

(** The customers for whom [customer_skus] records a sku are the
    customers of the purchase events of that sku. *)
Lemma customer_skus_spec (data : list PurchaseEvent) (c sku : string) :
  (∃ S, customer_skus data !! c = Some S ∧ sku ∈ S)
  ↔ ∃ e, e ∈ data ∧ pe_customer_id e = c ∧ pe_sku e = sku.
Proof.
  induction data as [|e data IH]; simpl.
  - split; [intros (S & HS & _); by rewrite lookup_empty in HS|].
    by intros (e & ?%elem_of_nil & _).
  - destruct (decide (pe_customer_id e = c)) as [Hc|Hc].
    + rewrite Hc, lookup_insert_eq. split.
      * intros (S & [= <-] & [->%elem_of_singleton|HS]%elem_of_union).
        { exists e. by rewrite elem_of_cons; auto. }
        destruct (proj1 IH) as (e' & ? & ? & ?).
        { destruct (customer_skus data !! c) as [S'|]; simpl in HS;
            [by exists S'|by apply elem_of_empty in HS]. }
        exists e'. by rewrite elem_of_cons; auto.
      * intros (e' & [->|He']%elem_of_cons & Hc' & Hs).
        { eexists. split; [done|]. rewrite <- Hs. set_solver. }
        destruct (proj2 IH) as (S' & HS' & ?); [by exists e'|].
        eexists. split; [done|]. rewrite HS'. simpl. set_solver.
    + rewrite lookup_insert_ne by done. rewrite IH. split.
      * intros (e' & ? & ? & ?). exists e'. by rewrite elem_of_cons; auto.
      * intros (e' & [->|He']%elem_of_cons & Hc' & Hs); [done|by exists e'].
Qed.

Lemma customers_of_buyers (data : list PurchaseEvent) (sku : string) :
  customers_of (customer_skus data) sku
  = list_to_set (pe_customer_id <$> filter (λ e, pe_sku e = sku) data).
Proof.
  apply set_eq. intros c. unfold customers_of.
  rewrite elem_of_dom, elem_of_list_to_set, list_elem_of_fmap.
  unfold is_Some. setoid_rewrite map_lookup_filter_Some.
  setoid_rewrite list_elem_of_filter.
  pose proof (customer_skus_spec data c sku) as Hspec. simpl.
  split.
  - intros (S & HS & Hin). destruct (proj1 Hspec) as (e & ? & ? & ?); [by exists S|].
    by exists e.
  - intros (e & -> & ? & ?). destruct (proj2 Hspec) as (S & ? & ?); [by exists e|].
    by exists S.
Qed.

Lemma customers_of_pos (data : list PurchaseEvent) (sku : string) :
  sku ∈ map pe_sku data → 0 < size (customers_of (customer_skus data) sku).
Proof.
  intros (e & -> & He)%list_elem_of_fmap.
  assert (pe_customer_id e ∈ customers_of (customer_skus data) (pe_sku e))
    as Hin.
  { rewrite customers_of_buyers, elem_of_list_to_set.
    apply list_elem_of_fmap_2. by apply list_elem_of_filter. }
  destruct (size (customers_of _ _)) eqn:Hsize; [|lia].
  apply size_empty_inv in Hsize. set_solver.
Qed.

(** Every pair of skus of the purchase events passes both guards. *)
Lemma overlap_matrix_rows (data : list PurchaseEvent) :
  let skus := unique (map pe_sku data) in
  let cs := customer_skus data in
  frame_rows (_calculate_overlap_matrix data)
  = omap (overlap_of cs) (combinations2 skus)
  ∧ Forall (λ p, ∃ row, overlap_of cs p = Some row
                        ∧ sku1 row = p.1 ∧ sku2 row = p.2)
           (combinations2 skus).
Proof.
  cbv zeta. split.
  - unfold _calculate_overlap_matrix. destruct data as [|e data]; [done|].
    by destruct (omap _ _).
  - apply Forall_forall. intros [x y] [Hx Hy]%combinations2_elem.
    rewrite elem_of_unique in Hx. apply customers_of_pos in Hx.
    unfold overlap_of. cbn [fst snd].
    rewrite bool_decide_eq_true_2 by auto.
    rewrite bool_decide_eq_true_2; [by eexists|].
    eapply Nat.lt_le_trans; [exact Hx|].
    apply subseteq_size. set_solver.
Qed.

Lemma overlap_matrix_pairs (data : list PurchaseEvent) :
  (λ r, (sku1 r, sku2 r)) <$> frame_rows (_calculate_overlap_matrix data)
  = combinations2 (unique (map pe_sku data)).
Proof.
  destruct (overlap_matrix_rows data) as [-> Hall].
  induction Hall as [|[x y] ps (row & Hrow & H1 & H2) _ IH]; [done|].
  cbn [omap list_omap]. rewrite Hrow. cbn [fmap list_fmap].
  rewrite H1, H2. f_equal. exact IH.
Qed.

Lemma length_combinations2 {A} (l : list A) :
  2 * length (combinations2 l) = length l * (length l - 1).
Proof.
  induction l as [|x l IH]; [done|].
  cbn [combinations2]. rewrite length_app, length_map. cbn [length].
  destruct (length l) as [|n]; [lia|].
  replace (S n - 1) with n in IH by lia.
  replace (S (S n) - 1) with (S n) by lia. nia.
Qed.

(** X1: the overlap matrix has one row for every unordered pair of distinct
    skus of the purchase events, in the order of [itertools.combinations]
    over the skus by first appearance: no pair is skipped by the guards,
    none is listed twice or in both orders. *)
Theorem X1_overlap_matrix_all_pairs (data : list PurchaseEvent) :
  let rows := frame_rows (_calculate_overlap_matrix data) in
  let pairs := (λ r, (sku1 r, sku2 r)) <$> rows in
  pairs = combinations2 (unique (map pe_sku data))
  ∧ NoDup pairs
  ∧ Forall (λ r, sku1 r ≠ sku2 r ∧ (sku2 r, sku1 r) ∉ pairs) rows.
Proof.
  cbv zeta. rewrite overlap_matrix_pairs.
  pose proof (NoDup_combinations2 _ (NoDup_unique (map pe_sku data))) as Hnd.
  split; [done|]. split; [done|].
  apply Forall_forall. intros row Hrow.
  apply overlap_matrix_row in Hrow as [Hp _]. split.
  - intros Hs. rewrite Hs in Hp.
    by apply combinations2_irrefl in Hp; [|apply NoDup_unique].
  - by apply combinations2_asym; [apply NoDup_unique|].
Qed.

(** X2: in a row of the overlap matrix, [customers_sku1] and
    [customers_sku2] count the distinct customers with a purchase event of
    the sku, [overlap_count] those with events of both; each sku has a
    customer, and [overlap_pct] is the Jaccard index of the two customer
    sets, between 0 and 1. *)
Theorem X2_overlap_counts_distinct_buyers (data : list PurchaseEvent) :
  let buyers (sku : string) : gset string :=
    list_to_set (pe_customer_id <$> filter (λ e, pe_sku e = sku) data) in
  Forall (λ r,
    customers_sku1 r = size (buyers (sku1 r))
    ∧ customers_sku2 r = size (buyers (sku2 r))
    ∧ overlap_count r = size (buyers (sku1 r) ∩ buyers (sku2 r))
    ∧ 0 < customers_sku1 r ∧ 0 < customers_sku2 r
    ∧ overlap_count r ≤ customers_sku1 r ∧ overlap_count r ≤ customers_sku2 r
    ∧ overlap_pct r
      = (Qnat (overlap_count r)
         / Qnat (customers_sku1 r + customers_sku2 r - overlap_count r))%Q
    ∧ (0 <= overlap_pct r <= 1)%Q)
    (frame_rows (_calculate_overlap_matrix data)).
Proof.
  cbv zeta. apply Forall_forall. intros row Hrow.
  apply overlap_matrix_row in Hrow as [Hp Hrow].
  apply combinations2_elem in Hp as [H1 H2].
  rewrite elem_of_unique in H1, H2.
  apply customers_of_pos in H1, H2.
  rewrite <- !customers_of_buyers.
  set (c1 := customers_of (customer_skus data) (sku1 row)) in *.
  set (c2 := customers_of (customer_skus data) (sku2 row)) in *.
  assert (size (c1 ∩ c2) ≤ size c1) as Hle1 by (apply subseteq_size; set_solver).
  assert (size (c1 ∩ c2) ≤ size c2) as Hle2 by (apply subseteq_size; set_solver).
  assert (size (c1 ∪ c2) = size c1 + size c2 - size (c1 ∩ c2)) as Hunion.
  { rewrite size_union_alt, size_difference_alt.
    rewrite (comm_L (∩) c2 c1). lia. }
  unfold overlap_of in Hrow. cbn [fst snd] in Hrow. fold c1 c2 in Hrow.
  repeat case_bool_decide; try done. injection Hrow as <-.
  cbn [customers_sku1 customers_sku2 overlap_count overlap_pct].
  rewrite Hunion. split_and!; try done.
  - apply Qle_shift_div_l; [apply Qnat_pos; lia|].
    rewrite Qmult_0_l. apply (Qnat_le 0). lia.
  - apply Qle_shift_div_r; [apply Qnat_pos; lia|].
    rewrite Qmult_1_l. apply Qnat_le. lia.
Qed.

Lemma sales_summary_keys (sales : list SalesRecord) :
  NoDup (ss_sku <$> sales_summary sales).
Proof.
  unfold sales_summary. rewrite <- list_fmap_compose.
  change (NoDup (id <$> group_keys (map s_sku sales))).
  rewrite list_fmap_id. apply NoDup_group_keys.
Qed.

Lemma sales_summary_lookup (sales : list SalesRecord) (k : string) :
  head (filter (λ r, ss_sku r = k) (sales_summary sales))
  = if decide (k ∈ map s_sku sales)
    then Some {| ss_sku := k;
                 ss_revenue :=
                   Qsum (map s_revenue (filter (λ s, s_sku s = k) sales));
                 ss_units :=
                   Qsum (map s_units (filter (λ s, s_sku s = k) sales)) |}
    else None.
Proof.
  unfold sales_summary.
  rewrite (filter_group_row ss_sku _ _ k (NoDup_group_keys _)) by done.
  destruct (decide (k ∈ group_keys _)) as [Hin|Hin];
    rewrite elem_of_group_keys in Hin.
  - by rewrite decide_True.
  - by rewrite decide_False.
Qed.

Lemma retained_pairs_threshold (thr : Q) (om : frame overlap_row)
    (sales : list SalesRecord) :
  let rows := frame_rows (_identify_cannibalization thr om sales) in
  base <$> rows
    ≡ₚ filter (λ r, Qle_bool thr (overlap_pct r) = true) (frame_rows om)
  ∧ Forall (λ row, Qle_bool thr (overlap_pct (base row)) = true) rows.
Proof.
  cbv zeta. unfold _identify_cannibalization.
  destruct (frame_empty om) eqn:Hempty.
  { unfold frame_empty in Hempty. destruct (frame_rows om); [|done].
    split; [done|constructor]. }
  cbn [frame_rows].
  rewrite !(merge_left_lookup _ ss_sku) by apply sales_summary_keys.
  rewrite map_map.
  set (kept := filter _ (frame_rows om)).
  assert (Forall (λ r, Qle_bool thr (overlap_pct r) = true) kept) as Hkept.
  { apply Forall_forall. by intros r [? _]%list_elem_of_filter. }
  split.
  - rewrite stable_sort_perm. clearbody kept.
    induction kept as [|r kept IH]; [done|].
    cbn [map fmap list_fmap base]. constructor. apply IH. by inversion Hkept.
  - apply Forall_forall. intros row.
    rewrite elem_of_stable_sort.
    intros Hrow. apply (proj1 (list_elem_of_fmap _ _ _)) in Hrow.
    destruct Hrow as (r & -> & Hr). cbn [base].
    by apply (proj1 (Forall_forall _ _) Hkept).
Qed.

(** X3: the table of retained pairs holds exactly the rows of the overlap
    matrix at or above the threshold, each once (the two left joins with
    the sales summary neither drop nor repeat a pair), highest overlap
    first; [revenue1] and [revenue2] are the summed revenue of the sales
    records of the sku, and NaN for a sku without any sales record. *)
Theorem X3_retained_pairs (thr : Q) (om : frame overlap_row)
    (sales : list SalesRecord) :
  let rows := frame_rows (_identify_cannibalization thr om sales) in
  let revenue_of (k : string) : float :=
    if decide (k ∈ map s_sku sales)
    then Fin (Qsum (map s_revenue (filter (λ s, s_sku s = k) sales)))
    else NaN in
  base <$> rows
    ≡ₚ filter (λ r, Qle_bool thr (overlap_pct r) = true) (frame_rows om)
  ∧ Sorted (λ a b, (overlap_pct (base b) <= overlap_pct (base a))%Q) rows
  ∧ Forall (λ row, revenue1 row = revenue_of (sku1 (base row))
                   ∧ revenue2 row = revenue_of (sku2 (base row))) rows.
Proof.
  cbv zeta. unfold _identify_cannibalization.
  destruct (frame_empty om) eqn:Hempty.
  { unfold frame_empty in Hempty. destruct (frame_rows om); [|done].
    split; [done|]. split; constructor. }
  cbn [frame_rows].
  rewrite !(merge_left_lookup _ ss_sku) by apply sales_summary_keys.
  rewrite map_map.
  set (kept := filter _ (frame_rows om)).
  split; [|split].
  - rewrite stable_sort_perm. clearbody kept.
    induction kept as [|r kept IH]; [done|].
    cbn [map fmap list_fmap base]. by constructor.
  - eapply Sorted_weaken; [|apply stable_sort_sorted].
    + intros a b Hab. apply Qle_bool_iff. exact Hab.
    + intros a b. apply Qle_bool_total.
  - apply Forall_forall. intros row.
    rewrite elem_of_stable_sort.
    intros Hrow. apply (proj1 (list_elem_of_fmap _ _ _)) in Hrow.
    destruct Hrow as (r & -> & _).
    cbn [base revenue1 revenue2 fst snd].
    rewrite !sales_summary_lookup.
    split; by destruct (decide _).
Qed.

Lemma overlap_matrix_frame (data : list PurchaseEvent) :
  _calculate_overlap_matrix data
  = DataFrame (frame_rows (_calculate_overlap_matrix data)).
Proof.
  unfold _calculate_overlap_matrix. destruct data as [|e data]; [done|].
  by destruct (omap _ _).
Qed.

(** X4: [analyze] returns a result exactly when the purchase events name
    at least two distinct skus, and raises [KeyError('overlap_pct')]
    otherwise.  In a result for n distinct skus [total_pairs_analyzed] is
    n(n-1)/2, and [high_risk_pairs] always equals
    [cannibalization_pairs_count]: the summary applies the threshold a
    second time to rows already selected by it. *)
Theorem X4_analyze_outcome `{NumberFormat} (thr : Q)
    (data : list PurchaseEvent) (sales : list SalesRecord)
    (info : list ProductInfo) :
  let n := length (unique (map pe_sku data)) in
  match analyze thr data sales info with
  | Ok res =>
      2 ≤ n
      ∧ 2 * total_pairs_analyzed (analysis_summary res) = n * (n - 1)
      ∧ high_risk_pairs (analysis_summary res)
        = cannibalization_pairs_count (analysis_summary res)
      ∧ cannibalization_pairs_count (analysis_summary res)
        ≤ total_pairs_analyzed (analysis_summary res)
  | Raise e => e = KeyError "overlap_pct" ∧ n ≤ 1
  end.
Proof.
  cbv zeta.
  pose proof (length_combinations2 (unique (map pe_sku data))) as Hlen.
  rewrite <- overlap_matrix_pairs, length_fmap in Hlen.
  pose proof (retained_pairs_threshold thr (_calculate_overlap_matrix data) sales)
    as [Hperm Hthr].
  unfold analyze. pose proof (overlap_matrix_frame data) as Hframe.
  destruct (frame_rows (_calculate_overlap_matrix data)) as [|r0 rows0] eqn:Hom;
    rewrite Hframe in *; clear Hframe Hom.
  { cbn. split; [done|]. cbn [length] in Hlen.
    destruct (length (unique _)) as [|[|n]]; lia. }
  assert (2 ≤ length (unique (map pe_sku data))) as Hn.
  { cbn [length] in Hlen. destruct (length (unique _)) as [|[|n]]; lia. }
  cbn [DataFrame] in *.
  unfold _identify_cannibalization in *. cbn [frame_empty frame_rows] in *.
  cbv zeta in *.
  match goal with
  | |- context [Table (stable_sort ?f ?l)] => set (rows := stable_sort f l) in *
  end.
  assert (length rows ≤ length (r0 :: rows0)) as Hcount.
  { rewrite <- (length_fmap base), Hperm. apply length_filter. }
  unfold _calculate_impact, frame_len. cbn [frame_rows]. clearbody rows.
  destruct rows as [|r rows'].
  { cbn. split_and!; [done|exact Hlen|done|lia]. }
  cbn [length]. remember (r :: rows') as rows eqn:Hrows. clear Hrows.
  cbn [getitem mbind result_bind].
  cbn [analysis_summary total_pairs_analyzed cannibalization_pairs_count
       high_risk_pairs frame_len frame_rows].
  split_and!; [done|exact Hlen| |by rewrite length_map].
  rewrite map_map. cbn [set_revenue_at_risk base].
  rewrite length_map.
  rewrite <- (length_map (λ r, overlap_pct (base r)) rows) at 1.
  f_equal. clear -Hthr.
  induction Hthr as [|a l Ha _ IH]; [done|].
  cbn [map]. rewrite filter_cons, decide_True by done. by rewrite IH.
Qed.
End CannibalizationCoverage.

(** ** Outer joins *)

(** The rows of an outer join: every matching pair, and every row of either
    side that matches nothing, once, with the other side missing. *)
Lemma elem_of_merge_outer {L R O} (key_l : L → string) (key_r : R → string)
    (join : option L → option R → O) (left : list L) (right : list R) (x : O) :
  x ∈ merge_outer key_l key_r join left right ↔
  (∃ l r, l ∈ left ∧ r ∈ right ∧ key_l l = key_r r
          ∧ x = join (Some l) (Some r))
  ∨ (∃ l, l ∈ left ∧ (∀ r, r ∈ right → key_r r ≠ key_l l)
          ∧ x = join (Some l) None)
  ∨ (∃ r, r ∈ right ∧ (∀ l, l ∈ left → key_l l ≠ key_r r)
          ∧ x = join None (Some r)).
Proof.
  unfold merge_outer.
  rewrite list_elem_of_In, in_flat_map.
  setoid_rewrite <- list_elem_of_In.
  setoid_rewrite elem_of_group_keys.
  assert (∀ k, filter (λ l, key_l l = k) left = [] →
               ∀ l, l ∈ left → key_l l ≠ k) as Hnone_l.
  { intros k Hk l Hl Heq.
    assert (l ∈ filter (λ l, key_l l = k) left) as Hin
      by by apply list_elem_of_filter.
    rewrite Hk in Hin. by apply elem_of_nil in Hin. }
  assert (∀ k, filter (λ r, key_r r = k) right = [] →
               ∀ r, r ∈ right → key_r r ≠ k) as Hnone_r.
  { intros k Hk r Hr Heq.
    assert (r ∈ filter (λ r, key_r r = k) right) as Hin
      by by apply list_elem_of_filter.
    rewrite Hk in Hin. by apply elem_of_nil in Hin. }
  split.
  - intros (k & _ & Hx).
    destruct (filter (λ l, key_l l = k) left) as [|l0 ls] eqn:Hl;
      destruct (filter (λ r, key_r r = k) right) as [|r0 rs] eqn:Hr.
    + by apply elem_of_nil in Hx.
    + right; right.
      apply (proj1 (list_elem_of_fmap _ _ _)) in Hx as (r & -> & Hin).
      rewrite <- Hr in Hin. apply list_elem_of_filter in Hin as [<- Hin].
      exists r. split; [done|]. split; [|done]. by apply Hnone_l.
    + right; left.
      apply (proj1 (list_elem_of_fmap _ _ _)) in Hx as (l & -> & Hin).
      rewrite <- Hl in Hin. apply list_elem_of_filter in Hin as [<- Hin].
      exists l. split; [done|]. split; [|done]. by apply Hnone_r.
    + left.
      apply list_elem_of_In, in_flat_map in Hx as (l & Hlin & Hx).
      apply list_elem_of_In in Hlin, Hx.
      apply (proj1 (list_elem_of_fmap _ _ _)) in Hx as (r & -> & Hrin).
      rewrite <- Hl in Hlin. rewrite <- Hr in Hrin.
      apply list_elem_of_filter in Hlin as [Hkl Hlin].
      apply list_elem_of_filter in Hrin as [Hkr Hrin].
      exists l, r. by rewrite Hkl, Hkr.
  - intros [(l & r & Hl & Hr & Hk & ->)|[(l & Hl & Hno & ->)|(r & Hr & Hno & ->)]].
    + exists (key_l l). split.
      { apply elem_of_app. left. by apply list_elem_of_fmap_2. }
      assert (l ∈ filter (λ l', key_l l' = key_l l) left) as Hlin
        by by apply list_elem_of_filter.
      assert (r ∈ filter (λ r', key_r r' = key_l l) right) as Hrin
        by by apply list_elem_of_filter.
      destruct (filter (λ l', key_l l' = key_l l) left) as [|l0 ls];
        [by apply elem_of_nil in Hlin|].
      destruct (filter (λ r', key_r r' = key_l l) right) as [|r0 rs];
        [by apply elem_of_nil in Hrin|].
      apply list_elem_of_In, in_flat_map. exists l.
      split; [by apply list_elem_of_In|].
      apply list_elem_of_In. apply (proj2 (list_elem_of_fmap _ _ _)). by exists r.
    + exists (key_l l). split.
      { apply elem_of_app. left. by apply list_elem_of_fmap_2. }
      assert (l ∈ filter (λ l', key_l l' = key_l l) left) as Hlin
        by by apply list_elem_of_filter.
      assert (filter (λ r', key_r r' = key_l l) right = []) as ->.
      { apply elem_of_nil_inv. intros r [? ?]%list_elem_of_filter.
        by eapply Hno. }
      destruct (filter (λ l', key_l l' = key_l l) left) as [|l0 ls];
        [by apply elem_of_nil in Hlin|].
      apply (proj2 (list_elem_of_fmap _ _ _)). by exists l.
    + exists (key_r r). split.
      { apply elem_of_app. right. by apply list_elem_of_fmap_2. }
      assert (r ∈ filter (λ r', key_r r' = key_r r) right) as Hrin
        by by apply list_elem_of_filter.
      assert (filter (λ l', key_l l' = key_r r) left = []) as ->.
      { apply elem_of_nil_inv. intros l [? ?]%list_elem_of_filter.
        by eapply Hno. }
      apply (proj2 (list_elem_of_fmap _ _ _)). by exists r.
Qed.

(** A left join keeps every left row. *)
Lemma merge_left_keeps {L R O} (key_l : L → string) (key_r : R → string)
    (join : L → option R → O) (left : list L) (right : list R) (l : L) :
  l ∈ left → ∃ o, join l o ∈ merge_left key_l key_r join left right.
Proof.
  intros Hl. unfold merge_left.
  destruct (filter (λ r, key_r r = key_l l) right) as [|m ms] eqn:Hm.
  - exists None. apply list_elem_of_In, in_flat_map. exists l.
    split; [by apply list_elem_of_In|]. rewrite Hm. by left.
  - exists (Some m). apply list_elem_of_In, in_flat_map. exists l.
    split; [by apply list_elem_of_In|]. rewrite Hm. by left.
Qed.

(** ** SKURationalizationAnalyzer: the merged table and the zombie filter *)

Lemma fleb_total (a b : float) :
  isna a = false → isna b = false → fleb a b = false → fleb b a = true.
Proof.
  destruct a, b; simpl; try done. intros _ _. apply Qle_bool_total.
Qed.

Lemma ins_sorted_on {A} (leb : A → A → bool) (P : A → Prop) (x : A)
    (l : list A) :
  (∀ a b, P a → P b → leb a b = false → leb b a = true) →
  P x → Forall P l →
  Sorted (λ a b, leb a b = true) l →
  Sorted (λ a b, leb a b = true) (ins leb x l).
Proof.
  intros Htotal Hx Hall Hs.
  induction Hs as [|y l Hs IH Hhd]; simpl.
  - by repeat constructor.
  - apply Forall_cons in Hall as [Hy Hall]. destruct (leb x y) eqn:Hxy.
    + by repeat constructor.
    + constructor; [by apply IH|].
      destruct Hhd as [|z l Hyz]; simpl.
      * constructor. by apply Htotal.
      * destruct (leb x z); constructor; [by apply Htotal|done].
Qed.

(** Sorting needs the order to be total on the data only. *)
Lemma stable_sort_sorted_on {A} (leb : A → A → bool) (P : A → Prop)
    (l : list A) :
  (∀ a b, P a → P b → leb a b = false → leb b a = true) →
  Forall P l →
  Sorted (λ a b, leb a b = true) (stable_sort leb l).
Proof.
  intros Htotal. induction 1 as [|x l Hx Hall IH]; simpl; [constructor|].
  apply (ins_sorted_on leb P); [done..| |done].
  apply Forall_forall. intros y Hy. apply elem_of_stable_sort in Hy.
  by apply (proj1 (Forall_forall _ _) Hall).
Qed.

(** On sorted finite data a quantile lies between the smallest and the
    largest value. *)
Lemma quantile_sorted_between (s : list Q) (q : Q) :
  StronglySorted Qle s → 0 < length s → (0 <= q)%Q → (q <= 1)%Q →
  ∃ v, quantile_sorted (map Fin s) q = Fin v
       ∧ (nth 0 s 0 <= v)%Q ∧ (v <= nth (length s - 1) s 0)%Q.
Proof.
  intros Hs Hn H0 H1.
  destruct (quantile_sorted_finite s q Hn H0 H1) as (v & Hv & Heq).
  exists v. split; [done|]. cbv zeta in Heq.
  destruct (virtual_index_bounds (length s) q Hn H0 H1) as [Hf Hlo].
  set (virtual := (Qnat (length s - 1) * q)%Q) in *.
  set (lo := Z.to_nat (Qfloor virtual)) in *.
  set (hi := Nat.min (lo + 1) (length s - 1)) in *.
  pose proof (Qfloor_le virtual) as Hfl.
  pose proof (Qlt_floor virtual) as Hfu.
  rewrite inject_Z_plus in Hfu. change (inject_Z 1) with 1%Q in Hfu.
  pose proof (StronglySorted_nth s 0 lo Hs ltac:(lia) ltac:(lia)) as H0lo.
  pose proof (StronglySorted_nth s lo hi Hs ltac:(lia) ltac:(lia)) as Hlohi.
  pose proof (StronglySorted_nth s hi (length s - 1) Hs ltac:(lia) ltac:(lia))
    as Hhitop.
  split; nra.
Qed.

Lemma existsb_isna_false (l : list float) :
  Forall (λ x, isna x = false) l → existsb isna l = false.
Proof. induction 1 as [|x l Hx _ IH]; [done|]. simpl. by rewrite Hx, IH. Qed.

(** The percentile of data without NaN and infinities is a finite value
    between the smallest and the largest of the data. *)
Lemma np_percentile_between (l : list float) (N : Z) :
  l ≠ [] → (0 ≤ N ≤ 100)%Z →
  Forall (λ x, isna x = false ∧ isinf x = false) l →
  ∃ v lo hi, np_percentile l N = Ok (Fin v)
             ∧ Fin lo ∈ l ∧ Fin hi ∈ l
             ∧ (lo <= v)%Q ∧ (v <= hi)%Q
             ∧ ∀ x, Fin x ∈ l → (lo <= x)%Q ∧ (x <= hi)%Q.
Proof.
  intros Hne HN Hfin. unfold np_percentile.
  rewrite bool_decide_eq_true_2 by done. unfold quantile_linear.
  rewrite existsb_isna_false
    by (eapply Forall_impl; [exact Hfin|by intros ? [? _]]).
  destruct (finite_values l) as [qs ->].
  { apply existsb_isna_false. eapply Forall_impl; [exact Hfin|by intros ? [? _]]. }
  { eapply Forall_impl; [exact Hfin|by intros ? [_ ?]]. }
  rewrite stable_sort_finite.
  set (s := stable_sort Qle_bool qs).
  assert (0 < length s) as Hn.
  { unfold s. rewrite stable_sort_length. destruct qs; simpl in *; [done|lia]. }
  assert (0 <= inject_Z N / 100)%Q as Hq0.
  { apply Qle_shift_div_l; [reflexivity|]. unfold Qle; simpl; lia. }
  assert (inject_Z N / 100 <= 1)%Q as Hq1.
  { apply Qle_shift_div_r; [reflexivity|]. unfold Qle; simpl; lia. }
  pose proof (stable_sort_Qle qs) as Hs. fold s in Hs.
  destruct (quantile_sorted_between s _ Hs Hn Hq0 Hq1) as (v & -> & Hlo & Hhi).
  assert (∀ x, x ∈ s ↔ Fin x ∈ map Fin qs) as Hmem.
  { intros x. unfold s. rewrite elem_of_stable_sort. split.
    - intros Hx. apply (proj2 (list_elem_of_fmap _ _ _)). by exists x.
    - intros Hx. apply (proj1 (list_elem_of_fmap _ _ _)) in Hx
        as (y & [= ->] & Hy). done. }
  exists v, (nth 0 s 0%Q), (nth (length s - 1) s 0%Q).
  split_and!; [done| | |done|done|].
  - apply Hmem, list_elem_of_In, nth_In. lia.
  - apply Hmem, list_elem_of_In, nth_In. lia.
  - intros x Hx%Hmem. apply list_elem_of_In in Hx.
    destruct (In_nth s x 0%Q Hx) as (i & Hi & <-).
    split; apply StronglySorted_nth; (done || lia).
Qed.

(** At the percentile 100 the threshold is the largest value. *)
Lemma quantile_sorted_top (s : list Q) (v : Q) :
  0 < length s →
  quantile_sorted (map Fin s) (inject_Z 100 / 100) = Fin v →
  (v == nth (length s - 1) s 0)%Q.
Proof.
  intros Hn Hv.
  destruct (quantile_sorted_finite s (inject_Z 100 / 100) Hn) as (w & Hw & Heq);
    [done..|].
  rewrite Hv in Hw. injection Hw as <-. cbv zeta in Heq.
  assert (Qnat (length s - 1) * (inject_Z 100 / 100) == Qnat (length s - 1))%Q
    as Hvirtual.
  { assert (inject_Z 100 / 100 == 1)%Q as -> by reflexivity. ring. }
  assert (Qfloor (Qnat (length s - 1) * (inject_Z 100 / 100))
          = Z.of_nat (length s - 1)) as Hfloor.
  { rewrite Hvirtual. unfold Qnat. apply Qfloor_Z. }
  rewrite Hfloor, Nat2Z.id in Heq.
  replace (Nat.min (length s - 1 + 1) (length s - 1)) with (length s - 1)
    in Heq by lia.
  rewrite Heq. ring.
Qed.

Section SKURationalizationCoverage.
Import SKURationalizationAnalyzer.

(** X5: [_identify_zombies] raises [ValueError] exactly when there is an
    active sku and the percentile is outside 0..100; with no active sku it
    returns the column-less table whatever the percentile.  Every row it
    returns is an active sku with a defined score and the status "zombie",
    and the rows come lowest score first. *)
Theorem X5_identify_zombies_outcome (N : Z) (metrics : list metrics_row) :
  let active := filter (λ m, is_active m = true) metrics in
  match _identify_zombies N metrics with
  | Raise e =>
      active ≠ [] ∧ ¬ (0 ≤ N ≤ 100)%Z
      ∧ e = ValueError "Percentiles must be in the range [0, 100]"
  | Ok z =>
      (active = [] → z = NoColumns)
      ∧ (active ≠ [] → (0 ≤ N ≤ 100)%Z)
      ∧ Forall (λ row, metrics_of row ∈ active
                       ∧ isna (composite_score (metrics_of row)) = false
                       ∧ status row = "zombie"%string) (frame_rows z)
      ∧ Sorted (λ a b, fleb (composite_score (metrics_of a))
                            (composite_score (metrics_of b)) = true)
               (frame_rows z)
      ∧ frame_len z ≤ length active
  end.
Proof.
  cbv zeta. unfold _identify_zombies.
  destruct (filter (λ m, is_active m = true) metrics) as [|m0 rest] eqn:Hactive.
  { split_and!; [done|done|constructor|constructor|done]. }
  unfold np_percentile. case_bool_decide as HN; [|done].
  cbn [mbind result_bind]. cbv zeta.
  set (active := m0 :: rest) in *.
  set (threshold := quantile_linear _ _).
  set (zombies := filter (λ m, fleb (composite_score m) threshold = true) active).
  assert (Forall (λ m, isna (composite_score m) = false) zombies) as Hdefined.
  { apply Forall_forall. intros m [Hm _]%list_elem_of_filter.
    by destruct (composite_score m). }
  split_and!; [done|done| | |].
  - cbn [frame_rows]. apply Forall_forall. intros row Hrow.
    apply (proj1 (list_elem_of_fmap _ _ _)) in Hrow as (m & -> & Hm).
    apply elem_of_stable_sort in Hm. cbn [metrics_of status].
    split_and!; [|by apply (proj1 (Forall_forall _ _) Hdefined)|done].
    by apply list_elem_of_filter in Hm as [_ ?].
  - cbn [frame_rows].
    pose proof (stable_sort_sorted_on
                  (λ a b, fleb (composite_score a) (composite_score b))
                  (λ m, isna (composite_score m) = false) zombies) as Hsorted.
    specialize (Hsorted (λ a b Ha Hb, fleb_total _ _ Ha Hb) Hdefined).
    induction Hsorted as [|a l _ IH Hhd]; cbn [map]; constructor; [done|].
    destruct Hhd; constructor. done.
  - unfold frame_len. cbn [frame_rows].
    rewrite length_map, stable_sort_length. apply length_filter.
Qed.

(** X6: among active skus with defined scores, a sku with the lowest
    composite score is flagged as a zombie under every percentile from 0 to
    100 (so an analysis with an active sku never comes back empty), and the
    percentile 100 flags every active sku. *)
Theorem X6_lowest_score_always_flagged (N : Z) (metrics : list metrics_row)
    (m : metrics_row) :
  (0 ≤ N ≤ 100)%Z →
  Forall (λ m', is_active m' = true →
                isna (composite_score m') = false
                ∧ isinf (composite_score m') = false) metrics →
  m ∈ metrics → is_active m = true →
  (∀ m', m' ∈ metrics → is_active m' = true →
         fleb (composite_score m) (composite_score m') = true) →
  ∃ z, _identify_zombies N metrics = Ok z
       ∧ m ∈ metrics_of <$> frame_rows z
       ∧ (N = 100%Z →
          ∀ m', m' ∈ metrics → is_active m' = true →
                m' ∈ metrics_of <$> frame_rows z).
Proof.
  intros HN Hfin Hm Hactive Hmin. unfold _identify_zombies.
  set (active := filter (λ m, is_active m = true) metrics).
  assert (∀ m', m' ∈ active ↔ m' ∈ metrics ∧ is_active m' = true) as Hin.
  { intros m'. unfold active. rewrite list_elem_of_filter. tauto. }
  assert (Forall (λ x, isna x = false ∧ isinf x = false)
            (map composite_score active)) as Hscores.
  { apply Forall_forall. intros x Hx.
    apply (proj1 (list_elem_of_fmap _ _ _)) in Hx as (m' & -> & Hm').
    apply Hin in Hm' as [Hm' Ha].
    by apply (proj1 (Forall_forall _ _) Hfin). }
  assert (m ∈ active) as Hma by by apply Hin.
  destruct active as [|m0 rest] eqn:Hact; [by apply elem_of_nil in Hma|].
  rewrite <- Hact in *.
  destruct (np_percentile_between (map composite_score active) N)
    as (v & lo & hi & Hv & Hlo & Hhi & Hlov & Hvhi & Hrange);
    [by rewrite Hact|done|done|].
  assert (∀ t m', m' ∈ active → fleb (composite_score m') t = true →
            m' ∈ metrics_of <$>
              frame_rows (Table (map (λ m, {| metrics_of := m;
                                              status := "zombie";
                                              reason := _get_zombie_reason m |})
                (stable_sort
                   (λ a b, fleb (composite_score a) (composite_score b))
                   (filter (λ m, fleb (composite_score m) t = true) active)))))
    as Hflag.
  { intros t m' Hm' Ht. cbn [frame_rows].
    apply (proj2 (list_elem_of_fmap _ _ _)). eexists. split; [|
      apply (proj2 (list_elem_of_fmap _ _ _)); exists m'; split; [done|] ].
    - done.
    - apply elem_of_stable_sort. by apply list_elem_of_filter. }
  rewrite Hv. cbn [mbind result_bind]. cbv zeta.
  eexists. split; [done|]. split.
  - apply Hflag; [done|].
    apply (proj1 (list_elem_of_fmap _ _ _)) in Hlo as (m' & Hm'lo & Hm').
    apply Hin in Hm' as [Hm' Ha].
    specialize (Hmin m' Hm' Ha). rewrite <- Hm'lo in Hmin.
    assert (isna (composite_score m) = false ∧ isinf (composite_score m) = false)
      as [Hna Hinf] by by apply (proj1 (Forall_forall _ _) Hfin).
    destruct (composite_score m) as [a| | |]; try done.
    cbn [fleb] in *. apply Qle_bool_iff in Hmin. apply Qle_bool_iff. lra.
  - intros -> m' Hm' Ha. apply Hflag; [by apply Hin|].
    assert (isna (composite_score m') = false
            ∧ isinf (composite_score m') = false)
      as [Hna Hinf] by by apply (proj1 (Forall_forall _ _) Hfin).
    destruct (composite_score m') as [a| | |] eqn:Hscore; try done.
    assert (Fin a ∈ map composite_score active) as Ha'.
    { apply (proj2 (list_elem_of_fmap _ _ _)). exists m'.
      split; [done|by apply Hin]. }
    apply Hrange in Ha' as [_ Hahi].
    cbn [fleb]. apply Qle_bool_iff.
    enough (hi <= v)%Q by lra.
    clear Hflag. unfold np_percentile in Hv.
    rewrite bool_decide_eq_true_2 in Hv by done. unfold quantile_linear in Hv.
    rewrite existsb_isna_false in Hv
      by (eapply Forall_impl; [exact Hscores|by intros ? [? _]]).
    destruct (finite_values (map composite_score active)) as [qs Hqs].
    { apply existsb_isna_false.
      eapply Forall_impl; [exact Hscores|by intros ? [? _]]. }
    { eapply Forall_impl; [exact Hscores|by intros ? [_ ?]]. }
    rewrite Hqs, stable_sort_finite in Hv. injection Hv as Hv.
    assert (0 < length (stable_sort Qle_bool qs)) as Hn.
    { rewrite stable_sort_length.
      destruct qs; [|simpl; lia]. rewrite Hact in Hqs. done. }
    apply quantile_sorted_top in Hv; [|done].
    rewrite Hv. rewrite Hqs in Hhi.
    apply (proj1 (list_elem_of_fmap _ _ _)) in Hhi as (h & [= <-] & Hh).
    rewrite <- (elem_of_stable_sort Qle_bool) in Hh.
    apply list_elem_of_In in Hh.
    destruct (In_nth _ _ 0%Q Hh) as (i & Hi & <-).
    apply StronglySorted_nth; [apply stable_sort_Qle|lia|lia].
Qed.

Lemma X6_witness :
  ∃ z, _identify_zombies 0 Scenarios.three_scores = Ok z
       ∧ Scenarios.scored "A" (1 # 5) ∈ metrics_of <$> frame_rows z.
Proof.
  destruct (X6_lowest_score_always_flagged 0 Scenarios.three_scores
              (Scenarios.scored "A" (1 # 5))) as (z & Hz & Hin & _).
  - lia.
  - repeat constructor.
  - apply elem_of_cons. by left.
  - reflexivity.
  - intros m' Hm' _.
    apply elem_of_cons in Hm' as [->|Hm']; [reflexivity|].
    apply elem_of_cons in Hm' as [->|Hm']; [reflexivity|].
    apply elem_of_cons in Hm' as [->|Hm']; [reflexivity|].
    by apply elem_of_nil in Hm'.
  - by exists z.
Defined.

Lemma sku_sales_summary_row (sales : list SalesRecord) (l : sales_summary_row) :
  l ∈ sales_summary sales →
  ss_sku l ∈ map s_sku sales
  ∧ ss_revenue l
    = Qsum (map s_revenue (filter (λ s, s_sku s = ss_sku l) sales))
  ∧ ss_units l
    = Qsum (map s_units (filter (λ s, s_sku s = ss_sku l) sales))
  ∧ ss_fees l
    = Qsum (map s_fees (filter (λ s, s_sku s = ss_sku l) sales))
  ∧ ss_shipping_cost l
    = Qsum (map s_shipping_cost (filter (λ s, s_sku s = ss_sku l) sales)).
Proof.
  unfold sales_summary. intros Hl.
  apply (proj1 (list_elem_of_fmap _ _ _)) in Hl as (k & -> & Hk).
  rewrite elem_of_group_keys in Hk.
  cbn [ss_sku ss_revenue ss_units ss_fees ss_shipping_cost].
  split_and!; [exact Hk|reflexivity..].
Qed.

Lemma sku_sales_summary_has (sales : list SalesRecord) (k : string) :
  k ∈ map s_sku sales → ∃ l, l ∈ sales_summary sales ∧ ss_sku l = k.
Proof.
  intros Hk. eexists. split.
  - unfold sales_summary. apply (proj2 (list_elem_of_fmap _ _ _)).
    exists k. split; [done|]. by rewrite elem_of_group_keys.
  - done.
Qed.

Lemma filter_sku_none (sales : list SalesRecord) (k : string) :
  k ∉ map s_sku sales → filter (λ s, s_sku s = k) sales = [].
Proof.
  intros Hk. apply elem_of_nil_inv. intros s [<- Hs]%list_elem_of_filter.
  apply Hk. apply (proj2 (list_elem_of_fmap _ _ _)). by exists s.
Qed.

(** The rows of the outer join of the sales summary with the inventory. *)
Lemma merge_data_row_cases (sales : list SalesRecord)
    (inventory : list InventorySnapshot) (info : list ProductInfo)
    (r : merged_row) :
  r ∈ _merge_data sales inventory info →
  revenue r = Qsum (map s_revenue (filter (λ s, s_sku s = sku r) sales))
  ∧ units r = Qsum (map s_units (filter (λ s, s_sku s = sku r) sales))
  ∧ ((sku r ∈ map s_sku sales
      ∧ fees r
        = Fin (Qsum (map s_fees (filter (λ s, s_sku s = sku r) sales)))
      ∧ shipping_cost r
        = Fin (Qsum (map s_shipping_cost
                       (filter (λ s, s_sku s = sku r) sales))))
     ∨ (sku r ∉ map s_sku sales ∧ sku r ∈ map i_sku inventory
        ∧ fees r = NaN ∧ shipping_cost r = NaN))
  ∧ ((∃ i, i ∈ inventory ∧ i_sku i = sku r
           ∧ quantity_on_hand r = i_quantity_on_hand i
           ∧ cost_per_unit r = i_cost_per_unit i)
     ∨ (sku r ∉ map i_sku inventory ∧ sku r ∈ map s_sku sales
        ∧ quantity_on_hand r = 0%Q ∧ cost_per_unit r = 0%Q)).
Proof.
  unfold _merge_data.
  intros (x & p & Hx & -> & _)%elem_of_merge_left.
  apply elem_of_merge_outer in Hx
    as [(l & i & Hl & Hi & Hk & ->)|[(l & Hl & Hno & ->)|(i & Hi & Hno & ->)]].
  - apply sku_sales_summary_row in Hl as (Hsku & Hrev & Hun & Hfee & Hship).
    cbn. rewrite Hrev, Hun, Hfee, Hship. split_and!; [done|done|by left|].
    left. by exists i.
  - apply sku_sales_summary_row in Hl as (Hsku & Hrev & Hun & Hfee & Hship).
    cbn. rewrite Hrev, Hun, Hfee, Hship. split_and!; [done|done|by left|].
    right. split_and!; [|done..].
    intros Hin. apply (proj1 (list_elem_of_fmap _ _ _)) in Hin as (i & Hk & Hi).
    by apply (Hno i).
  - assert (i_sku i ∉ map s_sku sales) as Hnot.
    { intros (l & Hl & Hk)%sku_sales_summary_has. by apply (Hno l). }
    cbn. rewrite (filter_sku_none sales (i_sku i) Hnot).
    split_and!; [done|done| |].
    + right. split_and!; [done| |done..].
      apply (proj2 (list_elem_of_fmap _ _ _)). by exists i.
    + left. by exists i.
Qed.

Lemma merge_data_has_sku (sales : list SalesRecord)
    (inventory : list InventorySnapshot) (info : list ProductInfo)
    (k : string) :
  k ∈ map s_sku sales ∨ k ∈ map i_sku inventory →
  k ∈ sku <$> _merge_data sales inventory info.
Proof.
  intros Hk.
  assert (∃ s i, (k, s, i)
            ∈ merge_outer ss_sku i_sku
                (λ s i, (from_option ss_sku (from_option i_sku ""%string i) s,
                         s, i))
                (sales_summary sales) inventory) as (s & i & Hx).
  { destruct (filter (λ l, ss_sku l = k) (sales_summary sales))
      as [|l ls] eqn:Hl;
      destruct (filter (λ i, i_sku i = k) inventory) as [|i ivs] eqn:Hi.
    - exfalso. destruct Hk as [Hk|Hk].
      + apply sku_sales_summary_has in Hk as (l & Hin & Hkey).
        assert (l ∈ filter (λ l, ss_sku l = k) (sales_summary sales)) as Hin'
          by by apply list_elem_of_filter.
        rewrite Hl in Hin'. by apply elem_of_nil in Hin'.
      + apply (proj1 (list_elem_of_fmap _ _ _)) in Hk as (i & -> & Hin).
        assert (i ∈ filter (λ i', i_sku i' = i_sku i) inventory) as Hin'
          by by apply list_elem_of_filter.
        rewrite Hi in Hin'. by apply elem_of_nil in Hin'.
    - assert (i ∈ filter (λ i, i_sku i = k) inventory) as Hin
        by (rewrite Hi; apply elem_of_cons; by left).
      apply list_elem_of_filter in Hin as [<- Hin].
      exists None, (Some i). apply elem_of_merge_outer. right; right.
      exists i. split_and!; [done| |done].
      intros l' Hl' Hkey.
      assert (l' ∈ filter (λ l, ss_sku l = i_sku i) (sales_summary sales))
        as Hin' by by apply list_elem_of_filter.
      rewrite Hl in Hin'. by apply elem_of_nil in Hin'.
    - assert (l ∈ filter (λ l, ss_sku l = k) (sales_summary sales)) as Hin
        by (rewrite Hl; apply elem_of_cons; by left).
      apply list_elem_of_filter in Hin as [<- Hin].
      exists (Some l), None. apply elem_of_merge_outer. right; left.
      exists l. split_and!; [done| |done].
      intros i' Hi' Hkey.
      assert (i' ∈ filter (λ i, i_sku i = ss_sku l) inventory)
        as Hin' by by apply list_elem_of_filter.
      rewrite Hi in Hin'. by apply elem_of_nil in Hin'.
    - assert (l ∈ filter (λ l, ss_sku l = k) (sales_summary sales)) as Hin
        by (rewrite Hl; apply elem_of_cons; by left).
      assert (i ∈ filter (λ i, i_sku i = k) inventory) as Hin'
        by (rewrite Hi; apply elem_of_cons; by left).
      apply list_elem_of_filter in Hin as [Hkl Hin].
      apply list_elem_of_filter in Hin' as [Hki Hin'].
      exists (Some l), (Some i). apply elem_of_merge_outer. left.
      exists l, i. split_and!; [done|done|congruence|].
      cbn. by rewrite Hkl. }
  unfold _merge_data.
  match goal with
  | |- context [merge_left ?kl ?kr ?j ?l ?r] =>
      destruct (merge_left_keeps kl kr j l r _ Hx) as [p Hp]
  end.
  apply (proj2 (list_elem_of_fmap _ _ _)). eexists. split; [|exact Hp]. done.
Qed.

(** X7: the merged table has a row for every sku of the sales or of the
    inventory and for no other sku.  Revenue and units are the sums over the
    sales records of the sku (0 without any); fees and shipping cost are
    the sums too, but NaN for a sku that only the inventory knows; quantity
    on hand and unit cost are those of an inventory row of the sku, and 0
    for a sku without one. *)
Theorem X7_merge_data_outer_join (sales : list SalesRecord)
    (inventory : list InventorySnapshot) (info : list ProductInfo) :
  let merged := _merge_data sales inventory info in
  (∀ k, k ∈ sku <$> merged ↔ k ∈ map s_sku sales ∨ k ∈ map i_sku inventory)
  ∧ Forall (λ r,
      let sold := filter (λ s, s_sku s = sku r) sales in
      revenue r = Qsum (map s_revenue sold)
      ∧ units r = Qsum (map s_units sold)
      ∧ fees r = (if decide (sku r ∈ map s_sku sales)
                  then Fin (Qsum (map s_fees sold)) else NaN)
      ∧ shipping_cost r = (if decide (sku r ∈ map s_sku sales)
                           then Fin (Qsum (map s_shipping_cost sold)) else NaN)
      ∧ ((∃ i, i ∈ inventory ∧ i_sku i = sku r
               ∧ quantity_on_hand r = i_quantity_on_hand i
               ∧ cost_per_unit r = i_cost_per_unit i)
         ∨ (sku r ∉ map i_sku inventory
            ∧ quantity_on_hand r = 0%Q ∧ cost_per_unit r = 0%Q))) merged.
Proof.
  cbv zeta. split.
  - intros k. split; [|apply merge_data_has_sku].
    intros Hk. apply (proj1 (list_elem_of_fmap _ _ _)) in Hk as (r & -> & Hr).
    apply merge_data_row_cases in Hr as (_ & _ & Hs & _).
    destruct Hs as [(? & _)|(_ & ? & _)]; auto.
  - apply Forall_forall. intros r Hr.
    apply merge_data_row_cases in Hr as (Hrev & Hun & Hs & Hi).
    split_and!; [done|done| | |].
    + destruct Hs as [(? & -> & _)|(? & _ & -> & _)];
        [by rewrite decide_True|by rewrite decide_False].
    + destruct Hs as [(? & _ & ->)|(? & _ & _ & ->)];
        [by rewrite decide_True|by rewrite decide_False].
    + destruct Hi as [?|(? & _ & ? & ?)]; [by left|by right].
Qed.

Lemma fadd_NaN_l (x : float) : fadd NaN x = NaN.
Proof. done. Qed.

(** X8: one sku that is in stock and has no sales record switches the
    zombie detection off: its fees are NaN, hence its profit, its profit
    rank and its composite score, hence the percentile threshold, and no
    score compares below NaN.  [analyze] then reports no zombie at all and
    no recommendation, whatever the other skus are. *)
Theorem X8_unsold_stock_disables_detection `{NumberFormat} (N : Z)
    (sales : list SalesRecord) (inventory : list InventorySnapshot)
    (info : list ProductInfo) (i : InventorySnapshot) :
  (0 ≤ N ≤ 100)%Z →
  i ∈ inventory → (0 < i_quantity_on_hand i)%Q →
  i_sku i ∉ map s_sku sales →
  ∃ res, analyze N sales inventory info = Ok res
         ∧ zombie_skus res = Table []
         ∧ recommendations res = []
         ∧ total_zombies (analysis_summary res) = 0
         ∧ capital_freed (analysis_summary res) = Fin 0.
Proof.
  intros HN Hi Hstock Hunsold. unfold analyze.
  set (merged := _merge_data sales inventory info).
  assert (∃ r, r ∈ merged ∧ fees r = NaN ∧ (0 < quantity_on_hand r)%Q)
    as (r & Hr & Hfees & Hqty).
  { assert (∃ p, {| sku := i_sku i; revenue := 0; units := 0;
                    fees := NaN; shipping_cost := NaN;
                    quantity_on_hand := i_quantity_on_hand i;
                    cost_per_unit := i_cost_per_unit i;
                    product_name := p_product_name <$> p |} ∈ merged)
      as [p Hp]; [|by eexists].
    unfold merged, _merge_data.
    match goal with
    | |- context [merge_left ?kl ?kr ?j ?l ?r] =>
        apply (merge_left_keeps kl kr j l r (i_sku i, None, Some i))
    end.
    apply elem_of_merge_outer. right; right. exists i.
    split_and!; [done| |done].
    intros l Hl Hk. apply sku_sales_summary_row in Hl as [Hl _].
    by rewrite Hk in Hl. }
  assert (∃ m, m ∈ _calculate_metrics merged
               ∧ composite_score m = NaN ∧ is_active m = true)
    as (m & Hm & Hscore & Hactive).
  { eexists. split; [|split].
    - unfold _calculate_metrics.
      apply (proj2 (list_elem_of_fmap _ _ _)). by exists r.
    - cbn [composite_score].
      assert (profit_of r = NaN) as Hp.
      { unfold profit_of, fsub. by rewrite Hfees. }
      unfold profit_percentile, rank_pct_descending.
      rewrite Hp. cbn [isna fmul]. by rewrite fadd_NaN_r.
    - unfold is_active. cbn [base].
      apply orb_true_iff. right. by apply Qlt_bool_iff. }
  assert (_identify_zombies N (_calculate_metrics merged) = Ok (Table []))
    as ->.
  { unfold _identify_zombies.
    set (active := filter _ (_calculate_metrics merged)).
    assert (m ∈ active) as Hma by by apply list_elem_of_filter.
    destruct active as [|m0 rest] eqn:Hact; [by apply elem_of_nil in Hma|].
    rewrite <- Hact in *.
    unfold np_percentile. rewrite bool_decide_eq_true_2 by done.
    unfold quantile_linear.
    assert (existsb isna (map composite_score active) = true) as ->.
    { apply existsb_exists. exists NaN. split; [|done].
      apply list_elem_of_In. apply (proj2 (list_elem_of_fmap _ _ _)).
      by exists m. }
    cbn [mbind result_bind]. cbv zeta.
    assert (filter (λ m, fleb (composite_score m) NaN = true) active = [])
      as ->; [|done].
    apply elem_of_nil_inv. intros m' [Hm' _]%list_elem_of_filter.
    by destruct (composite_score m'). }
  cbn [mbind result_bind]. eexists. split; [done|]. done.
Qed.

Lemma X8_witness :
  ∃ res,
    analyze (H := {| fmt_money := λ _, "m"%string;
                     fmt_percent := λ _, "p"%string;
                     fmt_fixed2 := λ _, "f"%string |})
      20 Scenarios.two_products
      [{| i_sku := "Z"; i_quantity_on_hand := 5; i_cost_per_unit := 1 |}] []
    = Ok res
    ∧ zombie_skus res = Table [].
Proof.
  destruct (X8_unsold_stock_disables_detection
              (H := {| fmt_money := λ _, "m"%string;
                       fmt_percent := λ _, "p"%string;
                       fmt_fixed2 := λ _, "f"%string |})
              20 Scenarios.two_products
              [{| i_sku := "Z"; i_quantity_on_hand := 5; i_cost_per_unit := 1 |}]
              []
              {| i_sku := "Z"; i_quantity_on_hand := 5; i_cost_per_unit := 1 |})
    as (res & Hres & Hz & _).
  - lia.
  - apply elem_of_cons. by left.
  - reflexivity.
  - by_evaluation.
  - by exists res.
Defined.
End SKURationalizationCoverage.

(** ** ContributionMarginAnalyzer: merged rows, ranking and money losers *)

Lemma fltb_finite (a b : Q) : fltb (Fin a) (Fin b) = true ↔ (a < b)%Q.
Proof. apply Qlt_bool_iff. Qed.

(** The counts behind [rank(pct=True)]. *)
Lemma count_below (qs : list Q) (x y : Q) :
  (x < y)%Q →
  length (filter (λ v, fltb v (Fin x) = true) (map Fin qs))
  + length (filter (λ v, feqb v (Fin x) = true) (map Fin qs))
  ≤ length (filter (λ v, fltb v (Fin y) = true) (map Fin qs)).
Proof.
  intros Hxy. induction qs as [|q qs IH]; [done|].
  cbn [map]. rewrite !filter_cons.
  repeat case_decide; cbn [length]; try lia; exfalso;
    rewrite ?fltb_finite, ?feqb_finite, ?Qlt_bool_iff in *; lra.
Qed.

Lemma count_below_equal (qs : list Q) (x : Q) :
  length (filter (λ v, fltb v (Fin x) = true) (map Fin qs))
  + length (filter (λ v, feqb v (Fin x) = true) (map Fin qs))
  ≤ length qs.
Proof.
  induction qs as [|q qs IH]; [done|].
  cbn [map]. rewrite !filter_cons.
  repeat case_decide; cbn [length]; try lia; exfalso;
    rewrite ?fltb_finite, ?feqb_finite, ?Qlt_bool_iff in *; lra.
Qed.

(** The percentile rank of a member of a finite column lies in (0, 1]. *)
Lemma rank_pct_ascending_bounds (qs : list Q) (x : Q) :
  x ∈ qs →
  ∃ p, rank_pct_ascending (map Fin qs) (Fin x) = Fin p ∧ (0 < p)%Q ∧ (p <= 1)%Q.
Proof.
  intros Hx. unfold rank_pct_ascending. cbn [isna].
  rewrite valid_finite, length_map.
  eexists. split; [done|].
  pose proof (count_below_equal qs x) as Hcount.
  pose proof (count_equal_member qs x Hx) as Hex.
  set (lx := length (filter (λ v, fltb v (Fin x) = true) (map Fin qs))) in *.
  set (ex := length (filter (λ v, feqb v (Fin x) = true) (map Fin qs))) in *.
  assert (0 < Qnat (length qs))%Q as Hn.
  { apply Qnat_pos. destruct Hx; simpl; lia. }
  pose proof (Qnat_le _ _ Hcount) as Hc. rewrite Qnat_plus in Hc.
  pose proof (Qnat_le 1 ex ltac:(lia)) as He. change (Qnat 1) with 1%Q in He.
  pose proof (Qnat_le 0 lx ltac:(lia)) as Hl. change (Qnat 0) with 0%Q in Hl.
  assert ((Qnat ex + 1) / 2 == (Qnat ex + 1) * (1 # 2))%Q as -> by (by field).
  split.
  - apply Qlt_shift_div_l; [done|]. lra.
  - apply Qle_shift_div_r; [done|]. lra.
Qed.

(** With [rank(pct=True)] the larger of two entries of a column gets the
    strictly larger percentile. *)
Lemma rank_pct_ascending_monotone (qs : list Q) (x y : Q) :
  x ∈ qs → y ∈ qs → (x < y)%Q →
  ∃ px py,
    rank_pct_ascending (map Fin qs) (Fin x) = Fin px
    ∧ rank_pct_ascending (map Fin qs) (Fin y) = Fin py
    ∧ (px < py)%Q.
Proof.
  intros Hx Hy Hxy. unfold rank_pct_ascending. cbn [isna].
  rewrite valid_finite, length_map.
  do 2 eexists. split_and!; [done..|].
  pose proof (count_below qs x y Hxy) as Hcount.
  pose proof (count_equal_member qs y Hy) as Hey.
  set (lx := length (filter (λ v, fltb v (Fin x) = true) (map Fin qs))) in *.
  set (ex := length (filter (λ v, feqb v (Fin x) = true) (map Fin qs))) in *.
  set (ly := length (filter (λ v, fltb v (Fin y) = true) (map Fin qs))) in *.
  set (ey := length (filter (λ v, feqb v (Fin y) = true) (map Fin qs))) in *.
  assert (0 < Qnat (length qs))%Q as Hn.
  { apply Qnat_pos. destruct Hx; simpl; lia. }
  apply Qmult_lt_compat_r; [by apply Qinv_lt_0_compat|].
  pose proof (Qnat_le _ _ Hcount) as Hc. rewrite Qnat_plus in Hc.
  pose proof (Qnat_le 1 ey ltac:(lia)) as He. change (Qnat 1) with 1%Q in He.
  pose proof (Qnat_le 0 ex ltac:(lia)) as He'. change (Qnat 0) with 0%Q in He'.
  assert ((Qnat ex + 1) / 2 == (Qnat ex + 1) * (1 # 2))%Q as -> by (by field).
  assert ((Qnat ey + 1) / 2 == (Qnat ey + 1) * (1 # 2))%Q as -> by (by field).
  lra.
Qed.

Lemma Sorted_fmap {A B} (R : B → B → Prop) (g : A → B) (l : list A) :
  Sorted R (g <$> l) → Sorted (λ a b, R (g a) (g b)) l.
Proof.
  induction l as [|a l IH]; [constructor|].
  rewrite fmap_cons. intros Hs. apply Sorted_inv in Hs as [Hs Hhd].
  constructor; [by apply IH|].
  destruct l; [constructor|]. rewrite fmap_cons in Hhd.
  apply HdRel_inv in Hhd. by constructor.
Qed.

Section ContributionMarginCoverage.
Import ContributionMarginAnalyzer.




Lemma rank_products_margins (margins : list margin_row) :
  margins_of <$> _rank_products margins
  = stable_sort
      (λ a b, Qle_bool (contribution_margin b) (contribution_margin a))
      margins.
Proof.
  unfold _rank_products. cbv zeta. rewrite fmap_imap.
  rewrite (imap_ext _ (const id)) by done.
  by rewrite imap_const, list_fmap_id.
Qed.

Lemma rank_products_row (margins : list margin_row) (r : ranked_row) :
  r ∈ _rank_products margins →
  let column :=
    contribution_margin <$> (margins_of <$> _rank_products margins) in
  contribution_margin (margins_of r) ∈ column
  ∧ profit_percentile r
    = rank_pct_ascending (map Fin column) (Fin (contribution_margin (margins_of r)))
  ∧ category r
    = _categorize_product (contribution_margin (margins_of r))
                          (profit_percentile r).
Proof.
  cbv zeta. rewrite rank_products_margins.
  unfold _rank_products. cbv zeta.
  set (ranked := stable_sort _ margins).
  intros (i & m & -> & Hm)%elem_of_lookup_imap.
  cbn [margins_of profit_percentile category].
  split; [|split; [|done]].
  - apply list_elem_of_fmap_2. by eapply list_elem_of_lookup_2.
  - by rewrite map_map.
Qed.

(** X10: [_rank_products] keeps every row once, orders the rows by
    contribution margin, largest first, and numbers them 1, 2, ..., n in
    that order.  The percentile of a row lies in (0, 1] and grows strictly
    with the margin, so rank and percentile agree; the category is
    "money_loser" exactly for a negative margin. *)
Theorem X10_rank_products_order (margins : list margin_row) :
  let ranked := _rank_products margins in
  let margin (r : ranked_row) := contribution_margin (margins_of r) in
  margins_of <$> ranked ≡ₚ margins
  ∧ rank <$> ranked = seq 1 (length margins)
  ∧ Sorted (λ a b, (margin b <= margin a)%Q) ranked
  ∧ Forall (λ r, ∃ p, profit_percentile r = Fin p ∧ (0 < p)%Q ∧ (p <= 1)%Q
                      ∧ (category r = "money_loser"%string ↔ (margin r < 0)%Q))
           ranked
  ∧ ∀ a b, a ∈ ranked → b ∈ ranked → (margin a < margin b)%Q →
           fltb (profit_percentile a) (profit_percentile b) = true.
Proof.
  cbv zeta. split_and!.
  - rewrite rank_products_margins. apply stable_sort_perm.
  - unfold _rank_products. cbv zeta. rewrite fmap_imap.
    rewrite (imap_ext _ (λ i _, S i)) by done.
    rewrite imap_seq_0, fmap_S_seq. by rewrite stable_sort_length.
  - apply (Sorted_fmap (λ a b, (contribution_margin b <= contribution_margin a)%Q)
             margins_of).
    rewrite rank_products_margins.
    eapply Sorted_weaken; [|apply stable_sort_sorted].
    + intros a b Hab. apply Qle_bool_iff. exact Hab.
    + intros a b. apply Qle_bool_total.
  - apply Forall_forall. intros r Hr.
    apply rank_products_row in Hr as (Hin & Hpct & Hcat).
    destruct (rank_pct_ascending_bounds _ _ Hin) as (p & Hp & H0 & H1).
    exists p. rewrite Hpct, Hp. split_and!; [done..|].
    rewrite Hcat. unfold _categorize_product.
    destruct (Qlt_bool (contribution_margin (margins_of r)) 0) eqn:Hneg.
    + apply Qlt_bool_iff in Hneg. done.
    + split; [|intros Hlt%Qlt_bool_iff; congruence].
      by repeat case_match.
  - intros a b Ha Hb Hab.
    apply rank_products_row in Ha as (Hina & -> & _).
    apply rank_products_row in Hb as (Hinb & -> & _).
    destruct (rank_pct_ascending_monotone _ _ _ Hina Hinb Hab)
      as (pa & pb & -> & -> & Hlt).
    by apply fltb_finite.
Qed.

Lemma rank_products_categories (margins : list margin_row) :
  length (_rank_products margins) = length margins
  ∧ Forall (λ r, category r = "money_loser"%string
                 ↔ (contribution_margin (margins_of r) < 0)%Q)
           (_rank_products margins).
Proof.
  split.
  - rewrite <- (length_fmap margins_of), rank_products_margins.
    apply stable_sort_length.
  - apply Forall_forall. intros r Hr.
    apply rank_products_row in Hr as (_ & _ & ->).
    unfold _categorize_product.
    destruct (Qlt_bool (contribution_margin (margins_of r)) 0) eqn:Hneg.
    + apply Qlt_bool_iff in Hneg. done.
    + split; [|intros Hlt%Qlt_bool_iff; congruence].
      by repeat case_match.
Qed.

Lemma filter_equiv_margin (ranked : list ranked_row) :
  Forall (λ r, category r = "money_loser"%string
               ↔ (contribution_margin (margins_of r) < 0)%Q) ranked →
  filter (λ r, Qlt_bool (contribution_margin (margins_of r)) 0 = true) ranked
  = filter (λ r, category r = "money_loser"%string) ranked.
Proof.
  induction 1 as [|r l Hr _ IH]; [done|].
  rewrite !filter_cons, IH.
  destruct (decide (category r = "money_loser"%string)) as [Hc|Hc].
  - rewrite decide_True; [done|]. apply Qlt_bool_iff. by apply Hr.
  - rewrite decide_False; [done|].
    intros Hlt%Qlt_bool_iff. by apply Hc, Hr.
Qed.

(** X11: the money losers of a ranked table are exactly its rows in the
    category "money_loser", each once, worst margin first; a profitable row
    is never among them. *)
Theorem X11_money_losers_of_ranking (margins : list margin_row) :
  let ranked := _rank_products margins in
  let losers := _identify_money_losers ranked in
  let margin (r : ranked_row) := contribution_margin (margins_of r) in
  losers ≡ₚ filter (λ r, category r = "money_loser"%string) ranked
  ∧ Sorted (λ a b, (margin a <= margin b)%Q) losers
  ∧ Forall (λ r, (margin r < 0)%Q) losers
  ∧ length losers
    + length (filter (λ r, Qlt_bool 0 (margin r) = true) ranked)
    ≤ length margins.
Proof.
  cbv zeta.
  destruct (rank_products_categories margins) as (Hlen & Hcat).
  unfold _identify_money_losers.
  set (ranked := _rank_products margins) in *.
  set (negative := filter _ ranked).
  assert (negative = filter (λ r, category r = "money_loser"%string) ranked)
    as Hneg.
  { unfold negative. clear -Hcat.
    induction Hcat as [|r l Hr _ IH]; [done|].
    rewrite !filter_cons, IH.
    destruct (decide (category r = "money_loser"%string)) as [Hc|Hc].
    - rewrite decide_True; [done|]. apply Qlt_bool_iff. by apply Hr.
    - rewrite decide_False; [done|].
      intros Hlt%Qlt_bool_iff. by apply Hc, Hr. }
  split_and!.
  - by rewrite stable_sort_perm, Hneg.
  - eapply Sorted_weaken; [|apply stable_sort_sorted].
    + intros a b Hab. apply Qle_bool_iff. exact Hab.
    + intros a b. apply Qle_bool_total.
  - apply Forall_forall. intros r Hr%elem_of_stable_sort.
    apply list_elem_of_filter in Hr as [Hr _]. by apply Qlt_bool_iff.
  - rewrite stable_sort_length, <- Hlen. unfold negative. clear.
    induction ranked as [|r l IH]; [done|].
    rewrite !filter_cons.
    repeat case_decide; cbn [length]; try lia.
    exfalso. rewrite Qlt_bool_iff in *. lra.
Qed.

Lemma Qsum_negative (l : list Q) :
  Forall (λ x, (x < 0)%Q) l → l ≠ [] → (Qsum l < 0)%Q.
Proof.
  induction 1 as [|x l Hx Hall IH]; [done|]. intros _. simpl.
  destruct l as [|y l]; [simpl; lra|].
  assert (Qsum (y :: l) < 0)%Q by by apply IH. lra.
Qed.

(** X16: the summary of the margin analysis.  [total_skus] counts the merged
    rows and [losing_skus] the ranked rows of category "money_loser";
    profitable and losing skus are disjoint, so together they are at most
    [total_skus]; [total_losses] is 0 when there is no losing sku and
    negative when there is one.  There are at most three insights, one of
    them about the top 30 exactly when more than 30 skus are ranked. *)
Theorem X16_margin_summary `{NumberFormat} `{PercentFormat}
    (sales : list SalesRecord) (inventory : list InventorySnapshot)
    (info : list ProductInfo) :
  let res := analyze sales inventory info in
  let sm := analysis_summary res in
  total_skus sm = length (_merge_data sales inventory info)
  ∧ losing_skus sm
    = length (filter (λ r, category r = "money_loser"%string)
                     (ranked_products res))
  ∧ profitable_skus sm + losing_skus sm ≤ total_skus sm
  ∧ (if decide (losing_skus sm = 0) then total_losses sm = Fin 0
     else fltb (total_losses sm) (Fin 0) = true)
  ∧ length (insights res) ≤ 3
  ∧ ((∃ i, i ∈ insights res ∧ insight_type i = "focus_opportunity"%string)
     ↔ 30 < total_skus sm).
Proof.
  cbv zeta. unfold analyze.
  cbn [analysis_summary total_skus profitable_skus losing_skus
       summary_total_profit total_losses ranked_products insights].
  set (merged := _merge_data sales inventory info).
  set (margins := _calculate_contribution_margins merged).
  destruct (rank_products_categories margins) as [Hlength Hcat].
  set (ranked := _rank_products margins) in *.
  set (losers := _identify_money_losers ranked).
  assert (margins_of <$> ranked ≡ₚ margins) as Hperm.
  { unfold ranked. rewrite rank_products_margins. apply stable_sort_perm. }
  assert (length ranked = length merged) as Hlen.
  { rewrite Hlength. apply length_map. }
  assert (Forall (λ r, total_profit (margins_of r)
                       = contribution_margin (margins_of r)) ranked) as Htp.
  { apply Forall_forall. intros r Hr.
    assert (margins_of r ∈ margins) as Hm.
    { rewrite <- Hperm. by apply list_elem_of_fmap_2. }
    unfold margins, _calculate_contribution_margins in Hm.
    apply (proj1 (list_elem_of_fmap _ _ _)) in Hm as (m & -> & _). done. }
  assert (losers ≡ₚ filter (λ r, Qlt_bool (contribution_margin (margins_of r)) 0
                                 = true) ranked) as Hlosers.
  { unfold losers, _identify_money_losers. apply stable_sort_perm. }
  assert (Forall (λ x, (x < 0)%Q)
            (map (λ r, total_profit (margins_of r)) losers)) as Hneg.
  { apply Forall_forall. intros x Hx.
    apply (proj1 (list_elem_of_fmap _ _ _)) in Hx as (r & -> & Hr).
    rewrite Hlosers in Hr. apply list_elem_of_filter in Hr as [Hr Hin].
    rewrite (proj1 (Forall_forall _ _) Htp r Hin). by apply Qlt_bool_iff. }
  split_and!.
  - done.
  - rewrite Hlosers. f_equal. apply filter_equiv_margin. exact Hcat.
  - rewrite Hlosers. clear. induction ranked as [|r l IH]; [done|].
    rewrite !filter_cons.
    repeat case_decide; cbn [length]; try lia.
    exfalso. rewrite Qlt_bool_iff in *. lra.
  - destruct (decide (length losers = 0)) as [Hz|Hnz].
    + by rewrite bool_decide_eq_false_2 by lia.
    + rewrite bool_decide_eq_true_2 by lia.
      apply fltb_finite.
      apply Qsum_negative; [done|]. by destruct losers.
  - unfold _generate_insights. cbv zeta. rewrite !length_app.
    repeat case_bool_decide; cbn [length]; lia.
  - unfold _generate_insights. cbv zeta. rewrite Hlen. fold merged.
    rewrite <- Hlen. split.
    + intros (i & Hi & Htype).
      case_bool_decide as H30; [done|].
      rewrite app_nil_l in Hi. apply elem_of_app in Hi as [Hi|Hi];
        case_bool_decide; try (by apply elem_of_nil in Hi);
        apply list_elem_of_singleton in Hi; by subst i.
    + intros H30. rewrite bool_decide_eq_true_2 by done.
      eexists. split; [apply elem_of_app; left; apply elem_of_cons; by left|].
      done.
Qed.
End ContributionMarginCoverage.

(** ** SlowMoverAnalyzer: days of supply, the retained rows and the report *)

Section SlowMoverCoverage.
Import SlowMoverAnalyzer.

(** The sales period is at least one day, or NaN when no sales record has
    a valid date. *)
Lemma date_range_cases (sales : list SalesRecord) :
  (date_range sales = NaN ∧ Forall (λ s, s_date s = None) sales)
  ∨ ∃ d, date_range sales = Fin d ∧ (1 <= d)%Q.
Proof.
  unfold date_range. destruct (omap s_date sales) as [|d ds] eqn:Hdates.
  - left. split; [done|]. apply Forall_forall. intros s Hs.
    destruct (s_date s) as [t|] eqn:Ht; [|done].
    assert (t ∈ omap s_date sales) as Hin
      by (apply list_elem_of_omap; by exists s).
    rewrite Hdates in Hin. by apply elem_of_nil in Hin.
  - right. unfold py_max, fgtb. cbn [fltb].
    destruct (Qlt_bool _ 1) eqn:Hlt.
    + exists 1%Q. split; [done|]. lra.
    + eexists. split; [done|].
      destruct (Qlt_le_dec (inject_Z ((foldr Z.max d ds - foldr Z.min d ds)
                                      `div` seconds_per_day)) 1) as [Hlt'|];
        [|done].
      apply Qlt_bool_iff in Hlt'. congruence.
Qed.

Lemma slow_merge_data_period (sales : list SalesRecord)
    (inventory : list InventorySnapshot) (info : list ProductInfo)
    (r : merged_row) :
  r ∈ _merge_data sales inventory info →
  sales_period_days r = date_range sales.
Proof.
  unfold _merge_data.
  intros (x & p & _ & -> & _)%elem_of_merge_left.
  by destruct x as [[k s] i].
Qed.

Lemma days_of_supply_pipeline (days_threshold : Z)
    (sales : list SalesRecord) (inventory : list InventorySnapshot)
    (info : list ProductInfo) :
  Forall (λ r,
    let b := base (velocity_of r) in
    isna (days_of_supply r) = false
    ∧ days_of_supply r ≠ NInf
    ∧ match date_range sales with
      | Fin d =>
          (1 <= d)%Q
          ∧ days_of_supply r
            = (if Qlt_bool 0 (units b)
               then Fin (quantity_on_hand b / (units b / d)) else PInf)
      | _ => Forall (λ s, s_date s = None) sales ∧ days_of_supply r = PInf
      end)
    (_calculate_days_of_supply days_threshold
       (_calculate_velocity (_merge_data sales inventory info))).
Proof.
  apply Forall_forall. intros r Hr. cbv zeta.
  unfold _calculate_days_of_supply, _calculate_velocity in Hr.
  apply (proj1 (list_elem_of_fmap _ _ _)) in Hr as (v & -> & Hv).
  apply (proj1 (list_elem_of_fmap _ _ _)) in Hv as (m & -> & Hm).
  apply slow_merge_data_period in Hm.
  cbn [days_of_supply velocity_of base units_per_day]. rewrite Hm.
  destruct (date_range_cases sales) as [[-> Hnone]|(d & -> & Hd)].
  { by cbn. }
  assert (Qeq_bool d 0 = false) as Hd0.
  { destruct (Qeq_bool d 0) eqn:Heq; [|done].
    apply Qeq_bool_iff in Heq. lra. }
  assert (fgtb (Fin d) (Fin 0) = true) as -> by (apply fgtb_finite; lra).
  cbn [fdiv]. rewrite Hd0.
  assert (Qlt_bool 0 (units m / d) = Qlt_bool 0 (units m)) as Hpos.
  { assert (0 < units m / d ↔ 0 < units m)%Q as Hiff.
    { assert (0 < / d)%Q as Hinv by (apply Qinv_lt_0_compat; lra).
      unfold Qdiv. split; intros Hlt; nra. }
    destruct (Qlt_bool 0 (units m / d)) eqn:H1,
      (Qlt_bool 0 (units m)) eqn:H2; try done.
    - apply Qlt_bool_iff, Hiff, Qlt_bool_iff in H1. congruence.
    - apply Qlt_bool_iff, Hiff, Qlt_bool_iff in H2. congruence. }
  unfold fgtb. cbn [fltb]. rewrite Hpos.
  destruct (Qlt_bool 0 (units m)) eqn:Hu; [|done].
  assert (Qeq_bool (units m / d) 0 = false) as ->.
  { destruct (Qeq_bool (units m / d) 0) eqn:Heq; [|done].
    apply Qeq_bool_iff in Heq. apply Qlt_bool_iff in Hpos. lra. }
  done.
Qed.

(** X12: along the pipeline of the analyzer the days of supply of a sku are
    never NaN and never negative infinity.  With a dated sales period of d
    days (d is at least 1) they are stock * d / units when the units sold
    are positive, and infinite otherwise; when no sales record has a valid
    date they are infinite for every sku. *)
Theorem X12_days_of_supply_defined (days_threshold : Z)
    (sales : list SalesRecord) (inventory : list InventorySnapshot)
    (info : list ProductInfo) :
  Forall (λ r,
    let b := base (velocity_of r) in
    isna (days_of_supply r) = false
    ∧ days_of_supply r ≠ NInf
    ∧ match date_range sales with
      | Fin d =>
          (1 <= d)%Q
          ∧ days_of_supply r
            = (if Qlt_bool 0 (units b)
               then Fin (quantity_on_hand b / (units b / d)) else PInf)
      | _ => Forall (λ s, s_date s = None) sales ∧ days_of_supply r = PInf
      end)
    (_calculate_days_of_supply days_threshold
       (_calculate_velocity (_merge_data sales inventory info))).
Proof. apply days_of_supply_pipeline. Qed.

Lemma slow_sales_summary_sku (sales : list SalesRecord)
    (l : sales_summary_row) :
  l ∈ sales_summary sales → ss_sku l ∈ map s_sku sales.
Proof.
  unfold sales_summary. intros Hl.
  apply (proj1 (list_elem_of_fmap _ _ _)) in Hl as (k & -> & Hk).
  by rewrite elem_of_group_keys in Hk.
Qed.

(** X13: a sku of the inventory without any sales record is always reported
    as a slow mover with urgency "critical" and infinite days of supply,
    whatever its quantity on hand, zero included. *)
Theorem X13_unsold_sku_is_critical (days_threshold : Z)
    (sales : list SalesRecord) (inventory : list InventorySnapshot)
    (info : list ProductInfo) (i : InventorySnapshot) :
  i ∈ inventory → i_sku i ∉ map s_sku sales →
  ∃ row,
    row ∈ _identify_slow_movers days_threshold
            (_calculate_days_of_supply days_threshold
               (_calculate_velocity (_merge_data sales inventory info)))
    ∧ sku (base (velocity_of (supply_of row))) = i_sku i
    ∧ quantity_on_hand (base (velocity_of (supply_of row)))
      = i_quantity_on_hand i
    ∧ days_of_supply (supply_of row) = PInf
    ∧ urgency row = "critical"%string.
Proof.
  intros Hi Hunsold.
  set (merged := _merge_data sales inventory info).
  assert (∃ m, m ∈ merged ∧ sku m = i_sku i ∧ units m = 0%Q
               ∧ quantity_on_hand m = i_quantity_on_hand i)
    as (m & Hm & Hsku & Hunits & Hqty).
  { assert (∃ p, {| sku := i_sku i; units := 0; revenue := NaN;
                    sales_period_days := date_range sales;
                    quantity_on_hand := i_quantity_on_hand i;
                    cost_per_unit := i_cost_per_unit i;
                    product_name := p_product_name <$> p |} ∈ merged)
      as [p Hp]; [|by eexists].
    unfold merged, _merge_data.
    match goal with
    | |- context [merge_left ?kl ?kr ?j ?l ?r] =>
        apply (merge_left_keeps kl kr j l r (i_sku i, None, Some i))
    end.
    apply elem_of_merge_outer. right; right. exists i.
    split_and!; [done| |done].
    intros l Hl Hk. apply slow_sales_summary_sku in Hl.
    by rewrite Hk in Hl. }
  pose proof (days_of_supply_pipeline days_threshold sales inventory info)
    as Hdays.
  fold merged in Hdays.
  unfold _calculate_days_of_supply, _calculate_velocity in *.
  rewrite map_map in *.
  match type of Hdays with
  | Forall _ (map ?f merged) => set (supply := f) in *
  end.
  assert (supply m ∈ map supply merged) as Hin
    by by apply list_elem_of_fmap_2.
  apply (proj1 (Forall_forall _ _) Hdays) in Hin as Hrow.
  cbv zeta in Hrow. destruct Hrow as (_ & _ & Hrow).
  assert (days_of_supply (supply m) = PInf) as Hinf.
  { change (base (velocity_of (supply m))) with m in Hrow.
    rewrite Hunits in Hrow.
    destruct (date_range sales); by destruct Hrow as [_ ->]. }
  exists {| supply_of := supply m;
            urgency := _get_urgency days_threshold
                         (days_of_supply (supply m)) |}.
  split_and!; [|done|done|done|by rewrite Hinf].
  unfold _identify_slow_movers.
  apply (proj2 (list_elem_of_fmap _ _ _)). exists (supply m). split; [done|].
  apply elem_of_stable_sort. apply list_elem_of_filter.
  split; [|done]. rewrite Hinf. by rewrite orb_true_r.
Qed.

Lemma X13_witness :
  ∃ row,
    row ∈ _identify_slow_movers 180
            (_calculate_days_of_supply 180
               (_calculate_velocity
                  (_merge_data Scenarios.margin_sales
                     [{| i_sku := "Z"; i_quantity_on_hand := 0;
                         i_cost_per_unit := 1 |}] [])))
    ∧ urgency row = "critical"%string.
Proof.
  destruct (X13_unsold_sku_is_critical 180 Scenarios.margin_sales
              [{| i_sku := "Z"; i_quantity_on_hand := 0; i_cost_per_unit := 1 |}]
              []
              {| i_sku := "Z"; i_quantity_on_hand := 0; i_cost_per_unit := 1 |})
    as (row & Hrow & _ & _ & _ & Hurgency).
  - apply elem_of_cons. by left.
  - by_evaluation.
  - by exists row.
Defined.

Lemma fleb_trans (a b c : float) :
  fleb a b = true → fleb b c = true → fleb a c = true.
Proof.
  destruct a, b, c; simpl; try done.
  rewrite !Qle_bool_iff. lra.
Qed.

Lemma StronglySorted_precedes {A} (R : A → A → Prop) (l : list A) (a b : A) :
  StronglySorted R l → precedes a b l → R a b.
Proof.
  intros Hs (l1 & l2 & l3 & ->).
  induction l1 as [|x l1 IH]; simpl in Hs.
  - apply StronglySorted_inv in Hs as [_ Hall].
    apply (proj1 (Forall_forall _ _) Hall).
    apply elem_of_app. right. apply elem_of_cons. by left.
  - apply StronglySorted_inv in Hs as [Hs _]. by apply IH.
Qed.

(** A row the filter retains: its days of supply are infinite or a finite
    number at or above the threshold, and its urgency follows from them. *)
Lemma retained_row (days_threshold : Z) (days_supply : list supply_row)
    (row : slow_mover_row) :
  row ∈ _identify_slow_movers days_threshold days_supply →
  supply_of row ∈ days_supply
  ∧ urgency row = _get_urgency days_threshold (days_of_supply (supply_of row))
  ∧ (days_of_supply (supply_of row) = PInf
     ∨ ∃ d, days_of_supply (supply_of row) = Fin d
            ∧ Qle_bool (inject_Z days_threshold) d = true).
Proof.
  unfold _identify_slow_movers.
  intros Hrow. apply (proj1 (list_elem_of_fmap _ _ _)) in Hrow as (r & -> & Hr).
  apply elem_of_stable_sort, list_elem_of_filter in Hr as [Hkeep Hr].
  cbn [supply_of urgency]. split_and!; [done..|].
  destruct (days_of_supply r) as [d| | |]; simpl in Hkeep; try done.
  - right. exists d. by rewrite orb_false_r in Hkeep.
  - by left.
Qed.

Lemma retained_urgency (days_threshold : Z) (days_supply : list supply_row)
    (row : slow_mover_row) :
  row ∈ _identify_slow_movers days_threshold days_supply →
  urgency row = "critical"%string ∨ urgency row = "high"%string.
Proof.
  intros (_ & -> & [->|(d & -> & Hd)])%retained_row; [by left|].
  unfold _get_urgency, threshold. cbn [isinf fgeb fleb]. rewrite Hd.
  destruct (Qle_bool 365 d); auto.
Qed.

(** X14: the table of slow movers is ordered by days of supply, largest
    first with the infinite ones on top, so that every row of urgency
    "critical" comes before every row of urgency "high". *)
Theorem X14_critical_rows_first (days_threshold : Z)
    (days_supply : list supply_row) :
  let rows := _identify_slow_movers days_threshold days_supply in
  let days (r : slow_mover_row) := days_of_supply (supply_of r) in
  Sorted (λ a b, fgeb (days a) (days b) = true) rows
  ∧ ∀ a b, precedes a b rows →
           urgency b = "critical"%string → urgency a = "critical"%string.
Proof.
  cbv zeta.
  assert (Sorted (λ a b, fgeb (days_of_supply (supply_of a))
                              (days_of_supply (supply_of b)) = true)
            (_identify_slow_movers days_threshold days_supply)) as Hsorted.
  { apply (Sorted_fmap (λ a b, fgeb (days_of_supply a) (days_of_supply b) = true)
             supply_of).
    unfold _identify_slow_movers.
    rewrite <- list_fmap_compose.
    match goal with
    | |- Sorted _ (?f <$> ?l) =>
        assert (f <$> l = l) as ->
          by (rewrite <- (list_fmap_id l) at 2; by apply list_fmap_ext)
    end.
    apply (stable_sort_sorted_on _ (λ r, isna (days_of_supply r) = false)).
    - intros a b Ha Hb. unfold fgeb. by apply fleb_total.
    - apply Forall_forall. intros r [Hkeep _]%list_elem_of_filter.
      by destruct (days_of_supply r). }
  split; [done|].
  intros a b Hab Hb.
  assert (fgeb (days_of_supply (supply_of a)) (days_of_supply (supply_of b))
          = true) as Hge.
  { apply (StronglySorted_precedes
             (λ a b, fgeb (days_of_supply (supply_of a))
                          (days_of_supply (supply_of b)) = true)
             (_identify_slow_movers days_threshold days_supply)); [|done].
    apply Sorted_StronglySorted; [|done].
    intros x y z Hxy Hyz. unfold fgeb in *. by eapply fleb_trans. }
  assert (a ∈ _identify_slow_movers days_threshold days_supply) as Ha.
  { destruct Hab as (l1 & l2 & l3 & ->).
    apply elem_of_app. right. apply elem_of_cons. by left. }
  assert (b ∈ _identify_slow_movers days_threshold days_supply) as Hb'.
  { destruct Hab as (l1 & l2 & l3 & ->).
    apply elem_of_app. right. apply elem_of_cons. right.
    apply elem_of_app. right. apply elem_of_cons. by left. }
  apply retained_row in Ha as (_ & Hua & Hda).
  apply retained_row in Hb' as (_ & Hub & Hdb).
  rewrite Hua. rewrite Hub in Hb. clear Hua Hub.
  unfold _get_urgency, threshold, fgeb in *.
  destruct Hda as [Ha|(x & Ha & Hx)]; rewrite Ha in *; [done|].
  destruct Hdb as [Hinf|(y & Hy & Hty)].
  { rewrite Hinf in Hge. cbn in Hge. done. }
  rewrite Hy in *. cbn [isinf fleb] in *. rewrite Hx. rewrite Hty in Hb.
  destruct (Qle_bool 365 y) eqn:H365; [|done].
  assert (Qle_bool 365 x = true) as ->; [|done].
  apply Qle_bool_iff in H365, Hge. apply Qle_bool_iff. lra.
Qed.

Lemma elem_of_take_inv {A} (n : nat) (l : list A) (x : A) :
  x ∈ take n l → x ∈ l.
Proof. intros (i & Hi & _)%elem_of_take. by eapply list_elem_of_lookup_2. Qed.

Lemma for_each_ok {A B} (body : A → result B) (l : list A) :
  Forall (λ x, ∃ y, body x = Ok y) l →
  ∃ ys, for_each body l = Ok ys ∧ Forall2 (λ x y, body x = Ok y) l ys.
Proof.
  induction 1 as [|x l [y Hy] _ (ys & Hys & Hall)].
  - exists []. by split; [|constructor].
  - exists (y :: ys). cbn [for_each]. rewrite Hy, Hys.
    split; [done|]. by constructor.
Qed.

(** X15: [analyze] never raises: the only step that can, the conversion
    [int(days)] of the per-sku texts, is reached with days of supply that
    are never NaN.  Its report has no recommendation exactly when it has no
    slow mover, at most twelve otherwise (two summaries and ten skus), and
    every one of them has priority "critical" or "high". *)
Theorem X15_slow_mover_report `{NumberFormat} (days_threshold : Z)
    (sales : list SalesRecord) (inventory : list InventorySnapshot)
    (info : list ProductInfo) :
  ∃ res,
    analyze days_threshold sales inventory info = Ok res
    ∧ slow_movers_count (analysis_summary res)
      ≤ total_skus_analyzed (analysis_summary res)
    ∧ (recommendations res = [] ↔ slow_movers res = [])
    ∧ length (recommendations res) ≤ 12
    ∧ Forall (λ rec, rec_priority rec = Some "critical"%string
                     ∨ rec_priority rec = Some "high"%string)
             (recommendations res).
Proof.
  unfold analyze.
  set (days_supply := _calculate_days_of_supply days_threshold _).
  set (rows := _identify_slow_movers days_threshold days_supply).
  assert (length rows ≤ length days_supply) as Hcount.
  { unfold rows, _identify_slow_movers.
    rewrite length_map, stable_sort_length. apply length_filter. }
  assert (∃ per_sku,
            for_each (sku_recommendation) (take 10 rows) = Ok per_sku
            ∧ length per_sku = length (take 10 rows)
            ∧ Forall (λ rec, rec_priority rec = Some "critical"%string
                             ∨ rec_priority rec = Some "high"%string) per_sku)
    as (per_sku & Hfor & Hlen & Hprio).
  { destruct (for_each_ok sku_recommendation (take 10 rows))
      as (ys & Hys & Hall).
    { apply Forall_forall. intros row Hrow%elem_of_take_inv.
      unfold sku_recommendation.
      apply retained_row in Hrow as (_ & _ & [->|(d & -> & _)]);
        cbn [days_str mbind result_bind]; by eexists. }
    exists ys. split; [done|]. split; [symmetry; by eapply Forall2_length|].
    assert (Forall (λ row, urgency row = "critical"%string
                           ∨ urgency row = "high"%string) (take 10 rows))
      as Hurgency.
    { apply Forall_forall. intros row Hrow%elem_of_take_inv.
      by eapply retained_urgency. }
    clear -Hall Hurgency.
    induction Hall as [|row rec l ys Hbody _ IH]; [constructor|].
    apply Forall_cons in Hurgency as [Hrow Hurgency].
    constructor; [|by apply IH].
    unfold sku_recommendation in Hbody.
    destruct (days_str _); [|done]. cbn in Hbody. injection Hbody as <-.
    cbn [rec_priority]. destruct Hrow as [->| ->]; auto. }
  unfold _generate_recommendations. fold rows.
  destruct rows as [|row0 rows'] eqn:Hrows.
  { cbn. eexists. split; [done|]. cbn. split_and!; [lia|done|lia|constructor]. }
  rewrite <- Hrows in *. rewrite Hfor. cbn [mbind result_bind].
  eexists. split; [done|].
  cbn [analysis_summary slow_movers_count total_skus_analyzed recommendations
       slow_movers].
  assert (per_sku ≠ []) as Hne.
  { rewrite Hrows in Hlen. destruct per_sku; [done|done]. }
  split_and!.
  - done.
  - split; [|by rewrite Hrows].
    intros Hnil. apply app_eq_nil in Hnil as [_ Hnil].
    by apply app_eq_nil in Hnil as [_ Hnil].
  - rewrite !length_app, Hlen, length_take.
    repeat case_bool_decide; cbn [length]; lia.
  - repeat apply Forall_app_2; [| |done].
    + case_bool_decide; [apply Forall_singleton; by left|constructor].
    + case_bool_decide; [apply Forall_singleton; by right|constructor].
Qed.
End SlowMoverCoverage.

(** ** NewProductScoringAnalyzer: new products, benchmarks and scores *)

Lemma foldr_max_spec (w : Z) (ws : list Z) :
  foldr Z.max w ws ∈ w :: ws ∧ Forall (λ x, (x ≤ foldr Z.max w ws)%Z) (w :: ws).
Proof.
  induction ws as [|x ws [Hin Hall]]; simpl.
  - split; [apply elem_of_cons; by left|]. repeat constructor. lia.
  - split.
    + destruct (Z.max_spec x (foldr Z.max w ws)) as [[_ ->]|[_ ->]].
      * apply elem_of_cons in Hin as [Hin|Hin].
        { apply elem_of_cons. by left. }
        apply elem_of_cons. right. apply elem_of_cons. by right.
      * apply elem_of_cons. right. apply elem_of_cons. by left.
    + apply Forall_cons in Hall as [Hw Hall].
      constructor; [lia|]. constructor; [lia|].
      eapply Forall_impl; [exact Hall|]. intros y Hy. simpl in Hy. lia.
Qed.

(** A dict filled in a loop over its keys. *)
Lemma foldl_insert_lookup {V} (f : Z → V) (ws : list Z) (w : Z) :
  foldl (λ m k, <[k := f k]> m) (∅ : gmap Z V) ws !! w
  = if decide (w ∈ ws) then Some (f w) else None.
Proof.
  induction ws as [|k ws IH] using rev_ind.
  { rewrite decide_False by by intros ?%elem_of_nil. apply lookup_empty. }
  rewrite foldl_app. cbn [foldl].
  destruct (decide (k = w)) as [->|Hne].
  - rewrite lookup_insert_eq.
    rewrite decide_True; [done|]. apply elem_of_app. right.
    apply elem_of_cons. by left.
  - rewrite lookup_insert_ne by done. rewrite IH.
    destruct (decide (w ∈ ws)) as [Hin|Hin].
    + rewrite decide_True; [done|]. apply elem_of_app. by left.
    + rewrite decide_False; [done|].
      intros [?|Hk]%elem_of_app; [done|].
      apply list_elem_of_singleton in Hk. congruence.
Qed.

Lemma quantile_linear_empty (q : Q) : quantile_linear [] q = NaN.
Proof.
  unfold quantile_linear, quantile_sorted. cbn [existsb stable_sort length].
  cbv zeta. destruct (Z.to_nat _), (Nat.min _ _); unfold lerp;
    by destruct (Qle_bool _ _).
Qed.

(** On a non-empty finite column the quantiles are finite and ordered. *)
Lemma quantile_linear_mono (qs : list Q) (q1 q2 : Q) :
  qs ≠ [] → (0 <= q1)%Q → (q1 <= q2)%Q → (q2 <= 1)%Q →
  ∃ v1 v2, quantile_linear (map Fin qs) q1 = Fin v1
           ∧ quantile_linear (map Fin qs) q2 = Fin v2
           ∧ (v1 <= v2)%Q.
Proof.
  intros Hne H0 H12 H1. unfold quantile_linear.
  assert (existsb isna (map Fin qs) = false) as ->.
  { apply existsb_isna_false. apply Forall_forall.
    intros x Hx. apply (proj1 (list_elem_of_fmap _ _ _)) in Hx as (y & -> & _).
    done. }
  rewrite stable_sort_finite.
  assert (0 < length (stable_sort Qle_bool qs)) as Hn.
  { rewrite stable_sort_length. destruct qs; simpl in *; [done|lia]. }
  destruct (quantile_sorted_finite (stable_sort Qle_bool qs) q1 Hn)
    as (v1 & E1 & _); [lra..|].
  destruct (quantile_sorted_finite (stable_sort Qle_bool qs) q2 Hn)
    as (v2 & E2 & _); [lra..|].
  exists v1, v2. split_and!; [done..|].
  by eapply (quantile_sorted_mono _ q1 q2 v1 v2 (stable_sort_Qle qs)).
Qed.

Section NewProductScoringCoverage.
Import NewProductScoringAnalyzer.

(** X17: [_identify_new_products] raises [ValueError] exactly when there is
    no analysis window.  Otherwise, with W the largest window, it returns
    the products launched at most W days before the current date, in the
    order of the product table: each has a launch date, a number of days
    since launch of at most W, and a product without launch date (NaT) is
    never new. *)
Theorem X17_new_products_within_largest_window (windows : list Z)
    (products : list ProductInfo) (now : Z) :
  match _identify_new_products windows products now with
  | Raise e => windows = [] ∧ e = ValueError "max() arg is an empty sequence"
  | Ok new =>
      ∃ W, W ∈ windows ∧ Forall (λ w, (w ≤ W)%Z) windows
           ∧ info <$> new `sublist_of` products
           ∧ Forall (λ n,
               ∃ l d, p_launch_date (info n) = Some l
                      ∧ days_since_launch n = Some d
                      ∧ d = ((now - l) `div` seconds_per_day)%Z
                      ∧ (d ≤ W)%Z) new
           ∧ ∀ p l, p ∈ products → p_launch_date p = Some l →
                    (now - W * seconds_per_day ≤ l)%Z → p ∈ info <$> new
  end.
Proof.
  unfold _identify_new_products. destruct windows as [|w ws]; [done|].
  destruct (foldr_max_spec w ws) as [Hin Hmax].
  set (W := foldr Z.max w ws) in *.
  exists W. split_and!; [done|done| | |].
  - rewrite <- list_fmap_compose.
    match goal with
    | |- ?f <$> ?l `sublist_of` _ =>
        assert (f <$> l = l) as ->
          by (rewrite <- (list_fmap_id l) at 2; by apply list_fmap_ext)
    end.
    apply sublist_filter.
  - apply Forall_forall. intros n Hn.
    apply (proj1 (list_elem_of_fmap _ _ _)) in Hn as (p & -> & Hp).
    apply list_elem_of_filter in Hp as [Hp _].
    cbn [info days_since_launch]. unfold launched_since in Hp.
    destruct (p_launch_date p) as [l|]; [|done].
    apply bool_decide_eq_true in Hp.
    exists l, ((now - l) `div` seconds_per_day)%Z.
    split_and!; [done..|].
    apply Z.div_le_upper_bound; [done|]. unfold seconds_per_day in *. lia.
  - intros p l Hp Hl Hcut.
    apply (proj2 (list_elem_of_fmap _ _ _)). eexists. split; [|
      apply (proj2 (list_elem_of_fmap _ _ _)); exists p; split; [done|] ].
    + done.
    + apply list_elem_of_filter. split; [|done].
      unfold launched_since. rewrite Hl. by apply bool_decide_eq_true.
Qed.

(** X18: for every analysis window the benchmarks hold an entry, and
    nothing for any other key; the three revenue percentiles of an entry
    are either all NaN (no sale falls into the window) or finite and
    ordered, p50 <= p75 <= p90, and so are the three units percentiles. *)
Theorem X18_benchmarks_ordered (windows : list Z) (sales : list SalesRecord)
    (products : list ProductInfo) :
  let benchmarks := _calculate_benchmarks windows sales products in
  (∀ w, w ∉ windows → benchmarks !! w = None)
  ∧ Forall (λ w,
      ∃ b, benchmarks !! w = Some b
           ∧ ((revenue_p50 b = NaN ∧ revenue_p75 b = NaN ∧ revenue_p90 b = NaN
               ∧ units_p50 b = NaN ∧ units_p75 b = NaN ∧ units_p90 b = NaN)
              ∨ (∃ r50 r75 r90 u50 u75 u90,
                   revenue_p50 b = Fin r50 ∧ revenue_p75 b = Fin r75
                   ∧ revenue_p90 b = Fin r90
                   ∧ units_p50 b = Fin u50 ∧ units_p75 b = Fin u75
                   ∧ units_p90 b = Fin u90
                   ∧ (r50 <= r75)%Q ∧ (r75 <= r90)%Q
                   ∧ (u50 <= u75)%Q ∧ (u75 <= u90)%Q))) windows.
Proof.
  cbv zeta. unfold _calculate_benchmarks. cbv zeta.
  set (merged := merge_left _ _ _ sales products).
  split.
  - intros w Hw.
    rewrite (foldl_insert_lookup
               (λ window, {| revenue_p50 := _; revenue_p75 := _;
                             revenue_p90 := _; units_p50 := _;
                             units_p75 := _; units_p90 := _ |})).
    by rewrite decide_False.
  - apply Forall_forall. intros w Hw.
    rewrite (foldl_insert_lookup
               (λ window, {| revenue_p50 := _; revenue_p75 := _;
                             revenue_p90 := _; units_p50 := _;
                             units_p75 := _; units_p90 := _ |})).
    rewrite decide_True by done. eexists. split; [done|].
    cbn [revenue_p50 revenue_p75 revenue_p90 units_p50 units_p75 units_p90].
    destruct (window_summary w merged) as [|r rows] eqn:Hrows.
    { left. cbn [map]. by rewrite !quantile_linear_empty. }
    right. clear Hrows.
    assert (r :: rows ≠ []) as Hne by done.
    set (summary := r :: rows) in *. clearbody summary.
    assert (map (λ r, Fin (w_revenue r)) summary
            = map Fin (map w_revenue summary)) as -> by by rewrite map_map.
    assert (map (λ r, Fin (w_units r)) summary
            = map Fin (map w_units summary)) as -> by by rewrite map_map.
    assert (map w_revenue summary ≠ []) as Hr by by destruct summary.
    assert (map w_units summary ≠ []) as Hu by by destruct summary.
    destruct (quantile_linear_mono _ (50 # 100) (75 # 100) Hr)
      as (r50 & r75 & E50 & E75 & H5075); [done..|].
    destruct (quantile_linear_mono _ (75 # 100) (90 # 100) Hr)
      as (r75' & r90 & E75' & E90 & H7590); [done..|].
    destruct (quantile_linear_mono _ (50 # 100) (75 # 100) Hu)
      as (u50 & u75 & F50 & F75 & G5075); [done..|].
    destruct (quantile_linear_mono _ (75 # 100) (90 # 100) Hu)
      as (u75' & u90 & F75' & F90 & G7590); [done..|].
    rewrite E75 in E75'. injection E75' as <-.
    rewrite F75 in F75'. injection F75' as <-.
    exists r50, r75, r90, u50, u75, u90. by split_and!.
Qed.

Lemma score_against_finite (x : Q) (p50 p75 : float) :
  ∃ v, score_against x p50 p75 = Fin v ∧ (v <= 1)%Q.
Proof.
  unfold score_against.
  destruct (fgtb p50 (Fin 0)); [|exists 0%Q; split; [done|lra]].
  destruct (fgtb p75 (Fin 0)) eqn:Hp75; [|exists 0%Q; split; [done|lra]].
  destruct (capped_ratio_finite x p75 Hp75) as (v & -> & Hv & _).
  by exists v.
Qed.

Lemma score_window_finite (all : list window_row) (benchmarks : gmap Z bench)
    (sku : string) (window : Z) :
  (∃ v, e_revenue_score (score_window all benchmarks sku window) = Fin v
        ∧ (v <= 1)%Q)
  ∧ (∃ v, e_units_score (score_window all benchmarks sku window) = Fin v
          ∧ (v <= 1)%Q).
Proof.
  unfold score_window. destruct (filter _ all) as [|r rows].
  - split; exists 0%Q; (split; [done|lra]).
  - split; apply score_against_finite.
Qed.

(** The mean of finitely many scores of at most 1 is a score of at most 1. *)
Lemma np_mean_scores (l : list float) :
  l ≠ [] → Forall (λ x, ∃ v, x = Fin v ∧ (v <= 1)%Q) l →
  ∃ v, np_mean l = Fin v ∧ (v <= 1)%Q.
Proof.
  intros Hne Hall. unfold np_mean.
  assert (∃ s, foldr fadd (Fin 0) l = Fin s ∧ (s <= Qnat (length l))%Q)
    as (s & -> & Hs).
  { clear Hne. induction Hall as [|x l (v & -> & Hv) _ (s & Hs & Hle)].
    - exists 0%Q. split; [done|]. apply Qle_refl.
    - exists (v + s)%Q. cbn [foldr length]. rewrite Hs. split; [done|].
      change (S (length l)) with (1 + length l). rewrite Qnat_plus.
      change (Qnat 1) with 1%Q. lra. }
  assert (0 < Qnat (length l))%Q as Hn.
  { apply Qnat_pos. destruct l; [done|simpl; lia]. }
  cbn [fdiv].
  destruct (Qeq_bool (Qnat (length l)) 0) eqn:Hz.
  { apply Qeq_bool_iff in Hz. lra. }
  eexists. split; [done|].
  apply Qle_shift_div_r; [done|]. lra.
Qed.

Lemma score_sku_overall (windows : list Z) (all : list window_row)
    (benchmarks : gmap Z bench) (sku : string) :
  windows ≠ [] →
  ∃ v, sc_overall_score (score_sku windows all benchmarks sku) = Fin v
       ∧ (v <= 1)%Q.
Proof.
  intros Hne. unfold score_sku. cbv zeta. cbn [sc_overall_score].
  set (entries := foldl _ ∅ windows).
  assert (∀ w, w ∈ windows →
            entries !! w = Some (score_window all benchmarks sku w)) as Hentry.
  { intros w Hw. unfold entries.
    rewrite (foldl_insert_lookup (score_window all benchmarks sku)).
    by rewrite decide_True. }
  destruct (np_mean_scores
              (map (λ w, from_option e_revenue_score (Fin 0) (entries !! w))
                   windows)) as (r & -> & Hr).
  { by destruct windows. }
  { apply Forall_forall. intros x Hx.
    apply (proj1 (list_elem_of_fmap _ _ _)) in Hx as (w & -> & Hw).
    rewrite (Hentry w Hw). apply score_window_finite. }
  destruct (np_mean_scores
              (map (λ w, from_option e_units_score (Fin 0) (entries !! w))
                   windows)) as (u & -> & Hu).
  { by destruct windows. }
  { apply Forall_forall. intros x Hx.
    apply (proj1 (list_elem_of_fmap _ _ _)) in Hx as (w & -> & Hw).
    rewrite (Hentry w Hw). apply score_window_finite. }
  cbn [fmul fadd]. eexists. split; [done|]. lra.
Qed.

(** The rows of [scores]: one per new product, each with its scores. *)
Lemma score_rows (windows : list Z) (new : list new_product)
    (sales : list SalesRecord) (benchmarks : gmap Z bench) :
  windows ≠ [] →
  let rows := _score_new_products windows new sales benchmarks in
  product <$> rows = new
  ∧ Forall (λ row, ∃ v, overall_score row = Fin v ∧ (v <= 1)%Q
                        ∧ performance_category row
                          = _categorize_performance (Fin v)
                        ∧ is_Some (scores_of row)) rows.
Proof.
  intros Hne. cbv zeta. unfold _score_new_products. cbv zeta.
  set (all := all_window_scores windows new sales).
  set (skus := unique (map (λ n, p_sku (info n)) new)).
  assert (sc_sku <$> map (score_sku windows all benchmarks) skus = skus)
    as Hkeys.
  { induction skus as [|k ks IH]; [done|].
    cbn [map fmap list_fmap]. f_equal. exact IH. }
  split.
  - apply (merge_left_unique _ sc_sku _ product); [|done].
    rewrite Hkeys. apply NoDup_unique.
  - apply Forall_forall. intros row Hrow.
    apply elem_of_merge_left in Hrow as (n & o & Hn & -> & Ho).
    destruct o as [sc|].
    + destruct Ho as [Hsc _].
      apply (proj1 (list_elem_of_fmap _ _ _)) in Hsc as (k & -> & _).
      destruct (score_sku_overall windows all benchmarks k Hne)
        as (v & Hv & Hle).
      exists v. cbn [overall_score performance_category scores_of from_option].
      rewrite Hv. by split_and!.
    + exfalso.
      apply (Ho (score_sku windows all benchmarks (p_sku (info n)))); [|done].
      apply (proj2 (list_elem_of_fmap _ _ _)). eexists. split; [done|].
      apply elem_of_unique.
      apply (proj2 (list_elem_of_fmap _ _ _)). by exists n.
Qed.

Lemma filter_equiv {A} (P Q : A → Prop) `{!∀ x, Decision (P x)}
    `{!∀ x, Decision (Q x)} (l : list A) :
  Forall (λ x, P x ↔ Q x) l → filter P l = filter Q l.
Proof.
  induction 1 as [|x l Hx _ IH]; [done|].
  rewrite !filter_cons, IH.
  destruct (decide (P x)), (decide (Q x)); tauto.
Qed.

(** X19: in a result of [analyze] there is exactly one score row per new
    product, in the order of the product table; every overall score is a
    number of at most 1, never NaN, so no product is ever categorised as
    "insufficient_data".  The underperformers are exactly the rows with a
    score below 0.6, lowest score first.  [winners_count] counts the scores
    of at least 0.7 and so is at least the number of rows in the category
    "winner" (which starts at 0.8); winners and underperformers together
    never exceed the new products.  [analyze] raises only when there is no
    analysis window. *)
Theorem X19_new_product_scores `{NumberFormat} (windows : list Z)
    (sales : list SalesRecord) (products : list ProductInfo) (now : Z) :
  match analyze windows sales products now with
  | Raise e => windows = []
  | Ok res =>
      let sm := analysis_summary res in
      product <$> scores res = new_products res
      ∧ new_products_count sm = length (scores res)
      ∧ Forall (λ row, ∃ v, overall_score row = Fin v ∧ (v <= 1)%Q
                            ∧ performance_category row
                              ≠ "insufficient_data"%string
                            ∧ is_Some (scores_of row)) (scores res)
      ∧ (∀ rows, underperformers res = Some rows →
           rows ≡ₚ filter (λ r, fltb (overall_score r) (Fin (6 # 10)) = true)
                          (scores res)
           ∧ Sorted (λ a b, fleb (overall_score a) (overall_score b) = true)
                    rows
           ∧ underperformers_count sm = length rows)
      ∧ length (filter (λ r, performance_category r = "winner"%string)
                       (scores res)) ≤ winners_count sm
      ∧ underperformers_count sm + winners_count sm ≤ new_products_count sm
  end.
Proof.
  unfold analyze.
  destruct (_identify_new_products windows products now) as [new|e] eqn:Hnew;
    cbn [mbind result_bind].
  2: { unfold _identify_new_products in Hnew. by destruct windows. }
  assert (windows ≠ []) as Hne.
  { unfold _identify_new_products in Hnew. by destruct windows. }
  destruct new as [|n0 new'] eqn:Hnew0.
  { cbv zeta. cbn. split_and!; [done|done|constructor|done|lia|lia]. }
  rewrite <- Hnew0. cbv zeta.
  cbn [analysis_summary scores new_products underperformers
       new_products_count underperformers_count winners_count].
  destruct (score_rows windows new sales
              (_calculate_benchmarks windows sales products) Hne)
    as [Hproduct Hrows].
  set (rows := _score_new_products windows new sales _) in *.
  assert (Forall (λ r, (performance_category r = "underperforming"%string
                        ∨ performance_category r = "poor"%string)
                       ↔ fltb (overall_score r) (Fin (6 # 10)) = true) rows)
    as Hunder.
  { eapply Forall_impl; [exact Hrows|].
    intros r (v & -> & _ & -> & _). cbn beta.
    unfold _categorize_performance, fgeb. cbn [isna fleb fltb].
    unfold Qlt_bool.
    assert (Qle_bool (8 # 10) v = true → Qle_bool (6 # 10) v = true) as H86
      by (rewrite !Qle_bool_iff; lra).
    destruct (Qle_bool (8 # 10) v) eqn:H8, (Qle_bool (6 # 10) v) eqn:H6,
      (Qle_bool (4 # 10) v) eqn:H4; cbn [negb];
      try (specialize (H86 eq_refl); discriminate);
      (split; [try done; intros [?|?]; done|try done; auto]). }
  assert (Forall (λ r, isna (overall_score r) = false) rows) as Hdefined.
  { eapply Forall_impl; [exact Hrows|]. by intros r (v & -> & _). }
  split_and!.
  - done.
  - by rewrite <- Hproduct, length_fmap.
  - eapply Forall_impl; [exact Hrows|].
    intros r (v & Hv & Hle & Hcat & Hsome). exists v.
    split_and!; [done..| |done].
    rewrite Hcat. unfold _categorize_performance. cbn [isna].
    by repeat case_match.
  - intros unders [= <-]. unfold _identify_underperformers.
    rewrite (filter_equiv _ _ _ Hunder). split_and!.
    + apply stable_sort_perm.
    + apply (stable_sort_sorted_on _ (λ r, isna (overall_score r) = false)).
      * intros a b. apply fleb_total.
      * apply Forall_forall. intros r [_ Hr]%list_elem_of_filter.
        by apply (proj1 (Forall_forall _ _) Hdefined).
    + done.
  - clear -Hrows. induction Hrows as [|r l (v & Hv & _ & Hcat & _) _ IH];
      [done|].
    rewrite !filter_cons.
    destruct (decide (performance_category r = "winner"%string)) as [Hw|Hw];
      destruct (decide (fgeb (overall_score r) (Fin (7 # 10)) = true))
        as [Hs|Hs]; cbn [length]; try lia.
    exfalso. apply Hs. rewrite Hv in *. rewrite Hcat in Hw.
    unfold _categorize_performance, fgeb in *. cbn [isna fleb] in *.
    destruct (Qle_bool (8 # 10) v) eqn:H8.
    + apply Qle_bool_iff in H8. apply Qle_bool_iff. lra.
    + by repeat case_match.
  - unfold _identify_underperformers.
    rewrite stable_sort_length, (filter_equiv _ _ _ Hunder).
    rewrite <- Hproduct, length_fmap.
    clear -Hrows. induction Hrows as [|r l (v & Hv & _) _ IH]; [done|].
    rewrite !filter_cons.
    destruct (decide (fltb (overall_score r) (Fin (6 # 10)) = true)) as [Hu|Hu];
      destruct (decide (fgeb (overall_score r) (Fin (7 # 10)) = true))
        as [Hs|Hs]; cbn [length]; try lia.
    exfalso. rewrite Hv in *. unfold fgeb in Hs. cbn [fleb fltb] in *.
    apply Qlt_bool_iff in Hu. apply Qle_bool_iff in Hs. lra.
Qed.
End NewProductScoringCoverage.

(** ** PerformanceOptimizer: the entries of the traffic-light map *)

Section StatusEntryCoverage.
Import PerformanceOptimizer.

(** A loop whose body updates the entry of the sku of the row, if there is
    one: on each sku it runs the body once per row of that sku. *)
Lemma foldl_mark_lookup (mark : gmap string StatusEntry → string
                                → gmap string StatusEntry)
    (body : StatusEntry → StatusEntry) :
  (∀ m k sku, mark m k !! sku
              = (if decide (k = sku) then body else id) <$> m !! sku) →
  ∀ l m sku,
    foldl mark m l !! sku
    = Nat.iter (length (filter (λ k, k = sku) l)) body <$> m !! sku.
Proof.
  intros Hmark l. induction l as [|k l IH]; intros m sku.
  { cbn. by destruct (m !! sku). }
  cbn [foldl]. rewrite IH, Hmark, filter_cons.
  destruct (decide (k = sku)) as [->|Hne].
  - cbn [length]. destruct (m !! sku) as [e|]; [|done].
    cbn [fmap option_fmap option_map]. by rewrite Nat.iter_succ_r.
  - by destruct (m !! sku).
Qed.

Lemma mark_body_lookup (body : StatusEntry → StatusEntry)
    (m : gmap string StatusEntry) (k sku : string) :
  match m !! k with
  | Some e => <[k := body e]> m
  | None => m
  end !! sku
  = (if decide (k = sku) then body else id) <$> m !! sku.
Proof.
  destruct (decide (k = sku)) as [->|Hne].
  - destruct (m !! sku) as [e|] eqn:He; [|by rewrite He].
    by rewrite lookup_insert_eq.
  - destruct (m !! k) as [e|]; [rewrite lookup_insert_ne by done|];
      by destruct (m !! sku).
Qed.

Lemma mark_underperformer_lookup (m : gmap string StatusEntry)
    (k sku : string) :
  mark_underperformer m k !! sku
  = (if decide (k = sku)
     then λ e, if decide (status e = green)
               then add_issue "Underperforming new product"
                      (set_status yellow e)
               else e
     else id) <$> m !! sku.
Proof.
  unfold mark_underperformer.
  destruct (decide (k = sku)) as [->|Hne].
  - destruct (m !! sku) as [e|] eqn:He; [|by rewrite He].
    cbn [fmap option_fmap option_map].
    destruct (decide (status e = green)).
    + by rewrite lookup_insert_eq.
    + by rewrite He.
  - destruct (m !! k) as [e|]; [|by destruct (m !! sku)].
    destruct (decide (status e = green));
      [rewrite lookup_insert_ne by done|]; by destruct (m !! sku).
Qed.

Lemma iter_set_red (issue : string) (n : nat) (e : StatusEntry) :
  let e' := Nat.iter n (λ e, add_issue issue (set_status red e)) e in
  entry_sku e' = entry_sku e
  ∧ status e' = (if n is 0 then status e else red)
  ∧ issues e' = issues e ++ replicate n issue
  ∧ recommendations e' = recommendations e.
Proof.
  cbv zeta. induction n as [|n (Hsku & Hstatus & Hissues & Hrecs)].
  { cbn. by rewrite app_nil_r. }
  rewrite Nat.iter_succ.
  cbn [add_issue set_status entry_sku status issues recommendations].
  rewrite Hissues, replicate_S_end, app_assoc. done.
Qed.

Lemma iter_money_loser (n : nat) (e : StatusEntry) :
  let e' :=
    Nat.iter n (λ e, add_issue "Losing money"
                       (if decide (status e ≠ red) then set_status yellow e
                        else e)) e in
  entry_sku e' = entry_sku e
  ∧ status e' = (if n is 0 then status e
                 else if decide (status e = red) then red else yellow)
  ∧ issues e' = issues e ++ replicate n "Losing money"%string
  ∧ recommendations e' = recommendations e.
Proof.
  cbv zeta. induction n as [|n (Hsku & Hstatus & Hissues & Hrecs)].
  { cbn. by rewrite app_nil_r. }
  rewrite Nat.iter_succ. set (e' := Nat.iter n _ e) in *.
  destruct (decide (status e' ≠ red)) as [Hne|Heq];
    cbn [add_issue set_status entry_sku status issues recommendations];
    rewrite Hissues, replicate_S_end, app_assoc; split_and!; try done.
  - destruct n; [rewrite Hstatus in Hne; by rewrite decide_False|].
    rewrite Hstatus in Hne. by destruct (decide (status e = red)).
  - apply dec_stable in Heq. rewrite Heq.
    destruct n; [rewrite <- Hstatus, Heq; by rewrite decide_True|].
    rewrite Hstatus in Heq. by destruct (decide (status e = red)).
Qed.

Lemma iter_underperformer (n : nat) (e : StatusEntry) :
  let e' :=
    Nat.iter n (λ e, if decide (status e = green)
                     then add_issue "Underperforming new product"
                            (set_status yellow e)
                     else e) e in
  entry_sku e' = entry_sku e
  ∧ status e' = (if n is 0 then status e
                 else if decide (status e = green) then yellow else status e)
  ∧ issues e'
    = issues e ++ (if n is 0 then []
                   else if decide (status e = green)
                        then ["Underperforming new product"%string] else [])
  ∧ recommendations e' = recommendations e.
Proof.
  cbv zeta. induction n as [|n (Hsku & Hstatus & Hissues & Hrecs)].
  { cbn. by rewrite app_nil_r. }
  rewrite Nat.iter_succ. set (e' := Nat.iter n _ e) in *. clearbody e'.
  destruct n; repeat case_decide;
    cbn [add_issue set_status entry_sku status issues recommendations];
    rewrite ?Hissues, ?app_nil_r; split_and!; congruence.
Qed.

(** Attaching a recommendation appends it to the entries of the skus its
    action names, when the action mentions "sku" at all. *)
Lemma attach_recommendation_lookup (skus : gset string)
    (m : gmap string StatusEntry) (rec : Recommendation) (sku : string) :
  attach_recommendation skus m rec !! sku
  = (if decide (contains (lower (rec_action rec)) "sku" = true
                ∧ contains (rec_action rec) sku = true ∧ sku ∈ skus)
     then add_recommendation rec else id) <$> m !! sku.
Proof.
  unfold attach_recommendation.
  destruct (contains (lower (rec_action rec)) "sku") eqn:Hmentions.
  2: { rewrite decide_False by (intros (? & _); done).
       by destruct (m !! sku). }
  revert sku.
  pose (P := λ (m' : gmap string StatusEntry) (X : gset string),
          ∀ sku : string,
            m' !! sku
            = (if decide (true = true
                          ∧ contains (rec_action rec) sku = true ∧ sku ∈ X)
               then add_recommendation rec else id) <$> m !! sku).
  apply (set_fold_ind_L P); unfold P; clear P.
  { intros sku. rewrite decide_False by (intros (_ & _ & ?); set_solver).
    by destruct (m !! sku). }
  intros x X m' Hx IH sku.
  destruct (contains (rec_action rec) x) eqn:Hnamed.
  - rewrite lookup_alter. destruct (decide (x = sku)) as [->|Hne].
    + rewrite IH. rewrite decide_False by (intros (_ & _ & ?); done).
      rewrite decide_True by (split_and!; [done..|set_solver]).
      by destruct (m !! sku).
    + rewrite IH.
      destruct (decide (true = true ∧ contains (rec_action rec) sku = true
                        ∧ sku ∈ X)) as [(_ & Hc & Hin)|Hno].
      * by rewrite decide_True by (split_and!; [done..|set_solver]).
      * rewrite decide_False; [done|].
        intros (_ & Hc & Hin). apply Hno. split_and!; [done..|set_solver].
  - rewrite IH.
    destruct (decide (true = true ∧ contains (rec_action rec) sku = true
                      ∧ sku ∈ X)) as [(_ & Hc & Hin)|Hno].
    + by rewrite decide_True by (split_and!; [done..|set_solver]).
    + rewrite decide_False; [done|].
      intros (_ & Hc & [Hin|Hin]%elem_of_union).
      * apply elem_of_singleton in Hin. congruence.
      * apply Hno. by split_and!.
Qed.

Lemma foldl_attach_lookup (skus : gset string) (recs : list Recommendation)
    (m : gmap string StatusEntry) (sku : string) :
  match foldl (attach_recommendation skus) m recs !! sku, m !! sku with
  | Some e', Some e =>
      entry_sku e' = entry_sku e ∧ status e' = status e
      ∧ issues e' = issues e
      ∧ recommendations e'
        = recommendations e
          ++ filter (λ rec, contains (lower (rec_action rec)) "sku" = true
                            ∧ contains (rec_action rec) sku = true
                            ∧ sku ∈ skus) recs
  | None, None => True
  | _, _ => False
  end.
Proof.
  revert m. induction recs as [|rec recs IH]; intros m.
  { cbn. destruct (m !! sku); [|done]. by rewrite app_nil_r. }
  cbn [foldl]. specialize (IH (attach_recommendation skus m rec)).
  rewrite attach_recommendation_lookup in IH. rewrite filter_cons.
  destruct (foldl _ _ recs !! sku) as [e'|], (m !! sku) as [e|];
    cbn [fmap option_fmap option_map] in IH; try done.
  destruct IH as (Hsku & Hstatus & Hissues & Hrecs).
  destruct (decide _); cbn [add_recommendation entry_sku status issues
                            recommendations id] in *.
  - rewrite Hrecs, <- app_assoc. done.
  - done.
Qed.

(** The entry of a sku in the final map. *)
Lemma final_entry (r : results) (sku : string) :
  let count (l : list string) := length (filter (λ k, k = sku) l) in
  let nz := count (default [] (sku_rationalization r)) in
  let nl := count (default [] (contribution_margin r)) in
  let nc := count (critical_slow_movers r) in
  let nu := count (default [] (new_product_scoring r)) in
  match _generate_traffic_light_status r !! sku with
  | None => sku ∉ all_skus r
  | Some e =>
      sku ∈ all_skus r ∧ entry_sku e = sku
      ∧ issues e
        = replicate nz "Zombie product"%string
          ++ replicate nl "Losing money"%string
          ++ replicate nc "Critical slow mover"%string
          ++ (if decide (nz = 0 ∧ nl = 0 ∧ nc = 0 ∧ 0 < nu)
              then ["Underperforming new product"%string] else [])
      ∧ (status e = green ↔ issues e = [])
      ∧ recommendations e
        = filter (λ rec, contains (lower (rec_action rec)) "sku" = true
                         ∧ contains (rec_action rec) sku = true)
                 (consolidated_recommendations r)
  end.
Proof.
  cbv zeta. unfold _generate_traffic_light_status.
  pose proof (foldl_attach_lookup (all_skus r) (consolidated_recommendations r)
                (apply_status_rules r) sku) as Hattach.
  assert (apply_status_rules r !! sku
          = (λ e0,
               Nat.iter (length (filter (λ k, k = sku)
                                   (default [] (new_product_scoring r))))
                 (λ e, if decide (status e = green)
                       then add_issue "Underperforming new product"
                              (set_status yellow e)
                       else e)
                 (Nat.iter (length (filter (λ k, k = sku)
                                      (critical_slow_movers r)))
                    (λ e, add_issue "Critical slow mover" (set_status red e))
                    (Nat.iter (length (filter (λ k, k = sku)
                                         (default [] (contribution_margin r))))
                       (λ e, add_issue "Losing money"
                               (if decide (status e ≠ red)
                                then set_status yellow e else e))
                       (Nat.iter (length (filter (λ k, k = sku)
                                            (default [] (sku_rationalization r))))
                          (λ e, add_issue "Zombie product" (set_status red e))
                          e0))))
            <$> initial_status_map r !! sku) as Hrules.
  { unfold apply_status_rules. cbv zeta.
    rewrite (foldl_mark_lookup mark_underperformer _ mark_underperformer_lookup).
    rewrite (foldl_mark_lookup mark_critical_slow_mover
               (λ e, add_issue "Critical slow mover" (set_status red e)))
      by (intros; apply mark_body_lookup).
    rewrite (foldl_mark_lookup mark_money_loser
               (λ e, add_issue "Losing money"
                       (if decide (status e ≠ red) then set_status yellow e
                        else e)))
      by (intros; apply mark_body_lookup).
    rewrite (foldl_mark_lookup mark_zombie
               (λ e, add_issue "Zombie product" (set_status red e)))
      by (intros; apply mark_body_lookup).
    by destruct (initial_status_map r !! sku). }
  rewrite Hrules, initial_status_map_lookup in Hattach.
  destruct (decide (sku ∈ all_skus r)) as [Hin|Hout];
    cbn [fmap option_fmap option_map] in Hattach.
  2: { by destruct (foldl _ _ _ !! sku). }
  destruct (foldl _ _ _ !! sku) as [e|]; [|done].
  destruct Hattach as (Hsku & Hstatus & Hissues & Hrecs).
  set (nz := length (filter _ (default [] (sku_rationalization r)))) in *.
  set (nl := length (filter _ (default [] (contribution_margin r)))) in *.
  set (nc := length (filter _ (critical_slow_movers r))) in *.
  set (nu := length (filter _ (default [] (new_product_scoring r)))) in *.
  destruct (iter_set_red "Zombie product" nz (initial_entry sku))
    as (Hs1 & Ht1 & Hi1 & Hr1).
  set (e1 := Nat.iter nz _ (initial_entry sku)) in *.
  destruct (iter_money_loser nl e1) as (Hs2 & Ht2 & Hi2 & Hr2).
  set (e2 := Nat.iter nl _ e1) in *.
  destruct (iter_set_red "Critical slow mover" nc e2)
    as (Hs3 & Ht3 & Hi3 & Hr3).
  set (e3 := Nat.iter nc _ e2) in *.
  destruct (iter_underperformer nu e3) as (Hs4 & Ht4 & Hi4 & Hr4).
  set (e4 := Nat.iter nu _ e3) in *.
  cbn [initial_entry entry_sku status issues recommendations] in *.
  assert (issues e
          = replicate nz "Zombie product"%string
            ++ replicate nl "Losing money"%string
            ++ replicate nc "Critical slow mover"%string
            ++ (if decide (nz = 0 ∧ nl = 0 ∧ nc = 0 ∧ 0 < nu)
                then ["Underperforming new product"%string] else [])
          ∧ (status e = green ↔ issues e = [])) as [Hfinal Hgreen].
  { rewrite Hstatus, Hissues, Ht4, Hi4, Ht3, Hi3, Ht2, Hi2, Ht1, Hi1.
    rewrite <- !app_assoc. cbn [app].
    destruct nz, nl, nc, nu; cbn [replicate app];
      repeat (case_decide; try lia; try done);
      try (split; [reflexivity|split; done]);
      try (split; [reflexivity|split; intros; done]);
      exfalso; naive_solver lia. }
  split_and!; [done|congruence|done|done|].
  rewrite Hrecs, Hr4, Hr3, Hr2, Hr1. cbn [app].
  apply filter_equiv. apply Forall_forall. intros rec _. tauto.
Qed.

Lemma count_critical_slow_movers (r : results) (sku : string) :
  length (filter (λ k, k = sku) (critical_slow_movers r))
  = length (filter (λ row, row = (sku, "critical"%string))
                   (default [] (slow_mover_detection r))).
Proof.
  unfold critical_slow_movers.
  induction (default [] (slow_mover_detection r)) as [|[k u] rows IH];
    [done|].
  rewrite !filter_cons. cbn [snd].
  destruct (decide (u = "critical"%string)) as [->|Hu].
  - rewrite fmap_cons, filter_cons. cbn [fst].
    destruct (decide (k = sku)) as [->|Hk].
    + rewrite decide_True by done. cbn [length]. by rewrite IH.
    + rewrite decide_False by congruence. exact IH.
  - rewrite decide_False by congruence. exact IH.
Qed.

(** X20: the traffic-light map has an entry for exactly the skus of the
    analysed tables, filed under its own sku.  Its issues are, in this
    order, "Zombie product" once per zombie row of the sku, "Losing money"
    once per money-loser row, "Critical slow mover" once per row of the
    slow-mover table with this sku and the urgency "critical" (a row of
    another urgency adds nothing), and "Underperforming new product" once,
    and only when the sku has none of the other issues; the status is green
    exactly when there is no issue. *)
Theorem X20_status_entry_issues (r : results) (sku : string) :
  let count (l : list string) := length (filter (λ k, k = sku) l) in
  let nz := count (default [] (sku_rationalization r)) in
  let nl := count (default [] (contribution_margin r)) in
  let nc :=
    length (filter (λ row, row = (sku, "critical"%string))
                   (default [] (slow_mover_detection r))) in
  let nu := count (default [] (new_product_scoring r)) in
  match _generate_traffic_light_status r !! sku with
  | None => sku ∉ all_skus r
  | Some e =>
      sku ∈ all_skus r ∧ entry_sku e = sku
      ∧ issues e
        = replicate nz "Zombie product"%string
          ++ replicate nl "Losing money"%string
          ++ replicate nc "Critical slow mover"%string
          ++ (if decide (nz = 0 ∧ nl = 0 ∧ nc = 0 ∧ 0 < nu)
              then ["Underperforming new product"%string] else [])
      ∧ (status e = green ↔ issues e = [])
  end.
Proof.
  cbv beta zeta. pose proof (final_entry r sku) as Hentry.
  cbv beta zeta in Hentry. rewrite count_critical_slow_movers in Hentry.
  destruct (_generate_traffic_light_status r !! sku); [|done].
  destruct Hentry as (? & ? & ? & ? & _). done.
Qed.

Lemma X20_witness :
  match _generate_traffic_light_status Scenarios.overlay !! "C"%string,
        _generate_traffic_light_status Scenarios.overlay !! "B"%string with
  | Some c, Some b =>
      issues c = ["Critical slow mover"%string]
      ∧ issues b = ["Losing money"%string]
  | _, _ => False
  end.
Proof.
  pose proof (X20_status_entry_issues Scenarios.overlay "C") as Hc.
  pose proof (X20_status_entry_issues Scenarios.overlay "B") as Hb.
  cbv zeta in Hc, Hb.
  destruct (_generate_traffic_light_status Scenarios.overlay !! "C"%string)
    as [c|]; [|exfalso; apply Hc; by_evaluation].
  destruct (_generate_traffic_light_status Scenarios.overlay !! "B"%string)
    as [b|]; [|exfalso; apply Hb; by_evaluation].
  destruct Hc as (_ & _ & Hc & _). destruct Hb as (_ & _ & Hb & _).
  split; [exact Hc|exact Hb].
Defined.

(** X21: the recommendations of an entry are the consolidated
    recommendations whose action contains "sku" in any letter case and
    contains the sku of the entry as a substring, in consolidated order;
    a recommendation that does not mention "sku" is attached to no entry. *)
Theorem X21_status_entry_recommendations (r : results) (sku : string) :
  match _generate_traffic_light_status r !! sku with
  | None => sku ∉ all_skus r
  | Some e =>
      recommendations e
      = filter (λ rec, contains (lower (rec_action rec)) "sku" = true
                       ∧ contains (rec_action rec) sku = true)
               (consolidated_recommendations r)
  end.
Proof.
  pose proof (final_entry r sku) as Hentry. cbv zeta in Hentry.
  destruct (_generate_traffic_light_status r !! sku); [|done].
  by destruct Hentry as (_ & _ & _ & _ & ?).
Qed.
End StatusEntryCoverage.
